(* ===================================================================== *)
(* Verification of the ADW test-and-repair workflow (adws/)              *)
(*                                                                       *)
(*   adws/worktree_ops.py    : deterministic port allocation, worktree   *)
(*                             creation, removal, listing and the        *)
(*                             cleanup of stale worktrees                *)
(*   adws/adw_test.py        : the command line, the retry-with-         *)
(*                             resolution loops (unit and E2E tier) and  *)
(*                             the driver that chains them               *)
(*   adws/model_selection.py : the choice of a model for a command       *)
(*                                                                       *)
(* The Python code is embedded shallowly: pure functions are Rocq        *)
(* functions, functions that raise return a [result], and functions that *)
(* talk to the outside (agent, git, npm, file system, logger, issue      *)
(* tracker) run in a small state monad over an explicit world.           *)
(* ===================================================================== *)

From Stdlib Require Import Ascii String ZArith Lia Floats.
From stdpp Require Import base option list strings gmap pretty.

Local Open Scope string_scope.
Local Open Scope Z_scope.

(* --------------------------------------------------------------------- *)
(* Python values shared by both modules                                  *)
(* --------------------------------------------------------------------- *)

(** Exceptions the embedded code raises or catches. *)
Inductive Exn : Type :=
  | ValueError (msg : string)
  | CalledProcessError (returncode : Z) (cmd : list string).

(** Outcome of a Python call that may raise. *)
Inductive result (A : Type) : Type :=
  | Ok (a : A)
  | Raise (e : Exn).
Arguments Ok {A} a.
Arguments Raise {A} e.

(* --------------------------------------------------------------------- *)
(* Python's built-in int(s, 16) on str                                   *)
(* --------------------------------------------------------------------- *)

Module PyInt.

(** Characters are code points below 256 ([ascii]); [int] first maps the
    non-ASCII white space of that range (NEL, NBSP) to a blank, and the
    C parser then skips the ASCII white space [\t\n\v\f\r] and blank. *)
Definition is_space (c : ascii) : bool :=
  let n := nat_of_ascii c in
  ((9 <=? n)%nat && (n <=? 13)%nat) || (n =? 32)%nat
  || (n =? 133)%nat || (n =? 160)%nat.

(** Value of a base-16 digit, [None] for any other character. *)
Definition digit16 (c : ascii) : option Z :=
  let n := nat_of_ascii c in
  if (48 <=? n)%nat && (n <=? 57)%nat then Some (Z.of_nat n - 48)
  else if (97 <=? n)%nat && (n <=? 102)%nat then Some (Z.of_nat n - 87)
  else if (65 <=? n)%nat && (n <=? 70)%nat then Some (Z.of_nat n - 55)
  else None.

Definition is_underscore (c : ascii) : bool := (nat_of_ascii c =? 95)%nat.

Fixpoint skip_spaces (s : string) : string :=
  match s with
  | String c s' => if is_space c then skip_spaces s' else s
  | EmptyString => s
  end.

(** Optional sign: the remaining text and whether the value is negated. *)
Definition take_sign (s : string) : bool * string :=
  match s with
  | String c s' =>
      if Ascii.eqb c "+" then (false, s')
      else if Ascii.eqb c "-" then (true, s')
      else (false, s)
  | EmptyString => (false, s)
  end.

(** Optional [0x] / [0X] prefix, after which one underscore may follow. *)
Definition skip_prefix (s : string) : string :=
  match s with
  | String c0 (String c1 s') =>
      if Ascii.eqb c0 "0" && (Ascii.eqb c1 "x" || Ascii.eqb c1 "X") then
        match s' with
        | String c2 s'' => if is_underscore c2 then s'' else s'
        | EmptyString => s'
        end
      else s
  | _ => s
  end.

Definition starts_with_underscore (s : string) : bool :=
  match s with
  | String c _ => is_underscore c
  | EmptyString => false
  end.

(** The digit scan: digits and single underscores between them.  [prev_us]
    tells whether the previous character was an underscore, [acc] is the
    value read so far.  Returns the value and the unread rest, or [None]
    on a doubled or trailing underscore. *)
Fixpoint scan_digits (s : string) (prev_us : bool) (acc : Z)
  : option (Z * string) :=
  match s with
  | String c s' =>
      match digit16 c with
      | Some d => scan_digits s' false (16 * acc + d)
      | None =>
          if is_underscore c then
            if prev_us then None else scan_digits s' true acc
          else if prev_us then None else Some (acc, s)
      end
  | EmptyString => if prev_us then None else Some (acc, s)
  end.

(** [int(s, 16)]: [None] stands for the ValueError Python raises. *)
Definition int16 (s : string) : option Z :=
  let '(neg, s1) := take_sign (skip_spaces s) in
  let s2 := skip_prefix s1 in
  if starts_with_underscore s2 then None
  else
    match scan_digits s2 false 0 with
    | Some (v, rest) =>
        if (String.length rest =? String.length s2)%nat then None
        else
          match skip_spaces rest with
          | EmptyString => Some (if neg then - v else v)
          | _ => None
          end
    | None => None
    end.

(** Plain positional value of a string of base-16 digits. *)
Fixpoint hex_value (s : string) (acc : Z) : option Z :=
  match s with
  | String c s' =>
      match digit16 c with
      | Some d => hex_value s' (16 * acc + d)
      | None => None
      end
  | EmptyString => Some acc
  end.

(** The characters a base-16 literal can be made of: digits, white space,
    a sign, the [x] of the prefix and the underscore. *)
Definition literal_char (c : ascii) : bool :=
  match digit16 c with
  | Some _ => true
  | None =>
      is_space c || is_underscore c
      || Ascii.eqb c "+" || Ascii.eqb c "-"
      || Ascii.eqb c "x" || Ascii.eqb c "X"
  end.

Fixpoint literal_chars (s : string) : bool :=
  match s with
  | String c s' => literal_char c && literal_chars s'
  | EmptyString => true
  end.

End PyInt.

(* --------------------------------------------------------------------- *)
(* Python's str methods used on the output of git                        *)
(* --------------------------------------------------------------------- *)

Module PyStr.

(** [c.isspace()] for a code point below 256. *)
Definition isspace (c : ascii) : bool :=
  let n := nat_of_ascii c in
  ((9 <=? n)%nat && (n <=? 13)%nat) || ((28 <=? n)%nat && (n <=? 32)%nat)
  || (n =? 133)%nat || (n =? 160)%nat.

Fixpoint lstrip (s : string) : string :=
  match s with
  | String c s' => if isspace c then lstrip s' else s
  | EmptyString => s
  end.

Fixpoint rstrip (s : string) : string :=
  match s with
  | String c s' =>
      match rstrip s' with
      | EmptyString => if isspace c then EmptyString else String c EmptyString
      | kept => String c kept
      end
  | EmptyString => s
  end.

(** [s.strip()]. *)
Definition strip (s : string) : string := rstrip (lstrip s).

(** [s.split(sep)] for a separator of one character: never empty, one
    piece more than there are separators. *)
Fixpoint split (sep : ascii) (s : string) : list string :=
  match s with
  | String c s' =>
      if Ascii.eqb c sep then EmptyString :: split sep s'
      else
        match split sep s' with
        | piece :: pieces => String c piece :: pieces
        | [] => [String c EmptyString]
        end
  | EmptyString => [EmptyString]
  end.

(** [s.split(sep, 1)]: at most one cut, at the first separator. *)
Fixpoint split_once (sep : ascii) (s : string) : list string :=
  match s with
  | String c s' =>
      if Ascii.eqb c sep then [EmptyString; s']
      else
        match split_once sep s' with
        | piece :: pieces => String c piece :: pieces
        | [] => [String c EmptyString]
        end
  | EmptyString => [EmptyString]
  end.

(** Two base-16 digits of a code point, as [repr] prints them. *)
Definition hex2 (n : nat) : string :=
  let digit (d : nat) : ascii :=
    default "0"%char (list_ascii_of_string "0123456789abcdef" !! d) in
  String (digit (n / 16)%nat) (String (digit (n mod 16)%nat) EmptyString).

(** [c.isprintable()] for a code point below 256. *)
Definition isprintable (c : ascii) : bool :=
  let n := nat_of_ascii c in
  ((32 <=? n)%nat && (n <=? 126)%nat)
  || ((161 <=? n)%nat && negb (n =? 173)%nat).

Fixpoint occurs (c : ascii) (s : string) : bool :=
  match s with
  | String c' s' => Ascii.eqb c c' || occurs c s'
  | EmptyString => false
  end.

Definition backslash : ascii := ascii_of_nat 92.
Definition double_quote : ascii := ascii_of_nat 34.

(** One character of [repr(s)] between the quotes [quote]. *)
Definition repr_char (quote c : ascii) : string :=
  let n := nat_of_ascii c in
  if Ascii.eqb c quote || (n =? 92)%nat
  then String backslash (String c EmptyString)
  else if (n =? 9)%nat then String backslash "t"
  else if (n =? 10)%nat then String backslash "n"
  else if (n =? 13)%nat then String backslash "r"
  else if isprintable c then String c EmptyString
  else String backslash "x" +:+ hex2 n.

Fixpoint repr_chars (quote : ascii) (s : string) : string :=
  match s with
  | String c s' => repr_char quote c +:+ repr_chars quote s'
  | EmptyString => EmptyString
  end.

(** [repr(s)]: double quotes when [s] has a single quote and no double
    one, single quotes otherwise. *)
Definition repr (s : string) : string :=
  let quote : ascii :=
    if occurs "'"%char s && negb (occurs double_quote s)
    then double_quote else "'"%char in
  String quote (repr_chars quote s +:+ String quote EmptyString).

End PyStr.

(* --------------------------------------------------------------------- *)
(* Python's float (IEEE 754 binary64)                                    *)
(* --------------------------------------------------------------------- *)

Module PyFloat.

(** [x > n] for a float [x] and an int [n]: Python compares the two
    exactly, without rounding [n] to a float; nan is greater than
    nothing. *)
Definition gt_int (x : float) (n : Z) : bool :=
  match Prim2SF x with
  | S754_nan => false
  | S754_infinity neg => negb neg
  | S754_zero _ => n <? 0
  | S754_finite neg m e =>
      let v := if neg then Z.neg m else Z.pos m in
      if 0 <=? e then n <? v * 2 ^ e else n * 2 ^ (- e) <? v
  end.

End PyFloat.

(* --------------------------------------------------------------------- *)
(* A state monad for code with side effects                              *)
(* --------------------------------------------------------------------- *)

Definition State (W A : Type) : Type := W -> A * W.

Definition ret {W A : Type} (a : A) : State W A := fun w => (a, w).

Definition bind {W A B : Type} (m : State W A) (k : A -> State W B)
  : State W B :=
  fun w => match m w with (a, w') => k a w' end.

(** Sequencing that stops at the first raised exception. *)
Definition bind_ok {W A B : Type} (m : State W (result A))
    (k : A -> State W (result B)) : State W (result B) :=
  fun w =>
    match m w with
    | (Ok a, w') => k a w'
    | (Raise e, w') => (Raise e, w')
    end.

Declare Scope monad_scope.
Delimit Scope monad_scope with monad.
Notation "x <- m ;; k" := (bind m (fun x => k))
  (at level 100, m at next level, right associativity) : monad_scope.
Notation "m ;; k" := (bind m (fun _ => k))
  (at level 100, right associativity) : monad_scope.
Notation "x <-? m ;; k" := (bind_ok m (fun x => k))
  (at level 100, m at next level, right associativity) : monad_scope.
Local Open Scope monad_scope.

(** Python's [str(n)] for an int. *)
Definition str_Z (n : Z) : string := pretty n.
Definition str_nat (n : nat) : string := pretty n.

(** Log levels of the [logging] module. *)
Inductive Level : Type := DEBUG | INFO | WARNING | ERROR.

(* ===================================================================== *)
(* adws/worktree_ops.py                                                  *)
(* ===================================================================== *)

Module WorktreeOps.

(** [PortAllocation] dataclass. *)
Record PortAllocation : Type := { backend : Z; frontend : Z }.

Definition to_env_dict (p : PortAllocation) : list (string * string) :=
  [ ("PORT", str_Z (backend p));
    ("VITE_PORT", str_Z (frontend p));
    ("DEV_SERVER_PORT", str_Z (frontend p)) ].

Definition BACKEND_PORT_START : Z := 3100.
Definition FRONTEND_PORT_START : Z := 3200.
Definition MAX_CONCURRENT_WORKFLOWS : Z := 15.

(** [s.ljust(width, fillchar)]. *)
Definition ljust (s : string) (width : nat) (fillchar : ascii) : string :=
  s +:+ string_of_list_ascii (replicate (width - String.length s) fillchar).

(** [adw_id[:4] if len(adw_id) >= 4 else adw_id.ljust(4, '0')]. *)
Definition hex_prefix (adw_id : string) : string :=
  if (4 <=? String.length adw_id)%nat then substring 0 4 adw_id
  else ljust adw_id 4 "0"%char.

(** The ValueError of [int(s, 16)]: its text ends with [repr(s)]. *)
Definition int_error (s : string) : Exn :=
  ValueError ("invalid literal for int() with base 16: " +:+ PyStr.repr s).

(** [allocate_ports]: [int] raises ValueError on a prefix that is not a
    base-16 literal; [%] is Python's floor modulo, which [Z.modulo] is for
    a positive divisor. *)
Definition allocate_ports (adw_id : string) : result PortAllocation :=
  match PyInt.int16 (hex_prefix adw_id) with
  | None => Raise (int_error (hex_prefix adw_id))
  | Some n =>
      let offset := n mod MAX_CONCURRENT_WORKFLOWS in
      Ok {| backend := BACKEND_PORT_START + offset;
            frontend := FRONTEND_PORT_START + offset |}
  end.

(* ------------------------------------------------------------------- *)
(* The world the worktree manager acts on                              *)
(* ------------------------------------------------------------------- *)

(** What the code does to the outside, in program order. *)
Inductive Event : Type :=
  | ELog (lvl : Level) (msg : string)
  | ERun (cmd : list string) (cwd : string) (returncode : Z)
  | ECopy (src dst : string)
  | EWrite (path : string) (lines : list string).

(** One entry of the [trees/] directory. *)
Record Entry : Type := { is_dir : bool; st_mtime : float }.

(** The part of the file system the code looks at: the entries of
    [trees/] by name ([None] while the directory does not exist) and
    whether [.env.local] is present in the project root; and the trace of
    events so far.  The listing describes [trees/<adw_id>] for a run
    identifier that names an entry of a directory ([path_component]
    below); for such an identifier the path exists exactly when [adw_id]
    is an entry. *)
Record World : Type := {
  trees : option (gmap string Entry);
  env_local : bool;
  trace : list Event
}.

(** The collaborators: the exit status of a subprocess and the clock may
    depend on everything that happened before. *)
Record Ext : Type := {
  project_root : string;
  subprocess_run : list Event -> list string -> string -> Z;
  time_time : list Event -> float;
  format_1f : float -> string
}.

(** The names an entry of a directory can have: not empty, not [.] or
    [..], without [/] and without the NUL character.  For any other
    identifier [trees_dir / adw_id] is not an entry of [trees/]. *)
Definition path_component (name : string) : bool :=
  negb (String.eqb name "") && negb (String.eqb name ".")
  && negb (String.eqb name "..")
  && negb (PyStr.occurs "/"%char name)
  && negb (PyStr.occurs (ascii_of_nat 0) name).

(** [str(Path(p) / q)] for the text [p] of a path and a single component
    [q]: pathlib drops an empty component and [.], and writes no second
    slash after the root. *)
Definition path_join (p q : string) : string :=
  if String.eqb q "" || String.eqb q "." then p
  else if String.eqb p "." then q
  else if String.eqb p "/" then p +:+ q
  else p +:+ "/" +:+ q.

(** [repr] of a list of plain strings and [str] of an exception. *)
Definition repr_list (l : list string) : string :=
  "[" +:+ String.concat ", " (map PyStr.repr l) +:+ "]".

Definition str_exn (e : Exn) : string :=
  match e with
  | ValueError msg => msg
  | CalledProcessError rc cmd =>
      "Command '" +:+ repr_list cmd +:+ "' returned non-zero exit status "
      +:+ str_Z rc +:+ "."
  end.

Section Manager.

Context (ext : Ext).

Definition emit (e : Event) : State World unit :=
  fun w => (tt, {| trees := trees w; env_local := env_local w;
                   trace := trace w ++ [e] |}).

Definition log (lvl : Level) (msg : string) : State World unit :=
  emit (ELog lvl msg).

Definition get_project_root : string := project_root ext.
Definition get_trees_dir : string := path_join get_project_root "trees".
Definition get_worktree_path (adw_id : string) : string :=
  path_join get_trees_dir adw_id.

(** [subprocess.run(cmd, cwd=cwd, check=True, ...)]: raises
    CalledProcessError on a non-zero exit status. *)
Definition run_checked (cmd : list string) (cwd : string)
  : State World (result unit) :=
  rc <- (fun w => (subprocess_run ext (trace w) cmd cwd, w)) ;;
  emit (ERun cmd cwd rc) ;;
  if rc =? 0 then ret (Ok tt) else ret (Raise (CalledProcessError rc cmd)).

(** [trees_dir.mkdir(exist_ok=True)]. *)
Definition mkdir_trees : State World unit :=
  fun w =>
    match trees w with
    | Some _ => (tt, w)
    | None => (tt, {| trees := Some ∅; env_local := env_local w;
                      trace := trace w |})
    end.

Definition trees_exists : State World bool :=
  fun w => (bool_decide (is_Some (trees w)), w).

(** [get_worktree_path(adw_id).exists()], for an identifier that is a
    [path_component]: the path is then the entry [adw_id] of [trees/]. *)
Definition worktree_exists (adw_id : string) : State World bool :=
  fun w =>
    (match trees w with
     | Some m => bool_decide (is_Some (m !! adw_id))
     | None => false
     end, w).

Definition env_local_exists : State World bool :=
  fun w => (env_local w, w).

(** Modelled from the spec: the version-control collaborator is not part
    of the sources.  A successful [git worktree add <path> <branch>]
    creates the checkout directory, stamped with the current time; a
    failed one leaves the directory listing as it was. *)
Definition git_worktree_add (adw_id branch_name : string)
  : State World (result unit) :=
  _ <-? run_checked ["git"; "worktree"; "add"; get_worktree_path adw_id;
                     branch_name] get_project_root ;;
  fun w =>
    (Ok tt,
     {| trees := (fun m : gmap string Entry =>
                    <[adw_id := {| is_dir := true;
                                   st_mtime := time_time ext (trace w) |}]> m)
                 <$> trees w;
        env_local := env_local w;
        trace := trace w |}).

(** Modelled from the spec: a successful
    [git worktree remove <path> --force] deletes the checkout directory;
    a failed one leaves the directory listing as it was. *)
Definition git_worktree_remove (adw_id : string)
  : State World (result unit) :=
  _ <-? run_checked ["git"; "worktree"; "remove"; get_worktree_path adw_id;
                     "--force"] get_project_root ;;
  fun w =>
    (Ok tt,
     {| trees := (fun m : gmap string Entry => delete adw_id m) <$> trees w;
        env_local := env_local w;
        trace := trace w |}).

Definition create_worktree (adw_id branch_name : string)
  : State World (result (string * PortAllocation)) :=
  let worktree_path := get_worktree_path adw_id in
  mkdir_trees ;;
  present <- worktree_exists adw_id ;;
  if present then
    log INFO ("Worktree already exists at " +:+ worktree_path) ;;
    ret (match allocate_ports adw_id with
         | Ok ports => Ok (worktree_path, ports)
         | Raise e => Raise e
         end)
  else
    log INFO ("Creating worktree at " +:+ worktree_path
              +:+ " for branch " +:+ branch_name) ;;
    _ <-? git_worktree_add adw_id branch_name ;;
    ports <-? ret (allocate_ports adw_id) ;;
    has_env <- env_local_exists ;;
    (if has_env then
       emit (ECopy (path_join get_project_root ".env.local")
                   (path_join worktree_path ".env.local")) ;;
       log INFO "Copied .env.local to worktree"
     else ret tt) ;;
    emit (EWrite (path_join worktree_path ".ports.env")
                 (map (fun kv => fst kv +:+ "=" +:+ snd kv)
                      (to_env_dict ports))) ;;
    log INFO ("Created .ports.env with backend=" +:+ str_Z (backend ports)
              +:+ ", frontend=" +:+ str_Z (frontend ports)) ;;
    log INFO "Installing dependencies in worktree..." ;;
    _ <-? run_checked ["npm"; "install"] worktree_path ;;
    log INFO ("Worktree created successfully at " +:+ worktree_path) ;;
    ret (Ok (worktree_path, ports)).

Definition remove_worktree (adw_id : string) : State World (result bool) :=
  let worktree_path := get_worktree_path adw_id in
  present <- worktree_exists adw_id ;;
  if negb present then
    log INFO ("Worktree " +:+ worktree_path +:+ " does not exist") ;;
    ret (Ok false)
  else
    log INFO ("Removing worktree at " +:+ worktree_path) ;;
    _ <-? git_worktree_remove adw_id ;;
    log INFO "Worktree removed successfully" ;;
    ret (Ok true).

(** [worktree_dir.is_dir()] and [worktree_dir.stat().st_mtime] on the
    current directory listing. *)
Definition entry_of (name : string) : State World (option Entry) :=
  fun w => (trees w ≫= (fun m => m !! name), w).

(** One round of the [for worktree_dir in trees_dir.iterdir()] loop;
    [cleaned] is the counter, an exception other than
    CalledProcessError leaves the loop. *)
Definition cleanup_step (now : float) (max_age_seconds : Z)
    (name : string) (cleaned : Z) : State World (result Z) :=
  e <- entry_of name ;;
  match e with
  | Some {| is_dir := true; st_mtime := mtime |} =>
      let age_seconds := (now - mtime)%float in
      if PyFloat.gt_int age_seconds max_age_seconds then
        log INFO ("Cleaning up stale worktree " +:+ name +:+ " (age: "
                  +:+ format_1f ext (age_seconds / 3600)%float +:+ "h)") ;;
        r <- remove_worktree name ;;
        match r with
        | Ok _ => ret (Ok (cleaned + 1))
        | Raise (CalledProcessError rc cmd) =>
            log WARNING ("Failed to remove worktree " +:+ name +:+ ": "
                         +:+ str_exn (CalledProcessError rc cmd)) ;;
            ret (Ok cleaned)
        | Raise e => ret (Raise e)
        end
      else ret (Ok cleaned)
  | _ => ret (Ok cleaned)
  end.

Fixpoint cleanup_loop (now : float) (max_age_seconds : Z)
    (names : list string) (cleaned : Z) : State World (result Z) :=
  match names with
  | [] => ret (Ok cleaned)
  | name :: rest =>
      cleaned' <-? cleanup_step now max_age_seconds name cleaned ;;
      cleanup_loop now max_age_seconds rest cleaned'
  end.

(** [trees_dir.iterdir()]: the names listed when the loop starts. *)
Definition iterdir : State World (list string) :=
  fun w => (match trees w with
            | Some m => (map_to_list m).*1
            | None => []
            end, w).

Definition cleanup_stale_worktrees (max_age_hours : Z)
  : State World (result Z) :=
  present <- trees_exists ;;
  if negb present then ret (Ok 0)
  else
    now <- (fun w => (time_time ext (trace w), w)) ;;
    let max_age_seconds := max_age_hours * 3600 in
    names <- iterdir ;;
    cleanup_loop now max_age_seconds names 0.

End Manager.

(* ------------------------------------------------------------------- *)
(* Reading the trace                                                   *)
(* ------------------------------------------------------------------- *)

Definition countb {A : Type} (f : A -> bool) (l : list A) : nat :=
  length (List.filter f l).

(** A [git worktree add] that exited with status 0. *)
Definition is_add_ok (e : Event) : bool :=
  match e with
  | ERun ("git" :: "worktree" :: "add" :: _) _ rc => rc =? 0
  | _ => false
  end.

Definition is_npm_install (e : Event) : bool :=
  match e with
  | ERun ("npm" :: "install" :: _) _ _ => true
  | _ => false
  end.

Definition is_copy (e : Event) : bool :=
  match e with ECopy _ _ => true | _ => false end.

Definition is_write (e : Event) : bool :=
  match e with EWrite _ _ => true | _ => false end.

(** A [git worktree remove <path> ...] call: the path and the exit
    status. *)
Definition removal_of (e : Event) : option (string * Z) :=
  match e with
  | ERun (c0 :: c1 :: c2 :: path :: _) _ rc =>
      if String.eqb c0 "git" && String.eqb c1 "worktree"
         && String.eqb c2 "remove"
      then Some (path, rc) else None
  | _ => None
  end.

(** The [git worktree remove] calls of a trace, in order. *)
Definition removals (t : list Event) : list (string * Z) :=
  omap removal_of t.

(** Number of removals that exited with status 0. *)
Definition removed_ok (t : list Event) : nat :=
  countb (fun r : string * Z => snd r =? 0) (removals t).

(** The test [worktree_path.exists()] of the code, on a world. *)
Definition present (adw_id : string) (w : World) : bool :=
  fst (worktree_exists adw_id w).

(** What [create_worktree] returns for a worktree that exists already. *)
Definition existing (ext : Ext) (adw_id : string)
  : result (string * PortAllocation) :=
  match allocate_ports adw_id with
  | Ok ports => Ok (get_worktree_path ext adw_id, ports)
  | Raise e => Raise e
  end.

(** The staleness test of [cleanup_stale_worktrees] on a directory
    listing: a directory whose age exceeds [max_age_hours]. *)
Definition is_stale (now : float) (max_age_hours : Z)
    (m : gmap string Entry) (name : string) : bool :=
  match m !! name with
  | Some e =>
      is_dir e
      && PyFloat.gt_int (now - st_mtime e)%float (max_age_hours * 3600)
  | None => false
  end.

(* ------------------------------------------------------------------- *)
(* The environment of a worktree                                       *)
(* ------------------------------------------------------------------- *)

(** [env.update(items)], item by item. *)
Definition dict_update (env : gmap string string)
    (items : list (string * string)) : gmap string string :=
  foldl (fun e kv => <[fst kv := snd kv]> e) env items.

(** [get_worktree_env]; [environ] is [os.environ] at the time of the
    call, which is copied, not changed. *)
Definition get_worktree_env (ext : Ext) (environ : gmap string string)
    (adw_id : string) : result (gmap string string) :=
  let worktree_path := get_worktree_path ext adw_id in
  match allocate_ports adw_id with
  | Raise e => Raise e
  | Ok ports =>
      let env := environ in
      let env := dict_update env (to_env_dict ports) in
      let env := <["ADW_ID" := adw_id]> env in
      let env := <["ADW_WORKTREE" := worktree_path]> env in
      Ok env
  end.

(* ------------------------------------------------------------------- *)
(* The list of worktrees                                               *)
(* ------------------------------------------------------------------- *)

(** A value of the dicts [list_worktrees] builds: a str or [True]. *)
Inductive Value : Type := VStr (s : string) | VTrue.

(** What [list_worktrees] can raise. *)
Inductive ListError : Type :=
  | Raised (e : Exn)   (* from [subprocess.run(..., check=True)] *)
  | IndexError         (* [line.split(" ", 1)[1]] out of range *)
  | AttributeError.    (* [.startswith] on a value that is no str *)

(** [line.split(" ", 1)[1]]. *)
Definition after_space (line : string) : ListError + string :=
  match PyStr.split_once " " line !! 1%nat with
  | Some v => inr v
  | None => inl IndexError
  end.

(** [bool(d)] for a dict. *)
Definition dict_truthy (d : gmap string Value) : bool := (0 <? size d)%nat.

(** One round of the [for line in ...] loop, on [(worktrees, current)]. *)
Definition parse_line
    (st : list (gmap string Value) * gmap string Value) (line : string)
  : ListError + (list (gmap string Value) * gmap string Value) :=
  let '(worktrees, current) := st in
  if String.prefix "worktree " line then
    let worktrees :=
      if dict_truthy current then (worktrees ++ [current])%list
      else worktrees in
    match after_space line with
    | inr v => inr (worktrees, {["path" := VStr v]})
    | inl e => inl e
    end
  else if String.prefix "HEAD " line then
    match after_space line with
    | inr v => inr (worktrees, <["head" := VStr v]> current)
    | inl e => inl e
    end
  else if String.prefix "branch " line then
    match after_space line with
    | inr v => inr (worktrees, <["branch" := VStr v]> current)
    | inl e => inl e
    end
  else if String.eqb line "detached" then
    inr (worktrees, <["detached" := VTrue]> current)
  else inr (worktrees, current).

Fixpoint parse_lines (lines : list string)
    (st : list (gmap string Value) * gmap string Value)
  : ListError + (list (gmap string Value) * gmap string Value) :=
  match lines with
  | [] => inr st
  | line :: rest =>
      match parse_line st line with
      | inr st' => parse_lines rest st'
      | inl e => inl e
      end
  end.

(** [w.get("path", "").startswith(trees_dir)]. *)
Definition under_trees (trees_dir : string) (w : gmap string Value)
  : ListError + bool :=
  match w !! "path" with
  | Some (VStr p) => inr (String.prefix trees_dir p)
  | Some VTrue => inl AttributeError
  | None => inr (String.prefix trees_dir "")
  end.

(** [[w for w in worktrees if w.get("path", "").startswith(trees_dir)]]. *)
Fixpoint adw_worktrees (trees_dir : string)
    (worktrees : list (gmap string Value))
  : ListError + list (gmap string Value) :=
  match worktrees with
  | [] => inr []
  | w :: rest =>
      match under_trees trees_dir w with
      | inl e => inl e
      | inr keep =>
          match adw_worktrees trees_dir rest with
          | inl e => inl e
          | inr kept => inr (if keep then w :: kept else kept)
          end
      end
  end.

(** What [list_worktrees] makes of the text git printed. *)
Definition parse_worktree_list (trees_dir stdout : string)
  : ListError + list (gmap string Value) :=
  match parse_lines (PyStr.split "010"%char (PyStr.strip stdout)) ([], ∅) with
  | inl e => inl e
  | inr (worktrees, current) =>
      let worktrees :=
        if dict_truthy current then (worktrees ++ [current])%list
        else worktrees in
      adw_worktrees trees_dir worktrees
  end.

(** [list_worktrees]; [git_stdout] is what
    [git worktree list --porcelain] prints, given what happened before. *)
Definition list_worktrees (ext : Ext) (git_stdout : list Event -> string)
  : State World (ListError + list (gmap string Value)) :=
  stdout <- (fun w => (git_stdout (trace w), w)) ;;
  r <- run_checked ext ["git"; "worktree"; "list"; "--porcelain"]
         (get_project_root ext) ;;
  match r with
  | Raise e => ret (inl (Raised e))
  | Ok _ => ret (parse_worktree_list (get_trees_dir ext) stdout)
  end.

(** The [path] entries of a list of dicts. *)
Definition paths (ws : list (gmap string Value)) : list (option Value) :=
  map (fun w : gmap string Value => w !! "path") ws.

(** The text after the 9 characters of ["worktree "]. *)
Definition worktree_line_path (line : string) : option string :=
  if String.prefix "worktree " line
  then Some (substring 9 (String.length line - 9) line)
  else None.

(** An allocation together with the identifier it was made for. *)
Definition allocations (ids : list string) : list (result PortAllocation) :=
  map allocate_ports ids.

(** The events of a run that touch the worktree or the project. *)
Definition is_run (e : Event) : bool :=
  match e with ERun _ _ _ => true | _ => false end.

(** A [git worktree remove] call. *)
Definition is_removal (e : Event) : bool :=
  bool_decide (is_Some (removal_of e)).

(** The path of a dict, when it has one that is a str. *)
Definition path_str (w : gmap string Value) : option string :=
  match w !! "path" with
  | Some (VStr p) => Some p
  | _ => None
  end.

(** The paths collected so far: those of the finished dicts and of the
    current one. *)
Definition seen (st : list (gmap string Value) * gmap string Value)
  : list string :=
  omap path_str (fst st ++ [snd st])%list.

Definition option_list {A : Type} (o : option A) : list A :=
  match o with Some a => [a] | None => [] end.

(** No dict of the loop holds [True] under ["path"]. *)
Definition path_is_str (w : gmap string Value) : Prop :=
  w !! "path" <> Some VTrue.

Definition is_log (e : Event) : bool :=
  match e with ELog _ _ => true | _ => false end.

(** What a run did besides logging, in order. *)
Definition effects (t : list Event) : list Event :=
  List.filter (fun e => negb (is_log e)) t.


End WorktreeOps.

(* ===================================================================== *)
(* adws/adw_test.py                                                      *)
(* ===================================================================== *)

Module AdwTest.

(** Request and response of the agent executor, as the code builds and
    reads them. *)
Record AgentTemplateRequest : Type := {
  agent_name : string;
  slash_command : string;
  args : list string;
  adw_id : string;
  model : string
}.

Record AgentPromptResponse : Type := {
  output : string;
  success : bool;
  session_id : option string
}.

(** Modelled from the spec: [data_types.TestResult] is not part of the
    sources.  One outcome per test case: a name, the pass/fail boolean and
    an optional failure detail that is passed on unchanged. *)
Record TestResult : Type := {
  test_name : string;
  passed : bool;
  error : option string
}.

(** [E2ETestResult], with the fields [run_e2e_tests] fills in. *)
Record E2ETestResult : Type := {
  e2e_test_name : string;
  status : string;
  test_path : string;
  screenshots : list string;
  e2e_error : option string
}.

(** Modelled from the spec: the [passed] property of
    [data_types.E2ETestResult] is not part of the sources.  The pass/fail
    boolean of an end-to-end outcome: its status is ["passed"]. *)
Definition e2e_passed (t : E2ETestResult) : bool :=
  String.eqb (status t) "passed".

(** The dict [parse_json(response.output, dict)] yields, read through
    [result_data.get(key)]. *)
Record E2EDict : Type := {
  d_test_name : option string;
  d_status : option string;
  d_test_path : option string;
  d_screenshots : option (list string);
  d_error : option string
}.

(** [subprocess.CompletedProcess] with captured text output. *)
Record CompletedProcess : Type := {
  returncode : Z;
  stdout : string;
  stderr : string
}.

Inductive Event : Type :=
  | ELog (lvl : Level) (msg : string)
  | EExec (req : AgentTemplateRequest) (resp : AgentPromptResponse)
  | EComment (issue_number : string) (body : string)
  | ERun (cmd : list string) (outcome : string + CompletedProcess)
  | EStateSave (workflow_step : string)
  | EStateToStdout.

(** The world is the trace of everything done so far. *)
Definition World : Type := list Event.

(** The collaborators.  What the agent answers, which spec files [glob]
    finds and how a subprocess ends may depend on everything that happened
    before; parsing and serialisation are pure.  A left value of
    [parse_json_tests], [parse_json_dict] or [subprocess_run] is the text
    of the exception raised; [e2e_validation_error] is the text of the
    error the [E2ETestResult] constructor raises on field values it
    rejects. *)
Record Ext : Type := {
  execute_template : World -> AgentTemplateRequest -> AgentPromptResponse;
  parse_json_tests : string -> string + list TestResult;
  parse_json_dict : string -> string + E2EDict;
  e2e_validation_error : E2ETestResult -> option string;
  glob_e2e_specs : World -> list string;
  subprocess_run : World -> list string -> string + CompletedProcess;
  request_dump_json : AgentTemplateRequest -> string;
  response_dump_json : AgentPromptResponse -> string;
  test_dump_json : TestResult -> string;
  test_json_dumps : TestResult -> string;
  e2e_dump_json : E2ETestResult -> string
}.

Definition AGENT_TESTER : string := "test_runner".
Definition AGENT_E2E_TESTER : string := "e2e_test_runner".
Definition MAX_TEST_RETRY_ATTEMPTS : nat := 4.
Definition MAX_E2E_TEST_RETRY_ATTEMPTS : nat := 2.

(** The newline character of the f-strings. *)
Definition nl : string := String (ascii_of_nat 10) "".

(** [needle in hay] on str. *)
Fixpoint contains (needle hay : string) : bool :=
  String.prefix needle hay
  || match hay with
     | String _ hay' => contains needle hay'
     | EmptyString => false
     end.

Definition format_issue_message (adw_id agent_name message : string)
    (session_id : option string) : string :=
  match session_id with
  | Some (String c sid') =>
      adw_id +:+ "_" +:+ agent_name +:+ "_" +:+ String c sid' +:+ ": "
      +:+ message
  | _ => adw_id +:+ "_" +:+ agent_name +:+ ": " +:+ message
  end.

(** Where a resolution loop is left. *)
Inductive Exit : Type :=
  | ExitError            (* the verifier call itself failed *)
  | ExitAllPassed        (* failed_count == 0 *)
  | ExitMaxAttempts      (* attempt == max_attempts *)
  | ExitNothingResolved  (* resolved == 0 *)
  | ExitNoResults        (* E2E tier: the verifier returned no results *)
  | ExitWhile.           (* the [while] condition became false *)

(** The states of the resolution loop the design names. *)
Inductive LoopState : Type := Running | Converged | Exhausted | Aborted.

Definition state_of_exit (e : Exit) : LoopState :=
  match e with
  | ExitError => Aborted
  | ExitAllPassed => Converged
  | ExitNoResults => Converged
  | ExitMaxAttempts => Exhausted
  | ExitNothingResolved => Exhausted
  | ExitWhile => Exhausted
  end.

(** What one round of a [while] body asks for. *)
Inductive Flow : Type := Continue | Break (e : Exit).

Section Workflow.

Context (ext : Ext).

Definition emit (e : Event) : State World unit :=
  fun w => (tt, (w ++ [e])%list).

Definition log (lvl : Level) (msg : string) : State World unit :=
  emit (ELog lvl msg).

Definition make_issue_comment (issue_number body : string)
  : State World unit :=
  emit (EComment issue_number body).

Definition exec (req : AgentTemplateRequest)
  : State World AgentPromptResponse :=
  fun w => let resp := execute_template ext w req in
           (resp, (w ++ [EExec req resp])%list).

Definition run_tests (adw_id : string) : State World AgentPromptResponse :=
  let test_template_request :=
    {| agent_name := AGENT_TESTER; slash_command := "/test"; args := [];
       adw_id := adw_id; model := "sonnet" |} in
  log DEBUG ("test_template_request: "
             +:+ request_dump_json ext test_template_request) ;;
  test_response <- exec test_template_request ;;
  log DEBUG ("test_response: " +:+ response_dump_json ext test_response) ;;
  ret test_response.

Definition parse_test_results (output : string)
  : State World (list TestResult * nat * nat) :=
  match parse_json_tests ext output with
  | inr results =>
      let passed_count := length (List.filter passed results) in
      let failed_count := (length results - passed_count)%nat in
      ret (results, passed_count, failed_count)
  | inl e =>
      log ERROR ("Error parsing test results: " +:+ e) ;;
      ret ([], 0%nat, 0%nat)
  end.

(** The block of one test in [format_test_results_comment]. *)
Definition test_block (test : TestResult) : list string :=
  [ "### " +:+ test_name test; ""; "```json";
    test_json_dumps ext test; "```"; "" ].

Definition pop_trailing_empty (parts : list string) : list string :=
  match last parts with
  | Some "" => removelast parts
  | _ => parts
  end.

Definition format_test_results_comment (results : list TestResult)
    (passed_count failed_count : nat) : string :=
  match results with
  | [] => "No test results found"
  | _ =>
      let failed_tests := List.filter (fun t => negb (passed t)) results in
      let passed_tests := List.filter passed results in
      let part1 :=
        match failed_tests with
        | [] => []
        | _ => ([""; "## Failed Tests"; ""]
                ++ concat (map test_block failed_tests))%list
        end in
      let part2 :=
        match passed_tests with
        | [] => []
        | _ => (["## Passed Tests"; ""]
                ++ concat (map test_block passed_tests))%list
        end in
      String.concat nl (pop_trailing_empty (part1 ++ part2)%list)
  end.

(** The [for idx, test in enumerate(failed_tests)] loop of
    [resolve_failed_tests]; [total] is [len(failed_tests)]. *)
Fixpoint resolve_loop (failed_tests : list TestResult) (idx total : nat)
    (adw_id issue_number : string) (iteration : nat)
    (resolved_count unresolved_count : nat) : State World (nat * nat) :=
  match failed_tests with
  | [] => ret (resolved_count, unresolved_count)
  | test :: rest =>
      log INFO (nl +:+ "=== Resolving failed test " +:+ str_nat (idx + 1)
                +:+ "/" +:+ str_nat total +:+ ": " +:+ test_name test
                +:+ " ===") ;;
      let test_payload := test_dump_json ext test in
      let agent_name :=
        "test_resolver_iter" +:+ str_nat iteration +:+ "_" +:+ str_nat idx in
      let resolve_request :=
        {| agent_name := agent_name;
           slash_command := "/resolve_failed_test";
           args := [test_payload]; adw_id := adw_id; model := "sonnet" |} in
      make_issue_comment issue_number
        (format_issue_message adw_id agent_name
           ("Attempting to resolve: " +:+ test_name test +:+ nl
            +:+ "```json" +:+ nl +:+ test_payload +:+ nl +:+ "```") None) ;;
      response <- exec resolve_request ;;
      if success response then
        make_issue_comment issue_number
          (format_issue_message adw_id agent_name
             ("Successfully resolved: " +:+ test_name test) None) ;;
        log INFO ("Successfully resolved: " +:+ test_name test) ;;
        resolve_loop rest (S idx) total adw_id issue_number iteration
          (resolved_count + 1) unresolved_count
      else
        make_issue_comment issue_number
          (format_issue_message adw_id agent_name
             ("Failed to resolve: " +:+ test_name test) None) ;;
        log ERROR ("Failed to resolve: " +:+ test_name test) ;;
        resolve_loop rest (S idx) total adw_id issue_number iteration
          resolved_count (unresolved_count + 1)
  end.

Definition resolve_failed_tests (failed_tests : list TestResult)
    (adw_id issue_number : string) (iteration : nat)
  : State World (nat * nat) :=
  resolve_loop failed_tests 0 (length failed_tests) adw_id issue_number
    iteration 0 0.

(** The local variables of [run_tests_with_resolution]. *)
Record Vars : Type := {
  attempt : nat;
  results : list TestResult;
  passed_count : nat;
  failed_count : nat;
  test_response : option AgentPromptResponse
}.

(** One round of the [while attempt < max_attempts] body. *)
Definition loop_body (adw_id issue_number : string) (max_attempts : nat)
    (v : Vars) : State World (Flow * Vars) :=
  let attempt := (attempt v + 1)%nat in
  log INFO (nl +:+ "=== Test Run Attempt " +:+ str_nat attempt +:+ "/"
            +:+ str_nat max_attempts +:+ " ===") ;;
  test_response <- run_tests adw_id ;;
  if negb (success test_response) then
    log ERROR ("Error running tests: " +:+ output test_response) ;;
    make_issue_comment issue_number
      (format_issue_message adw_id AGENT_TESTER
         ("Error running tests: " +:+ output test_response) None) ;;
    ret (Break ExitError,
         {| attempt := attempt; results := results v;
            passed_count := passed_count v; failed_count := failed_count v;
            test_response := Some test_response |})
  else
    parsed <- parse_test_results (output test_response) ;;
    let '(results, passed_count, failed_count) := parsed in
    let v' := {| attempt := attempt; results := results;
                 passed_count := passed_count; failed_count := failed_count;
                 test_response := Some test_response |} in
    if (failed_count =? 0)%nat then
      log INFO "All tests passed, stopping retry attempts" ;;
      ret (Break ExitAllPassed, v')
    else if (attempt =? max_attempts)%nat then
      log INFO ("Reached maximum retry attempts (" +:+ str_nat max_attempts
                +:+ "), stopping") ;;
      ret (Break ExitMaxAttempts, v')
    else
      log INFO (nl +:+ "=== Attempting to resolve failed tests ===") ;;
      make_issue_comment issue_number
        (format_issue_message adw_id "ops"
           ("Found " +:+ str_nat failed_count
            +:+ " failed tests. Attempting resolution...") None) ;;
      let failed_tests := List.filter (fun t => negb (passed t)) results in
      counts <- resolve_failed_tests failed_tests adw_id issue_number
                  attempt ;;
      let '(resolved, unresolved) := counts in
      if (0 <? resolved)%nat then
        make_issue_comment issue_number
          (format_issue_message adw_id "ops"
             ("Resolved " +:+ str_nat resolved +:+ "/"
              +:+ str_nat failed_count +:+ " failed tests") None) ;;
        log INFO (nl +:+ "=== Re-running tests after resolving "
                  +:+ str_nat resolved +:+ " tests ===") ;;
        make_issue_comment issue_number
          (format_issue_message adw_id AGENT_TESTER
             ("Re-running tests (attempt " +:+ str_nat (attempt + 1)
              +:+ "/" +:+ str_nat max_attempts +:+ ")...") None) ;;
        ret (Continue, v')
      else
        log INFO "No tests were resolved, stopping retry attempts" ;;
        ret (Break ExitNothingResolved, v').

(** The [while] loop.  [fuel] bounds the number of rounds; the loop is
    started with [max_attempts - attempt] of it, which the guard never
    lets it use up (see [while_loop_fuel]). *)
Fixpoint while_loop (fuel : nat) (adw_id issue_number : string)
    (max_attempts : nat) (v : Vars) : State World (Exit * Vars) :=
  match fuel with
  | O => ret (ExitWhile, v)
  | S fuel' =>
      if (attempt v <? max_attempts)%nat then
        r <- loop_body adw_id issue_number max_attempts v ;;
        match r with
        | (Break e, v') => ret (e, v')
        | (Continue, v') =>
            while_loop fuel' adw_id issue_number max_attempts v'
        end
      else ret (ExitWhile, v)
  end.

(** [run_tests_with_resolution], returning also where the loop was
    left. *)
Definition run_tests_with_resolution_exit (adw_id issue_number : string)
    (max_attempts : nat) : State World (Exit * Vars) :=
  let v0 := {| attempt := 0; results := []; passed_count := 0;
               failed_count := 0; test_response := None |} in
  r <- while_loop max_attempts adw_id issue_number max_attempts v0 ;;
  let v := snd r in
  (if (attempt v =? max_attempts)%nat && (0 <? failed_count v)%nat then
     log WARNING ("Reached maximum retry attempts ("
                  +:+ str_nat max_attempts +:+ ") with "
                  +:+ str_nat (failed_count v) +:+ " failures remaining") ;;
     make_issue_comment issue_number
       (format_issue_message adw_id "ops"
          ("Reached maximum retry attempts (" +:+ str_nat max_attempts
           +:+ ") with " +:+ str_nat (failed_count v) +:+ " failures")
          None)
   else ret tt) ;;
  ret r.

Definition run_tests_with_resolution (adw_id issue_number : string)
    (max_attempts : nat)
  : State World (list TestResult * nat * nat * option AgentPromptResponse) :=
  r <- run_tests_with_resolution_exit adw_id issue_number max_attempts ;;
  let v := snd r in
  ret (results v, passed_count v, failed_count v, test_response v).

(* ----------------------------------------------------------------- *)
(* End-to-end tier                                                   *)
(* ----------------------------------------------------------------- *)

(** The single failing outcome [run_e2e_tests] builds itself. *)
Definition e2e_suite_failed (err : string) : E2ETestResult :=
  {| e2e_test_name := "e2e_suite"; status := "failed"; test_path := "e2e/";
     screenshots := []; e2e_error := Some err |}.

Definition run_e2e_tests (adw_id issue_number : string)
  : State World (list E2ETestResult) :=
  e2e_test_files <- (fun w => (glob_e2e_specs ext w, w)) ;;
  log INFO ("Found " +:+ str_nat (length e2e_test_files)
            +:+ " E2E test files") ;;
  match e2e_test_files with
  | [] =>
      log WARNING "No E2E test files found in e2e/" ;;
      ret []
  | _ =>
      let test_template_request :=
        {| agent_name := AGENT_E2E_TESTER; slash_command := "/e2e_test";
           args := []; adw_id := adw_id; model := "sonnet" |} in
      response <- exec test_template_request ;;
      if negb (success response) then
        log ERROR ("Error running E2E tests: " +:+ output response) ;;
        ret [e2e_suite_failed
               ("Test execution error: " +:+ output response)]
      else
        let raised (e : string) : State World (list E2ETestResult) :=
          log ERROR ("Error parsing E2E test results: " +:+ e) ;;
          ret [e2e_suite_failed ("Result parsing error: " +:+ e)] in
        match parse_json_dict ext (output response) with
        | inr result_data =>
            let e2e_result :=
              {| e2e_test_name := default "e2e_suite" (d_test_name result_data);
                 status := default "failed" (d_status result_data);
                 test_path := default "e2e/" (d_test_path result_data);
                 screenshots := default [] (d_screenshots result_data);
                 e2e_error := d_error result_data |} in
            match e2e_validation_error ext e2e_result with
            | None => ret [e2e_result]
            | Some e => raised e
            end
        | inl e => raised e
        end
  end.

Fixpoint resolve_e2e_loop (failed_tests : list E2ETestResult)
    (idx total : nat) (adw_id issue_number : string) (iteration : nat)
    (resolved_count unresolved_count : nat) : State World (nat * nat) :=
  match failed_tests with
  | [] => ret (resolved_count, unresolved_count)
  | test :: rest =>
      log INFO (nl +:+ "=== Resolving failed E2E test " +:+ str_nat (idx + 1)
                +:+ "/" +:+ str_nat total +:+ ": " +:+ e2e_test_name test
                +:+ " ===") ;;
      let test_payload := e2e_dump_json ext test in
      let agent_name :=
        "e2e_test_resolver_iter" +:+ str_nat iteration +:+ "_"
        +:+ str_nat idx in
      let resolve_request :=
        {| agent_name := agent_name;
           slash_command := "/resolve_failed_e2e_test";
           args := [test_payload]; adw_id := adw_id; model := "sonnet" |} in
      make_issue_comment issue_number
        (format_issue_message adw_id agent_name
           ("Attempting to resolve E2E test: " +:+ e2e_test_name test +:+ nl
            +:+ "```json" +:+ nl +:+ test_payload +:+ nl +:+ "```") None) ;;
      response <- exec resolve_request ;;
      if success response then
        make_issue_comment issue_number
          (format_issue_message adw_id agent_name
             ("Successfully resolved E2E test: " +:+ e2e_test_name test)
             None) ;;
        log INFO ("Successfully resolved E2E test: " +:+ e2e_test_name test) ;;
        resolve_e2e_loop rest (S idx) total adw_id issue_number iteration
          (resolved_count + 1) unresolved_count
      else
        make_issue_comment issue_number
          (format_issue_message adw_id agent_name
             ("Failed to resolve E2E test: " +:+ e2e_test_name test) None) ;;
        log ERROR ("Failed to resolve E2E test: " +:+ e2e_test_name test) ;;
        resolve_e2e_loop rest (S idx) total adw_id issue_number iteration
          resolved_count (unresolved_count + 1)
  end.

Definition resolve_failed_e2e_tests (failed_tests : list E2ETestResult)
    (adw_id issue_number : string) (iteration : nat)
  : State World (nat * nat) :=
  resolve_e2e_loop failed_tests 0 (length failed_tests) adw_id
    issue_number iteration 0 0.

(** The local variables of [run_e2e_tests_with_resolution]. *)
Record E2EVars : Type := {
  e2e_attempt : nat;
  e2e_results : list E2ETestResult;
  e2e_passed_count : nat;
  e2e_failed_count : nat
}.

Definition e2e_loop_body (adw_id issue_number : string)
    (max_attempts : nat) (v : E2EVars) : State World (Flow * E2EVars) :=
  let attempt := (e2e_attempt v + 1)%nat in
  log INFO (nl +:+ "=== E2E Test Run Attempt " +:+ str_nat attempt +:+ "/"
            +:+ str_nat max_attempts +:+ " ===") ;;
  results <- run_e2e_tests adw_id issue_number ;;
  match results with
  | [] =>
      log WARNING "No E2E test results to process" ;;
      ret (Break ExitNoResults,
           {| e2e_attempt := attempt; e2e_results := results;
              e2e_passed_count := e2e_passed_count v;
              e2e_failed_count := e2e_failed_count v |})
  | _ =>
      let passed_count := length (List.filter e2e_passed results) in
      let failed_count := (length results - passed_count)%nat in
      let v' := {| e2e_attempt := attempt; e2e_results := results;
                   e2e_passed_count := passed_count;
                   e2e_failed_count := failed_count |} in
      if (failed_count =? 0)%nat then
        log INFO "All E2E tests passed, stopping retry attempts" ;;
        ret (Break ExitAllPassed, v')
      else if (attempt =? max_attempts)%nat then
        log INFO ("Reached maximum E2E retry attempts ("
                  +:+ str_nat max_attempts +:+ "), stopping") ;;
        ret (Break ExitMaxAttempts, v')
      else
        log INFO (nl +:+ "=== Attempting to resolve failed E2E tests ===") ;;
        make_issue_comment issue_number
          (format_issue_message adw_id "ops"
             ("Found " +:+ str_nat failed_count
              +:+ " failed E2E tests. Attempting resolution...") None) ;;
        let failed_tests :=
          List.filter (fun t => negb (e2e_passed t)) results in
        counts <- resolve_failed_e2e_tests failed_tests adw_id
                    issue_number attempt ;;
        let '(resolved, unresolved) := counts in
        if (0 <? resolved)%nat then
          make_issue_comment issue_number
            (format_issue_message adw_id "ops"
               ("Resolved " +:+ str_nat resolved +:+ "/"
                +:+ str_nat failed_count +:+ " failed E2E tests") None) ;;
          log INFO (nl +:+ "=== Re-running E2E tests after resolving "
                    +:+ str_nat resolved +:+ " tests ===") ;;
          make_issue_comment issue_number
            (format_issue_message adw_id AGENT_E2E_TESTER
               ("Re-running E2E tests (attempt " +:+ str_nat (attempt + 1)
                +:+ "/" +:+ str_nat max_attempts +:+ ")...") None) ;;
          ret (Continue, v')
        else
          log INFO "No E2E tests were resolved, stopping retry attempts" ;;
          ret (Break ExitNothingResolved, v')
  end.

Fixpoint e2e_while_loop (fuel : nat) (adw_id issue_number : string)
    (max_attempts : nat) (v : E2EVars) : State World (Exit * E2EVars) :=
  match fuel with
  | O => ret (ExitWhile, v)
  | S fuel' =>
      if (e2e_attempt v <? max_attempts)%nat then
        r <- e2e_loop_body adw_id issue_number max_attempts v ;;
        match r with
        | (Break e, v') => ret (e, v')
        | (Continue, v') =>
            e2e_while_loop fuel' adw_id issue_number max_attempts v'
        end
      else ret (ExitWhile, v)
  end.

Definition run_e2e_tests_with_resolution_exit
    (adw_id issue_number : string) (max_attempts : nat)
  : State World (Exit * E2EVars) :=
  let v0 := {| e2e_attempt := 0; e2e_results := [];
               e2e_passed_count := 0; e2e_failed_count := 0 |} in
  r <- e2e_while_loop max_attempts adw_id issue_number max_attempts v0 ;;
  let v := snd r in
  (if (e2e_attempt v =? max_attempts)%nat
      && (0 <? e2e_failed_count v)%nat then
     log WARNING ("Reached maximum E2E retry attempts ("
                  +:+ str_nat max_attempts +:+ ") with "
                  +:+ str_nat (e2e_failed_count v)
                  +:+ " failures remaining") ;;
     make_issue_comment issue_number
       (format_issue_message adw_id "ops"
          ("Reached maximum E2E retry attempts (" +:+ str_nat max_attempts
           +:+ ") with " +:+ str_nat (e2e_failed_count v) +:+ " failures")
          None)
   else ret tt) ;;
  ret r.

Definition run_e2e_tests_with_resolution (adw_id issue_number : string)
    (max_attempts : nat) : State World (list E2ETestResult * nat * nat) :=
  r <- run_e2e_tests_with_resolution_exit adw_id issue_number max_attempts ;;
  let v := snd r in
  ret (e2e_results v, e2e_passed_count v, e2e_failed_count v).

(* ----------------------------------------------------------------- *)
(* Commit, push and the driver                                       *)
(* ----------------------------------------------------------------- *)

Definition run (cmd : list string)
  : State World (string + CompletedProcess) :=
  fun w => let r := subprocess_run ext w cmd in
           (r, (w ++ [ERun cmd r])%list).

Definition git_commit (message : string) : State World (bool * string) :=
  r <- run ["git"; "add"; "-A"] ;;
  match r with
  | inl e => ret (false, e)
  | inr result =>
      if negb (returncode result =? 0) then
        ret (false, "git add failed: " +:+ stderr result)
      else
        r <- run ["git"; "commit"; "-m"; message] ;;
        match r with
        | inl e => ret (false, e)
        | inr result =>
            if negb (returncode result =? 0) then
              if contains "nothing to commit" (stdout result)
                 || contains "nothing to commit" (stderr result)
              then ret (true, "Nothing to commit")
              else ret (false, "git commit failed: " +:+ stderr result)
            else ret (true, "Commit created successfully")
        end
  end.

Definition git_push (branch_name : string) : State World (bool * string) :=
  r <- run ["git"; "push"; "-u"; "origin"; branch_name] ;;
  match r with
  | inl e => ret (false, e)
  | inr result =>
      if negb (returncode result =? 0) then
        ret (false, "git push failed: " +:+ stderr result)
      else ret (true, "Push successful")
  end.

(** [main] is embedded from the first comment on the issue to the exit
    code, in four blocks.  The set-up before them (arguments, environment,
    state, branch) makes no agent call and either exits with code 1 or
    hands over [issue_number], [adw_id], [skip_e2e] and [branch_name]. *)

(** The announcements before the unit tests are run. *)
Definition main_announce (issue_number adw_id : string) : State World unit :=
  make_issue_comment issue_number
    (format_issue_message adw_id "ops" "Starting test suite" None) ;;
  log INFO (nl +:+ "=== Running test suite ===") ;;
  make_issue_comment issue_number
    (format_issue_message adw_id AGENT_TESTER
       "Running application tests..." None).

(** The report on the unit tests. *)
Definition main_report (issue_number adw_id : string)
    (results : list TestResult) (passed_count failed_count : nat)
  : State World unit :=
  let results_comment :=
    format_test_results_comment results passed_count failed_count in
  make_issue_comment issue_number
    (format_issue_message adw_id AGENT_TESTER
       ("Final test results:" +:+ nl +:+ results_comment) None) ;;
  log INFO ("Final test results: " +:+ str_nat passed_count +:+ " passed, "
            +:+ str_nat failed_count +:+ " failed").

(** The [if failed_count > 0: ... elif skip_e2e: ... else: ...] block:
    [(e2e_results, e2e_passed_count, e2e_failed_count)] after it. *)
Definition main_e2e (issue_number adw_id : string) (skip_e2e : bool)
    (failed_count : nat) : State World (list E2ETestResult * nat * nat) :=
  if (0 <? failed_count)%nat then
    log WARNING "Skipping E2E tests due to unit test failures" ;;
    make_issue_comment issue_number
      (format_issue_message adw_id "ops"
         "Skipping E2E tests due to unit test failures" None) ;;
    ret ([], 0%nat, 0%nat)
  else if skip_e2e then
    log INFO "Skipping E2E tests as requested" ;;
    make_issue_comment issue_number
      (format_issue_message adw_id "ops"
         "Skipping E2E tests as requested via --skip-e2e flag" None) ;;
    ret ([], 0%nat, 0%nat)
  else
    log INFO (nl +:+ "=== Running E2E test suite ===") ;;
    make_issue_comment issue_number
      (format_issue_message adw_id AGENT_E2E_TESTER
         "Starting E2E tests..." None) ;;
    e2e <- run_e2e_tests_with_resolution adw_id issue_number
             MAX_E2E_TEST_RETRY_ATTEMPTS ;;
    let '(e2e_results, e2e_passed_count, e2e_failed_count) := e2e in
    (match e2e_results with
     | [] => ret tt
     | _ =>
         log INFO ("Final E2E test results: "
                   +:+ str_nat e2e_passed_count +:+ " passed, "
                   +:+ str_nat e2e_failed_count +:+ " failed")
     end) ;;
    ret e2e.

(** Commit, push, state and the exit code of the process. *)
Definition main_finish (issue_number adw_id branch_name : string)
    (passed_count failed_count : nat)
    (e2e : list E2ETestResult * nat * nat) : State World Z :=
  let '(e2e_results, e2e_passed_count, e2e_failed_count) := e2e in
  log INFO (nl +:+ "=== Committing test results ===") ;;
  let commit_msg :=
    "adw_test: test results for issue #" +:+ issue_number +:+ nl +:+ nl
    +:+ "Unit tests: " +:+ str_nat passed_count +:+ " passed, "
    +:+ str_nat failed_count +:+ " failed"
    +:+ match e2e_results with
        | [] => ""
        | _ => nl +:+ "E2E tests: " +:+ str_nat e2e_passed_count
               +:+ " passed, " +:+ str_nat e2e_failed_count +:+ " failed"
        end in
  c <- git_commit commit_msg ;;
  (if fst c then log INFO ("Commit: " +:+ snd c)
   else log WARNING ("Commit warning: " +:+ snd c)) ;;
  p <- git_push branch_name ;;
  (if fst p then
     log INFO ("Push: " +:+ snd p) ;;
     make_issue_comment issue_number
       (format_issue_message adw_id "ops"
          ("Pushed changes to branch " +:+ branch_name) None)
   else log ERROR ("Push failed: " +:+ snd p)) ;;
  emit (EStateSave "adw_test") ;;
  emit EStateToStdout ;;
  let total_failures := (failed_count + e2e_failed_count)%nat in
  if (0 <? total_failures)%nat then
    log INFO ("Test suite completed with failures for issue #"
              +:+ issue_number) ;;
    let failure_msg :=
      "Test suite completed with failures:" +:+ nl
      +:+ (if (0 <? failed_count)%nat then
             "- Unit tests: " +:+ str_nat failed_count +:+ " failures" +:+ nl
           else "")
      +:+ (if (0 <? e2e_failed_count)%nat then
             "- E2E tests: " +:+ str_nat e2e_failed_count +:+ " failures"
           else "") in
    make_issue_comment issue_number
      (format_issue_message adw_id "ops" failure_msg None) ;;
    ret 1
  else
    log INFO ("Test suite completed successfully for issue #"
              +:+ issue_number) ;;
    let success_msg :=
      "All tests passed successfully!" +:+ nl
      +:+ "- Unit tests: " +:+ str_nat passed_count +:+ " passed" +:+ nl
      +:+ match e2e_results with
          | [] => ""
          | _ => "- E2E tests: " +:+ str_nat e2e_passed_count +:+ " passed"
          end in
    make_issue_comment issue_number
      (format_issue_message adw_id "ops" success_msg None) ;;
    ret 0.

(** The result is the exit code of the process. *)
Definition main (issue_number adw_id branch_name : string)
    (skip_e2e : bool) : State World Z :=
  main_announce issue_number adw_id ;;
  r <- run_tests_with_resolution adw_id issue_number
         MAX_TEST_RETRY_ATTEMPTS ;;
  let '(results, passed_count, failed_count, test_response) := r in
  main_report issue_number adw_id results passed_count failed_count ;;
  e2e <- main_e2e issue_number adw_id skip_e2e failed_count ;;
  main_finish issue_number adw_id branch_name passed_count failed_count e2e.

End Workflow.

(* ------------------------------------------------------------------- *)
(* Reading the trace                                                   *)
(* ------------------------------------------------------------------- *)

(** The slash command of an agent call, [None] for any other event. *)
Definition command_of (e : Event) : option string :=
  match e with
  | EExec req _ => Some (slash_command req)
  | _ => None
  end.

Definition is_call (cmd : string) (e : Event) : bool :=
  match command_of e with
  | Some c => String.eqb c cmd
  | None => false
  end.

(** Number of agent calls with slash command [cmd] in a trace. *)
Definition calls (cmd : string) (t : list Event) : nat :=
  length (List.filter (is_call cmd) t).

Definition verifier_calls : list Event -> nat := calls "/test".
Definition remediator_calls : list Event -> nat :=
  calls "/resolve_failed_test".
Definition e2e_verifier_calls : list Event -> nat := calls "/e2e_test".
Definition e2e_remediator_calls : list Event -> nat :=
  calls "/resolve_failed_e2e_test".

(** The events a run added to the trace it started from. *)
Definition new_events (w w' : World) : list Event := drop (length w) w'.

(** The answer to the first agent call with slash command [cmd]. *)
Fixpoint first_call (cmd : string) (t : list Event)
  : option AgentPromptResponse :=
  match t with
  | EExec req resp :: t' =>
      if String.eqb (slash_command req) cmd then Some resp
      else first_call cmd t'
  | _ :: t' => first_call cmd t'
  | [] => None
  end.

(** Number of calls of the primary remediator that reported success. *)
Definition resolved_in (t : list Event) : nat :=
  length (List.filter
            (fun e => match e with
                      | EExec req resp =>
                          String.eqb (slash_command req) "/resolve_failed_test"
                          && success resp
                      | _ => false
                      end) t).

(** The failed count [parse_test_results] derives from a verifier output. *)
Definition failed_count_of (ext : Ext) (output : string) : nat :=
  match parse_json_tests ext output with
  | inr results => (length results - length (List.filter passed results))%nat
  | inl _ => 0%nat
  end.

(** The failed count in what [run_tests_with_resolution] returns. *)
Definition returned_failed_count
    (r : list TestResult * nat * nat * option AgentPromptResponse) : nat :=
  let '(_, _, failed_count, _) := r in failed_count.

(** The events a computation adds all satisfy [P], from any world. *)
Definition adds {A : Type} (P : Event -> bool) (m : State World A) : Prop :=
  forall w, exists t, snd (m w) = (w ++ t)%list /\ forallb P t = true.

(** Not a call of the end-to-end verifier or remediator. *)
Definition not_e2e_call (e : Event) : bool :=
  negb (is_call "/e2e_test" e) && negb (is_call "/resolve_failed_e2e_test" e).

(** The request the primary verifier is called with. *)
Definition test_request (adw_id : string) : AgentTemplateRequest :=
  {| agent_name := AGENT_TESTER; slash_command := "/test"; args := [];
     adw_id := adw_id; model := "sonnet" |}.


(* ------------------------------------------------------------------- *)
(* The command line and the environment check                          *)
(* ------------------------------------------------------------------- *)

(** What the start of the program writes, and where. *)
Inductive CliEvent : Type :=
  | Print (line : string)       (* print(line) *)
  | PrintErr (line : string)    (* print(line, file=sys.stderr) *)
  | LogError (msg : string).    (* logger.error(msg) *)

Inductive CliError : Type :=
  | RemoveValueError   (* list.remove(x): x not in list *)
  | ArgvIndexError.    (* sys.argv[i] out of range *)

(** How a function of the start of the program ends. *)
Inductive Outcome (A : Type) : Type :=
  | Returned (a : A)
  | SysExit (code : Z)
  | Failed (e : CliError).
Arguments Returned {A} a.
Arguments SysExit {A} code.
Arguments Failed {A} e.

(** [x in l] on a list of str. *)
Definition list_in (x : string) (l : list string) : bool :=
  existsb (String.eqb x) l.

(** [l.remove(x)]: the list without its first item equal to [x], [None]
    for the ValueError when there is none. *)
Fixpoint list_remove (x : string) (l : list string) : option (list string) :=
  match l with
  | [] => None
  | y :: l' =>
      if String.eqb y x then Some l' else cons y <$> list_remove x l'
  end.

Definition usage : list CliEvent :=
  [ Print "Usage: python adw_test.py <issue-number> [adw-id] [--skip-e2e]";
    Print "Examples:";
    Print "  python adw_test.py 123";
    Print "  python adw_test.py 123 abc12345";
    Print "  python adw_test.py 123 --skip-e2e" ].

(** [parse_args] on [sys.argv]: the [sys.argv] it leaves behind, what it
    prints, and [(issue_number, adw_id, skip_e2e)] or the exit. *)
Definition parse_args (argv : list string)
  : list string * list CliEvent * Outcome (string * option string * bool) :=
  let flagged :=
    if list_in "--skip-e2e" argv then
      match list_remove "--skip-e2e" argv with
      | Some argv' => inr (true, argv')
      | None => inl RemoveValueError
      end
    else inr (false, argv) in
  match flagged with
  | inl e => (argv, [], Failed e)
  | inr (skip_e2e, argv) =>
      if (length argv <? 2)%nat then (argv, usage, SysExit 1)
      else
        match argv !! 1%nat with
        | None => (argv, [], Failed ArgvIndexError)
        | Some issue_number =>
            if (2 <? length argv)%nat then
              match argv !! 2%nat with
              | None => (argv, [], Failed ArgvIndexError)
              | Some adw_id =>
                  (argv, [], Returned (issue_number, Some adw_id, skip_e2e))
              end
            else (argv, [], Returned (issue_number, None, skip_e2e))
        end
  end.

Definition required_vars : list string :=
  ["ANTHROPIC_API_KEY"; "CLAUDE_CODE_PATH"].

(** [not os.getenv(var)]: unset, or set to the empty string. *)
Definition getenv_falsy (environ : gmap string string) (var : string)
  : bool :=
  match environ !! var with
  | Some (String _ _) => false
  | _ => true
  end.

(** [check_env_vars]; [logger] tells whether a logger was passed. *)
Definition check_env_vars (environ : gmap string string) (logger : bool)
  : list CliEvent * Outcome unit :=
  let missing_vars := List.filter (getenv_falsy environ) required_vars in
  match missing_vars with
  | [] => ([], Returned tt)
  | _ =>
      let error_msg := "Error: Missing required environment variables:" in
      let say := if logger then LogError else PrintErr in
      (say error_msg :: map (fun var => say ("  - " +:+ var)) missing_vars,
       SysExit 1)
  end.

(* ------------------------------------------------------------------- *)
(* More readers of the trace                                           *)
(* ------------------------------------------------------------------- *)

(** The requests of the agent calls of a trace, in order. *)
Definition requests (t : list Event) : list AgentTemplateRequest :=
  omap (fun e => match e with EExec req _ => Some req | _ => None end) t.

(** The answers to the agent calls of a trace, in order. *)
Definition responses (t : list Event) : list AgentPromptResponse :=
  omap (fun e => match e with EExec _ resp => Some resp | _ => None end) t.

(** The comments posted, in order: issue and body. *)
Definition comments (t : list Event) : list (string * string) :=
  omap (fun e => match e with
                 | EComment issue body => Some (issue, body)
                 | _ => None
                 end) t.

(** The subprocesses started, in order, by command line. *)
Definition commands (t : list Event) : list (list string) :=
  omap (fun e => match e with ERun cmd _ => Some cmd | _ => None end) t.

(** The request [resolve_failed_tests] makes for the test at [idx]. *)
Definition resolve_request (ext : Ext) (adw_id : string) (iteration : nat)
    (idx : nat) (test : TestResult) : AgentTemplateRequest :=
  {| agent_name := "test_resolver_iter" +:+ str_nat iteration +:+ "_"
                   +:+ str_nat idx;
     slash_command := "/resolve_failed_test";
     args := [test_dump_json ext test];
     adw_id := adw_id; model := "sonnet" |}.

(** An event of a run for [adw_id] on [issue_number] is marked as such:
    an agent call carries the identifier and asks for the model
    ["sonnet"]; a comment goes to the issue and starts with the
    identifier. *)
Definition marked (adw_id issue_number : string) (e : Event) : bool :=
  match e with
  | EExec req _ =>
      String.eqb (AdwTest.adw_id req) adw_id && String.eqb (model req) "sonnet"
  | EComment issue body =>
      String.eqb issue issue_number && String.prefix (adw_id +:+ "_") body
  | _ => true
  end.

(** The counters agree with the outcomes they were derived from. *)
Definition counts_agree (v : Vars) : Prop :=
  passed_count v = length (List.filter passed (results v)) /\
  (passed_count v + failed_count v)%nat = length (results v).

Definition e2e_counts_agree (v : E2EVars) : Prop :=
  e2e_passed_count v = length (List.filter e2e_passed (e2e_results v)) /\
  (e2e_passed_count v + e2e_failed_count v)%nat = length (e2e_results v).

(** The state a round may start from: before the first attempt nothing
    has failed; a later attempt is made only after failures. *)
Definition may_start (v : Vars) : Prop :=
  if (attempt v =? 0)%nat then failed_count v = 0%nat
  else (0 < failed_count v)%nat.

(** Not a call of the end-to-end verifier. *)
Definition not_e2e_verifier (e : Event) : bool :=
  negb (is_call "/e2e_test" e).

(** The state a round of the end-to-end loop may start from. *)
Definition e2e_may_start (v : E2EVars) : Prop :=
  (if (e2e_attempt v =? 0)%nat then e2e_failed_count v = 0%nat
   else (0 < e2e_failed_count v)%nat)
  /\ (e2e_failed_count v <= 1)%nat.

(** The outcome [run_e2e_tests] builds from the dict it parsed. *)
Definition e2e_result_of (result_data : E2EDict) : E2ETestResult :=
  {| e2e_test_name := default "e2e_suite" (d_test_name result_data);
     status := default "failed" (d_status result_data);
     test_path := default "e2e/" (d_test_path result_data);
     screenshots := default [] (d_screenshots result_data);
     e2e_error := d_error result_data |}.

(** The request [resolve_failed_e2e_tests] makes for the test at [idx]. *)
Definition e2e_resolve_request (ext : Ext) (adw_id : string)
    (iteration : nat) (idx : nat) (test : E2ETestResult)
  : AgentTemplateRequest :=
  {| agent_name := "e2e_test_resolver_iter" +:+ str_nat iteration +:+ "_"
                   +:+ str_nat idx;
     slash_command := "/resolve_failed_e2e_test";
     args := [e2e_dump_json ext test];
     adw_id := adw_id; model := "sonnet" |}.


(** The line that opens an attempt of the end-to-end tier. *)
Definition attempt_line (max_attempts attempt : nat) : Event :=
  ELog INFO (nl +:+ "=== E2E Test Run Attempt " +:+ str_nat attempt +:+ "/"
             +:+ str_nat max_attempts +:+ " ===").

End AdwTest.

(* ===================================================================== *)
(* adws/model_selection.py                                               *)
(* ===================================================================== *)

Module ModelSelection.

(** [ModelSet] enum; every member is true as a condition. *)
Inductive ModelSet : Type := BASE | HEAVY.

Definition HEAVY_COMMANDS : gset string :=
  {[ "/implement"; "/feature"; "/bug"; "/chore";
     "/resolve_failed_test"; "/resolve_failed_e2e_test";
     "/document"; "/prd";
     "/migration"; "/edge_function" ]}.

Definition FAST_COMMANDS : gset string :=
  {[ "/classify_issue"; "/find_plan_file"; "/generate_branch_name";
     "/commit"; "/pull_request";
     "/validate"; "/run_tests"; "/design_audit";
     "/component"; "/hook"; "/rls_policy" ]}.

(** [MODEL_SET_DEFAULTS[model_set]]; the dict has both members as keys. *)
Definition MODEL_SET_DEFAULTS (model_set : ModelSet) : string :=
  match model_set with
  | BASE => "sonnet"
  | HEAVY => "opus"
  end.

(** [get_model]; a model name is a str at run time, and [if force_model]
    is false for [None] and for the empty string. *)
Definition get_model (command : string) (model_set : option ModelSet)
    (force_model : option string) : string :=
  match force_model with
  | Some (String c m) => String c m
  | _ =>
      match model_set with
      | Some s => MODEL_SET_DEFAULTS s
      | None =>
          if bool_decide (command ∈ HEAVY_COMMANDS) then "opus"
          else if bool_decide (command ∈ FAST_COMMANDS) then "sonnet"
          else "sonnet"
      end
  end.

Definition get_model_set_for_command (command : string) : ModelSet :=
  if bool_decide (command ∈ HEAVY_COMMANDS) then HEAVY else BASE.

(** The dict of [estimate_cost_factor]; [0.04] is the binary64 value
    nearest to it. *)
Definition factors : gmap string float :=
  {[ "haiku" := 0x1.47ae147ae147bp-5%float;
     "sonnet" := 1%float;
     "opus" := 15%float ]}.

Definition estimate_cost_factor (model : string) : float :=
  default 1%float (factors !! model).

Definition is_heavy_task (command : string) : bool :=
  bool_decide (command ∈ HEAVY_COMMANDS).

(** The convenience functions; their defaults are [BASE], [HEAVY] and
    [BASE]. *)
Definition get_planning_model (model_set : ModelSet) : string :=
  get_model "/chore" (Some model_set) None.

Definition get_implementation_model (model_set : ModelSet) : string :=
  get_model "/implement" (Some model_set) None.

Definition get_test_model (model_set : ModelSet) : string :=
  get_model "/run_tests" (Some model_set) None.

End ModelSelection.

(* ===================================================================== *)
(* Concrete collaborators, to run the embedding on                       *)
(* ===================================================================== *)

Module Scenarios.

Import WorktreeOps AdwTest.

Definition reply (out : string) (ok : bool) : AgentPromptResponse :=
  {| output := out; success := ok; session_id := None |}.

Definition t1_failed : TestResult :=
  {| test_name := "test_login"; passed := false;
     error := Some "AssertionError" |}.

(** Collaborators around an agent: the parser knows three outputs (one
    failing test, no failing test, anything else is malformed), git always
    succeeds, [specs] are the E2E spec files found. *)
Definition collaborators
    (agent : AgentTemplateRequest -> AgentPromptResponse)
    (specs : list string) : AdwTest.Ext :=
  {| execute_template := fun _ req => agent req;
     parse_json_tests := fun s =>
       if String.eqb s "[test_login: failed]" then inr [t1_failed]
       else if String.eqb s "[]" then inr []
       else inl "Expecting value: line 1 column 1 (char 0)";
     parse_json_dict := fun _ => inl "Expecting value: line 1 column 1 (char 0)";
     e2e_validation_error := fun _ => None;
     glob_e2e_specs := fun _ => specs;
     AdwTest.subprocess_run := fun _ _ =>
       inr {| returncode := 0; stdout := ""; stderr := "" |};
     request_dump_json := fun req => slash_command req;
     response_dump_json := fun resp => output resp;
     test_dump_json := fun t => test_name t;
     test_json_dumps := fun t => test_name t;
     e2e_dump_json := fun t => e2e_test_name t |}.

(** Every test passes. *)
Definition green : AdwTest.Ext :=
  collaborators (fun _ => reply "[]" true) [].

(** The verifier always reports the same failing test and the remediator
    never succeeds. *)
Definition stuck : AdwTest.Ext :=
  collaborators
    (fun req => if String.eqb (slash_command req) "/test"
                then reply "[test_login: failed]" true
                else reply "could not fix" false) [].

(** The verifier runs but its output is not the expected JSON. *)
Definition unparsable : AdwTest.Ext :=
  collaborators (fun _ => reply "Tests were run." true) [].

(** The agent cannot be run at all; there is no E2E spec file. *)
Definition crash : AdwTest.Ext :=
  collaborators (fun _ => reply "claude: command not found" false) [].

(** The agent cannot run either verifier, while the E2E remediator
    reports success; there is one E2E spec file. *)
Definition crash_e2e : AdwTest.Ext :=
  collaborators
    (fun req => if String.eqb (slash_command req) "/resolve_failed_e2e_test"
                then reply "fixed" true
                else reply "claude: command not found" false)
    ["e2e/login.spec.ts"].

(** As [crash_e2e], but the spec file is gone once a remediator of the
    end-to-end tier has run. *)
Definition crash_e2e_vanishing : AdwTest.Ext :=
  {| execute_template := execute_template crash_e2e;
     parse_json_tests := parse_json_tests crash_e2e;
     parse_json_dict := parse_json_dict crash_e2e;
     e2e_validation_error := e2e_validation_error crash_e2e;
     glob_e2e_specs := fun w =>
       if (0 <? e2e_remediator_calls w)%nat then []
       else ["e2e/login.spec.ts"];
     AdwTest.subprocess_run := AdwTest.subprocess_run crash_e2e;
     request_dump_json := request_dump_json crash_e2e;
     response_dump_json := response_dump_json crash_e2e;
     test_dump_json := test_dump_json crash_e2e;
     test_json_dumps := test_json_dumps crash_e2e;
     e2e_dump_json := e2e_dump_json crash_e2e |}.

(** A project in which the removal of worktree [bbbb1111] fails. *)
Definition project : WorktreeOps.Ext :=
  {| project_root := "/repo";
     WorktreeOps.subprocess_run := fun _ cmd _ =>
       if bool_decide (cmd = ["git"; "worktree"; "remove";
                              "/repo/trees/bbbb1111"; "--force"])
       then 1 else 0;
     time_time := fun _ => 100000%float;
     format_1f := fun _ => "27.8" |}.

(** A project without a [trees/] directory yet. *)
Definition no_trees : WorktreeOps.World :=
  {| trees := None; env_local := true; trace := [] |}.

(** A [trees/] directory with two old worktrees, a plain file and a fresh
    worktree; the clock of [project] reads 100000 s. *)
Definition four_entries : WorktreeOps.World :=
  {| trees :=
       Some (list_to_map
               [("aaaa0000", {| is_dir := true; st_mtime := 0%float |});
                ("bbbb1111", {| is_dir := true; st_mtime := 10%float |});
                ("README", {| is_dir := false; st_mtime := 0%float |});
                ("cccc2222",
                 {| is_dir := true; st_mtime := 99999%float |})]);
     env_local := true;
     trace := [] |}.

(** Sixteen run identifiers with valid prefixes. *)
Definition sixteen_runs : list string :=
  ["0000cafe"; "0001cafe"; "0002cafe"; "0003cafe"; "0004cafe"; "0005cafe";
   "0006cafe"; "0007cafe"; "0008cafe"; "0009cafe"; "000acafe"; "000bcafe";
   "000ccafe"; "000dcafe"; "000ecafe"; "000fcafe"].

(** An environment that already sets a port. *)
Definition shell_environ : gmap string string :=
  {[ "PORT" := "8080"; "HOME" := "/home/dev" ]}.

(** A project in which every command that starts with [head] fails. *)
Definition failing (head : string) : WorktreeOps.Ext :=
  {| project_root := "/repo";
     WorktreeOps.subprocess_run := fun _ cmd _ =>
       match cmd with
       | c :: _ => if String.eqb c head then 1 else 0
       | [] => 0
       end;
     time_time := fun _ => 100000%float;
     format_1f := fun _ => "27.8" |}.

End Scenarios.

(* ===================================================================== *)
(* Properties of the port allocator and the worktree manager             *)
(* ===================================================================== *)

Module WorktreeOpsProofs.

Import PyInt WorktreeOps Scenarios.
Local Open Scope list_scope.

(** On a string of base-16 digits the scan reads the positional value and
    leaves nothing. *)
Lemma scan_digits_hex (s : string) : forall acc v,
  hex_value s acc = Some v -> scan_digits s false acc = Some (v, "").
Proof.
  induction s as [|c s IH]; intros acc v H; simpl in *.
  - congruence.
  - destruct (digit16 c) as [d|]; [auto | discriminate].
Qed.

(** A digit is neither white space, a sign, an underscore nor [x]. *)
Lemma digit_not_other (c : ascii) (d : Z) :
  digit16 c = Some d ->
  is_space c = false /\ is_underscore c = false /\
  Ascii.eqb c "+" = false /\ Ascii.eqb c "-" = false /\
  Ascii.eqb c "x" = false /\ Ascii.eqb c "X" = false.
Proof.
  intros H.
  destruct c as [b0 b1 b2 b3 b4 b5 b6 b7];
    destruct b0, b1, b2, b3, b4, b5, b6, b7;
    try discriminate H; repeat split; reflexivity.
Qed.

(** [int(s, 16)] of a non-empty string of base-16 digits is its positional
    value. *)
Lemma int16_hex (s : string) (v : Z) :
  s <> "" -> hex_value s 0 = Some v -> int16 s = Some v.
Proof.
  destruct s as [|c s]; [congruence|]. intros _ H.
  pose proof (scan_digits_hex _ _ _ H) as Hscan.
  simpl in H. destruct (digit16 c) as [d|] eqn:Hd; [|discriminate].
  destruct (digit_not_other c d Hd) as (Hsp & Hus & Hplus & Hminus & _).
  assert (Hpre : skip_prefix (String c s) = String c s).
  { destruct s as [|c' s']; [reflexivity|]. simpl in H.
    destruct (digit16 c') as [d'|] eqn:Hd'; [|discriminate].
    destruct (digit_not_other c' d' Hd') as (_ & _ & _ & _ & Hx & HX).
    simpl. rewrite Hx, HX, andb_false_r. reflexivity. }
  unfold int16. simpl skip_spaces. rewrite Hsp.
  unfold take_sign. rewrite Hplus, Hminus. rewrite Hpre.
  simpl starts_with_underscore. rewrite Hus, Hscan. reflexivity.
Qed.

Lemma skip_spaces_literal (s : string) :
  literal_chars (skip_spaces s) = true -> literal_chars s = true.
Proof.
  induction s as [|c s IH]; simpl; [auto|].
  destruct (is_space c) eqn:Hsp; [|auto].
  intros H. rewrite (IH H), andb_true_r.
  unfold literal_char. rewrite Hsp. destruct (digit16 c); reflexivity.
Qed.

Lemma take_sign_literal (s : string) :
  literal_chars (snd (take_sign s)) = true -> literal_chars s = true.
Proof.
  destruct s as [|c s]; [auto|]. simpl. unfold literal_char.
  destruct (Ascii.eqb c "+") eqn:Hp; simpl.
  { intros ->. destruct (digit16 c); rewrite ?orb_true_r; reflexivity. }
  destruct (Ascii.eqb c "-") eqn:Hm; simpl.
  { intros ->. destruct (digit16 c); rewrite ?orb_true_r; reflexivity. }
  unfold literal_char. rewrite Hp, Hm. auto.
Qed.

Lemma skip_prefix_literal (s : string) :
  literal_chars (skip_prefix s) = true -> literal_chars s = true.
Proof.
  destruct s as [|c0 [|c1 s]]; [auto | auto |]. simpl skip_prefix.
  destruct (Ascii.eqb c0 "0" && (Ascii.eqb c1 "x" || Ascii.eqb c1 "X"))
    eqn:Hpre; [|auto].
  apply andb_true_iff in Hpre as [H0 Hx].
  apply Ascii.eqb_eq in H0 as ->.
  assert (Hc1 : literal_char c1 = true).
  { unfold literal_char. destruct (digit16 c1); [reflexivity|].
    apply orb_true_iff in Hx as [-> | ->]; rewrite ?orb_true_r; reflexivity. }
  intros H. simpl. rewrite Hc1. simpl.
  destruct s as [|c2 s]; [reflexivity|].
  destruct (is_underscore c2) eqn:Hus; [|exact H].
  simpl. rewrite H, andb_true_r. unfold literal_char. rewrite Hus.
  destruct (digit16 c2); rewrite ?orb_true_r; reflexivity.
Qed.

Lemma scan_digits_literal (s : string) : forall prev acc v rest,
  scan_digits s prev acc = Some (v, rest) ->
  literal_chars rest = true -> literal_chars s = true.
Proof.
  induction s as [|c s IH]; intros prev acc v rest H Hrest; simpl in *.
  - reflexivity.
  - unfold literal_char.
    destruct (digit16 c) as [d|] eqn:Hd.
    + simpl. eapply IH; eauto.
    + destruct (is_underscore c) eqn:Hu.
      * destruct prev; [discriminate|].
        rewrite orb_true_r. simpl. eapply IH; eauto.
      * destruct prev; [discriminate|]. injection H as _ <-.
        simpl in Hrest. unfold literal_char in Hrest.
        rewrite Hd, Hu in Hrest. exact Hrest.
Qed.

(** Whatever [int(s, 16)] accepts is made of literal characters only. *)
Lemma int16_literal (s : string) (v : Z) :
  int16 s = Some v -> literal_chars s = true.
Proof.
  unfold int16. intros H.
  apply skip_spaces_literal, take_sign_literal.
  destruct (take_sign (skip_spaces s)) as [neg s1]. simpl.
  apply skip_prefix_literal.
  destruct (starts_with_underscore (skip_prefix s1)); [discriminate|].
  destruct (scan_digits (skip_prefix s1) false 0) as [[v' rest]|] eqn:Hscan;
    [|discriminate].
  destruct (_ =? _)%nat; [discriminate|].
  destruct (skip_spaces rest) eqn:Hr; [|discriminate].
  eapply scan_digits_literal; [exact Hscan|].
  apply skip_spaces_literal. rewrite Hr. reflexivity.
Qed.

Lemma substring_0_length (n : nat) : forall s : string,
  String.length (substring 0 n s) = Nat.min n (String.length s).
Proof.
  induction n as [|n IH]; intros [|c s]; simpl; auto.
Qed.

Lemma append_length (s t : string) :
  String.length (s +:+ t) = (String.length s + String.length t)%nat.
Proof. induction s as [|c s IH]; simpl; auto. Qed.

Lemma replicate_string_length (n : nat) (c : ascii) :
  String.length (string_of_list_ascii (replicate n c)) = n.
Proof. induction n as [|n IH]; simpl; auto. Qed.

(** The text handed to [int] always has 4 characters. *)
Lemma hex_prefix_length (adw_id : string) :
  String.length (hex_prefix adw_id) = 4%nat.
Proof.
  unfold hex_prefix.
  destruct (4 <=? String.length adw_id)%nat eqn:Hlen.
  - apply Nat.leb_le in Hlen. rewrite substring_0_length. lia.
  - apply Nat.leb_gt in Hlen. unfold ljust.
    rewrite append_length, replicate_string_length. lia.
Qed.

Lemma substring_0_app (p rest : string) :
  substring 0 (String.length p) (p +:+ rest) = p.
Proof.
  induction p as [|c p IH]; simpl.
  - destruct rest; reflexivity.
  - f_equal. exact IH.
Qed.

Lemma substring_0_all (s : string) :
  substring 0 (String.length s) s = s.
Proof. induction s as [|c s IH]; simpl; [|f_equal; exact IH]; reflexivity. Qed.

Lemma hex_prefix_four (p rest : string) :
  String.length p = 4%nat -> hex_prefix (p +:+ rest) = p.
Proof.
  intros Hp. unfold hex_prefix.
  rewrite append_length, Hp. cbn [Nat.add Nat.leb].
  rewrite <- Hp. apply substring_0_app.
Qed.

Lemma hex_prefix_fixed (s : string) :
  String.length s = 4%nat -> hex_prefix s = s.
Proof.
  intros Hs. unfold hex_prefix. rewrite Hs. cbn [Nat.leb].
  rewrite <- Hs. apply substring_0_all.
Qed.

(** The text handed to [int] is made of the first four characters of the
    identifier, filled up with the character 0 on the right when there
    are fewer. *)
Lemma hex_prefix_is (adw_id p : string) :
  String.length p = 4%nat ->
  (exists rest, adw_id = p +:+ rest)
  \/ ((String.length adw_id < 4)%nat /\
      p = adw_id +:+ string_of_list_ascii
                       (replicate (4 - String.length adw_id) "0"%char)) ->
  hex_prefix adw_id = p.
Proof.
  intros Hlen [[rest ->] | [Hshort ->]].
  - apply hex_prefix_four, Hlen.
  - unfold hex_prefix, ljust.
    rewrite (proj2 (Nat.leb_gt 4 (String.length adw_id)) Hshort).
    reflexivity.
Qed.

(** The characters of a base-16 literal, listed. *)
Lemma literal_char_listed (c : ascii) :
  literal_char c
  = PyStr.occurs c "0123456789abcdefABCDEF+-xX_ "
    || existsb (Nat.eqb (nat_of_ascii c)) [9; 10; 11; 12; 13; 133; 160]%nat.
Proof.
  destruct c as [b0 b1 b2 b3 b4 b5 b6 b7];
    destruct b0, b1, b2, b3, b4, b5, b6, b7; vm_compute; reflexivity.
Qed.

Lemma digit16_listed (c : ascii) :
  PyStr.occurs c "0123456789abcdefABCDEF" = true ->
  exists d, digit16 c = Some d.
Proof.
  destruct c as [b0 b1 b2 b3 b4 b5 b6 b7];
    destruct b0, b1, b2, b3, b4, b5, b6, b7; vm_compute;
    try discriminate; intros _; eexists; reflexivity.
Qed.

Lemma literal_chars_occurs (c : ascii) (s : string) :
  PyStr.occurs c s = true -> literal_char c = false ->
  literal_chars s = false.
Proof.
  intros Hin Hc. induction s as [|c' s IH]; simpl in *; [discriminate|].
  apply orb_true_iff in Hin as [Heq | Hin].
  - apply Ascii.eqb_eq in Heq as <-. rewrite Hc. reflexivity.
  - rewrite (IH Hin). apply andb_false_r.
Qed.

Lemma hex_value_digits (s : string) :
  (forall c, PyStr.occurs c s = true ->
             PyStr.occurs c "0123456789abcdefABCDEF" = true) ->
  forall acc, exists v, hex_value s acc = Some v.
Proof.
  induction s as [|c s IH]; intros Hall acc; simpl.
  - eexists; reflexivity.
  - destruct (digit16_listed c) as [d Hd].
    { apply Hall. simpl. rewrite Ascii.eqb_refl. reflexivity. }
    rewrite Hd. apply IH. intros c' Hc'. apply Hall. simpl.
    rewrite Hc'. apply orb_true_r.
Qed.

(** C6: let [p] be the first four characters of the identifier, filled up
    with the character 0 on the right when the identifier is shorter.
    When [int(p, 16)] accepts [p] with value [n], [allocate_ports] returns
    (3100 + offset, 3200 + offset) with offset = n mod 15; the offset lies
    in [0, 15); both ports are at the same distance from their base; every
    identifier that starts with the same four characters gets the same
    allocation; and when [p] consists of base-16 digits, [n] is its
    positional value. *)
Theorem C6_allocate_ports_offset (adw_id p : string) (n : Z) :
  String.length p = 4%nat ->
  (exists rest, adw_id = p +:+ rest)
  \/ ((String.length adw_id < 4)%nat /\
      p = adw_id +:+ string_of_list_ascii
                       (replicate (4 - String.length adw_id) "0"%char)) ->
  int16 p = Some n ->
  let offset := n mod MAX_CONCURRENT_WORKFLOWS in
  allocate_ports adw_id
    = Ok {| backend := BACKEND_PORT_START + offset;
            frontend := FRONTEND_PORT_START + offset |}
  /\ BACKEND_PORT_START = 3100 /\ FRONTEND_PORT_START = 3200
  /\ MAX_CONCURRENT_WORKFLOWS = 15
  /\ 0 <= offset < MAX_CONCURRENT_WORKFLOWS
  /\ (forall ports, allocate_ports adw_id = Ok ports ->
        backend ports - BACKEND_PORT_START
        = frontend ports - FRONTEND_PORT_START)
  /\ (forall rest, allocate_ports (p +:+ rest) = allocate_ports adw_id)
  /\ (forall v, hex_value p 0 = Some v -> n = v).
Proof.
  intros Hlen Hfirst Hn offset.
  pose proof (hex_prefix_is adw_id p Hlen Hfirst) as Hp.
  assert (Halloc : allocate_ports adw_id
            = Ok {| backend := BACKEND_PORT_START + offset;
                    frontend := FRONTEND_PORT_START + offset |}).
  { unfold allocate_ports. rewrite Hp, Hn. reflexivity. }
  split; [exact Halloc|].
  do 3 (split; [reflexivity|]).
  split; [apply Z.mod_pos_bound; reflexivity|].
  split.
  { intros ports Hports. rewrite Halloc in Hports. injection Hports as <-.
    simpl. lia. }
  split.
  { intros rest. unfold allocate_ports.
    rewrite (hex_prefix_four p rest Hlen), Hp. reflexivity. }
  intros v Hv.
  assert (Hne : p <> "") by (intros ->; discriminate Hlen).
  pose proof (int16_hex _ _ Hne Hv) as Hi. congruence.
Qed.

Lemma C6_allocate_ports_offset_witness :
  int16 "a1b2" = Some 41394 /\
  allocate_ports "a1b2c3d4" = Ok {| backend := 3109; frontend := 3209 |}.
Proof.
  split; [reflexivity|].
  exact (proj1 (C6_allocate_ports_offset "a1b2c3d4" "a1b2" 41394 eq_refl
                  (or_introl (ex_intro _ "c3d4" eq_refl)) eq_refl)).
Defined.

(** C7 (as the code has it): let [p] be the first four characters of the
    identifier, filled up with the character 0 on the right when the
    identifier is shorter.  When [p] holds a character that is neither a
    base-16 digit nor a sign, an [x], an underscore or white space,
    [allocate_ports] raises the ValueError of [int] that quotes [p]; when
    [p] consists of base-16 digits it returns the ports of its positional
    value; and the ValueError that quotes [p] is the only error it ever
    raises, so that it returns either that error or the ports computed
    from [p], never ports chosen by default. *)
Theorem C7_allocate_ports_invalid (adw_id p : string) :
  String.length p = 4%nat ->
  (exists rest, adw_id = p +:+ rest)
  \/ ((String.length adw_id < 4)%nat /\
      p = adw_id +:+ string_of_list_ascii
                       (replicate (4 - String.length adw_id) "0"%char)) ->
  ((exists c, PyStr.occurs c p = true /\
              PyStr.occurs c "0123456789abcdefABCDEF+-xX_ " = false /\
              existsb (Nat.eqb (nat_of_ascii c))
                      [9; 10; 11; 12; 13; 133; 160]%nat = false) ->
   allocate_ports adw_id
   = Raise (ValueError ("invalid literal for int() with base 16: "
                        +:+ PyStr.repr p)))
  /\ ((forall c, PyStr.occurs c p = true ->
                 PyStr.occurs c "0123456789abcdefABCDEF" = true) ->
      exists v,
        hex_value p 0 = Some v /\
        allocate_ports adw_id
        = Ok {| backend := 3100 + v mod 15; frontend := 3200 + v mod 15 |})
  /\ (forall e, allocate_ports adw_id = Raise e ->
        e = ValueError ("invalid literal for int() with base 16: "
                        +:+ PyStr.repr p))
  /\ (forall ports, allocate_ports adw_id = Ok ports ->
        exists n, int16 p = Some n /\
                  backend ports = 3100 + n mod 15 /\
                  frontend ports = 3200 + n mod 15).
Proof.
  intros Hlen Hfirst.
  pose proof (hex_prefix_is adw_id p Hlen Hfirst) as Hp.
  unfold allocate_ports. rewrite Hp.
  split; [|split; [|split]].
  - intros (c & Hin & Hlist & Hspace).
    assert (Hc : literal_char c = false).
    { rewrite literal_char_listed, Hlist, Hspace. reflexivity. }
    destruct (int16 p) as [v|] eqn:Hi; [|reflexivity].
    apply int16_literal in Hi.
    rewrite (literal_chars_occurs c p Hin Hc) in Hi. discriminate Hi.
  - intros Hall. destruct (hex_value_digits p Hall 0) as [v Hv].
    exists v. split; [exact Hv|].
    assert (Hne : p <> "") by (intros ->; discriminate Hlen).
    rewrite (int16_hex _ _ Hne Hv). reflexivity.
  - intros e. destruct (int16 p); [discriminate|]. intros [= <-]. reflexivity.
  - intros ports. destruct (int16 p) as [n|]; [|discriminate].
    intros [= <-]. exists n. repeat split.
Qed.

Lemma C7_allocate_ports_invalid_witness :
  allocate_ports "test-run"
  = Raise (ValueError "invalid literal for int() with base 16: 'test'").
Proof.
  exact (proj1 (C7_allocate_ports_invalid "test-run" "test" eq_refl
                  (or_introl (ex_intro _ "-run" eq_refl)))
               (ex_intro _ "t"%char
                  (conj eq_refl (conj eq_refl eq_refl)))).
Defined.

(** Identifiers whose first four characters are not a string of base-16
    digits and which get ports all the same: [int] reads a [0x] prefix, a
    sign, white space around the digits and an underscore between them,
    and a lone sign is filled up to [-000]. *)
Lemma C7_not_only_digits_counterexample :
  hex_value "0x1f" 0 = None
  /\ (forall rest, allocate_ports ("0x1f" +:+ rest)
                   = Ok {| backend := 3101; frontend := 3201 |})
  /\ (forall rest, allocate_ports ("-1ab" +:+ rest)
                   = Ok {| backend := 3108; frontend := 3208 |})
  /\ (forall rest, allocate_ports (" 1a " +:+ rest)
                   = Ok {| backend := 3111; frontend := 3211 |})
  /\ (forall rest, allocate_ports ("+00f" +:+ rest)
                   = Ok {| backend := 3100; frontend := 3200 |})
  /\ (forall rest, allocate_ports ("1_0a" +:+ rest)
                   = Ok {| backend := 3111; frontend := 3211 |})
  /\ allocate_ports "-" = Ok {| backend := 3100; frontend := 3200 |}.
Proof.
  repeat split; try reflexivity; intros rest; unfold allocate_ports;
    rewrite hex_prefix_four by reflexivity; reflexivity.
Qed.

Lemma countb_app {A : Type} (f : A -> bool) (l1 l2 : list A) :
  countb f (l1 ++ l2) = (countb f l1 + countb f l2)%nat.
Proof. unfold countb. rewrite List.filter_app, length_app. reflexivity. Qed.

Lemma bool_decide_is_Some_None {A : Type} :
  bool_decide (is_Some (@None A)) = false.
Proof. reflexivity. Qed.

Lemma bool_decide_is_Some_Some {A : Type} (x : A) :
  bool_decide (is_Some (Some x)) = true.
Proof. reflexivity. Qed.

(** Symbolic execution of the worktree manager on a world given by its
    fields: unfold the monad and the primitives, nothing else. *)
Ltac run_manager :=
  repeat
    (cbv beta iota zeta delta
       [create_worktree remove_worktree cleanup_step
        bind bind_ok ret mkdir_trees worktree_exists log emit entry_of
        git_worktree_add git_worktree_remove run_checked env_local_exists
        fst snd trees env_local trace present existing mbind option_bind
        negb];
     rewrite ?bool_decide_is_Some_None, ?bool_decide_is_Some_Some).

Ltac case_run ext head :=
  match goal with
  | |- context [subprocess_run ext ?t (head :: ?c) ?d] =>
      let rc := fresh "rc" in
      set (rc := subprocess_run ext t (head :: c) d) in *;
      destruct (rc =? 0) eqn:?
  end.

Ltac count_events :=
  cbn [countb List.filter is_add_ok is_copy is_write is_npm_install
       length app].

Ltac use_lookups :=
  repeat match goal with
         | H : _ !! _ = _ |- _ => rewrite !H; clear H
         end;
  rewrite ?lookup_insert_eq, ?bool_decide_is_Some_Some.

Ltac finish_create :=
  eexists; split; [rewrite <- ?app_assoc; reflexivity|];
  cbn [fmap option_fmap option_map];
  use_lookups; count_events;
  repeat match goal with
         | H : (_ =? 0) = _ |- _ => rewrite !H; clear H
         end;
  count_events;
  repeat split; try lia;
  try (left; reflexivity);
  try (right; repeat split; reflexivity);
  try assumption; try discriminate; try reflexivity.

Section CreateTwice.

Context (ext : Ext) (adw_id branch_name : string).

(** A call that finds the worktree present logs one line and returns. *)
Lemma create_present (w : World) :
  present adw_id w = true ->
  create_worktree ext adw_id branch_name w
  = (existing ext adw_id,
     {| trees := trees w; env_local := env_local w;
        trace := trace w ++
          [ELog INFO ("Worktree already exists at "
                      +:+ get_worktree_path ext adw_id)] |}).
Proof.
  destruct w as [[m|] el tc]; unfold present; run_manager; [|discriminate].
  intros Hp. unfold create_worktree. run_manager. rewrite Hp. reflexivity.
Qed.

(** One call: each side effect happens at most once; afterwards the
    worktree is present unless none of them happened; and a call that
    returns leaves the worktree present. *)
Lemma create_once (w : World) :
  let r := create_worktree ext adw_id branch_name w in
  exists t',
    trace (snd r) = trace w ++ t' /\
    (countb is_add_ok t' <= 1)%nat /\ (countb is_copy t' <= 1)%nat /\
    (countb is_write t' <= 1)%nat /\ (countb is_npm_install t' <= 1)%nat /\
    (present adw_id (snd r) = true \/
     (countb is_add_ok t' = 0 /\ countb is_copy t' = 0 /\
      countb is_write t' = 0 /\ countb is_npm_install t' = 0)%nat) /\
    (forall x, fst r = Ok x ->
       present adw_id (snd r) = true /\ existing ext adw_id = Ok x).
Proof.
  destruct w as [tr el tc]. unfold create_worktree. run_manager.
  destruct tr as [m|]; run_manager.
  - destruct (m !! adw_id) eqn:Hm; run_manager.
    + finish_create.
    + case_run ext "git"; run_manager.
      * destruct (allocate_ports adw_id) as [ports|e] eqn:Hports; run_manager.
        -- destruct el; run_manager; case_run ext "npm"; run_manager;
             finish_create.
        -- finish_create.
      * finish_create.
  - rewrite lookup_empty. run_manager.
    case_run ext "git"; run_manager.
    + destruct (allocate_ports adw_id) as [ports|e] eqn:Hports; run_manager.
      * destruct el; run_manager; case_run ext "npm"; run_manager;
          finish_create.
      * finish_create.
    + finish_create.
Qed.

End CreateTwice.

(** C8: calling [create_worktree] twice with the same identifier and branch
    performs each underlying side effect at most once over both calls (a
    [git worktree add] that succeeds, the copy of [.env.local], the write of
    [.ports.env], the run of [npm install]); when the first call returned,
    the second returns the same path and the same allocation, leaves the
    directory listing as it is and only logs one line; and so does every
    call that finds the worktree path present. *)
Theorem C8_create_worktree_idempotent (ext : Ext)
    (adw_id branch_name : string) (w : World) :
  let r1 := create_worktree ext adw_id branch_name w in
  let r2 := create_worktree ext adw_id branch_name (snd r1) in
  let noop (w0 : World) : World :=
    {| trees := trees w0; env_local := env_local w0;
       trace := trace w0 ++
         [ELog INFO ("Worktree already exists at "
                     +:+ get_worktree_path ext adw_id)] |} in
  (countb is_add_ok (trace (snd r2)) <= countb is_add_ok (trace w) + 1)%nat
  /\ (countb is_copy (trace (snd r2)) <= countb is_copy (trace w) + 1)%nat
  /\ (countb is_write (trace (snd r2)) <= countb is_write (trace w) + 1)%nat
  /\ (countb is_npm_install (trace (snd r2))
      <= countb is_npm_install (trace w) + 1)%nat
  /\ (forall x, fst r1 = Ok x -> r2 = (Ok x, noop (snd r1)))
  /\ (forall path ports, fst r1 = Ok (path, ports) ->
        path = get_worktree_path ext adw_id /\
        allocate_ports adw_id = Ok ports)
  /\ (forall w0, present adw_id w0 = true ->
        create_worktree ext adw_id branch_name w0
        = (existing ext adw_id, noop w0)).
Proof.
  intros r1 r2 noop.
  destruct (create_once ext adw_id branch_name w)
    as (t1 & Ht1 & Ha1 & Hc1 & Hw1 & Hn1 & Hcase & Hok1).
  fold r1 in Ht1, Hcase, Hok1.
  assert (Hpresent : forall w0, present adw_id w0 = true ->
            create_worktree ext adw_id branch_name w0
            = (existing ext adw_id, noop w0)).
  { intros w0 Hw0. apply create_present, Hw0. }
  assert (Hcounts :
    (countb is_add_ok (trace (snd r2)) <= countb is_add_ok (trace w) + 1)%nat
    /\ (countb is_copy (trace (snd r2)) <= countb is_copy (trace w) + 1)%nat
    /\ (countb is_write (trace (snd r2)) <= countb is_write (trace w) + 1)%nat
    /\ (countb is_npm_install (trace (snd r2))
        <= countb is_npm_install (trace w) + 1)%nat).
  { destruct Hcase as [Hpres | (Za & Zc & Zw & Zn)].
    - unfold r2. rewrite (Hpresent _ Hpres). unfold noop. cbn [snd trace].
      rewrite Ht1, !countb_app. count_events. lia.
    - destruct (create_once ext adw_id branch_name (snd r1))
        as (t2 & Ht2 & Ha2 & Hc2 & Hw2 & Hn2 & _).
      fold r2 in Ht2. rewrite Ht2, Ht1, !countb_app. lia. }
  destruct Hcounts as (Ka & Kc & Kw & Kn).
  split; [exact Ka|]. split; [exact Kc|]. split; [exact Kw|].
  split; [exact Kn|]. split; [|split; [|exact Hpresent]].
  - intros x Hx. destruct (Hok1 x Hx) as [Hpres Hex].
    unfold r2. rewrite (Hpresent _ Hpres), Hex. reflexivity.
  - intros path ports Hx. destruct (Hok1 _ Hx) as [_ Hex].
    unfold existing in Hex.
    destruct (allocate_ports adw_id); [|discriminate].
    injection Hex as <- <-. split; reflexivity.
Qed.

Lemma removals_app (t1 t2 : list Event) :
  removals (t1 ++ t2) = removals t1 ++ removals t2.
Proof. apply omap_app. Qed.

Lemma removed_ok_app (t1 t2 : list Event) :
  removed_ok (t1 ++ t2) = (removed_ok t1 + removed_ok t2)%nat.
Proof. unfold removed_ok. rewrite removals_app. apply countb_app. Qed.

Ltac read_removals :=
  cbn [removals omap list_omap removal_of removed_ok countb List.filter
       length app map snd fst andb];
  rewrite ?String.eqb_refl;
  cbn [removals omap list_omap removal_of removed_ok countb List.filter
       length app map snd fst andb].

Section Sweep.

Context (ext : Ext) (now : float) (max_age_hours : Z).

(** One round of the sweep on a directory listing [m]: a stale directory
    gets exactly one removal call, anything else none; the counter grows by
    the number of removals that succeeded; the round never raises; other
    entries stay as they are. *)
Lemma cleanup_step_spec (name : string) (cleaned : Z) (w : World)
    (m : gmap string Entry) :
  trees w = Some m ->
  let r := cleanup_step ext now (max_age_hours * 3600) name cleaned w in
  exists t' m',
    trace (snd r) = trace w ++ t' /\
    trees (snd r) = Some m' /\
    (forall k, k <> name -> m' !! k = m !! k) /\
    map fst (removals t')
      = (if is_stale now max_age_hours m name
         then [get_worktree_path ext name] else []) /\
    fst r = Ok (cleaned + Z.of_nat (removed_ok t')).
Proof.
  destruct w as [tr el tc]. cbn [trees]. intros ->.
  unfold is_stale. run_manager.
  destruct (m !! name) as [[d mt]|] eqn:Hm; run_manager.
  2:{ exists [], m. rewrite app_nil_r, Z.add_0_r. auto. }
  destruct d; run_manager.
  2:{ exists [], m. rewrite app_nil_r, Z.add_0_r. auto. }
  cbn [is_dir st_mtime andb].
  destruct (PyFloat.gt_int (now - mt) (max_age_hours * 3600)) eqn:Hage;
    run_manager.
  2:{ exists [], m. rewrite app_nil_r, Z.add_0_r. auto. }
  rewrite Hm. run_manager.
  case_run ext "git"; run_manager.
  - eexists. exists (delete name m).
    split; [rewrite <- ?app_assoc; reflexivity|].
    split; [reflexivity|].
    split; [intros k Hk; apply lookup_delete_ne; congruence|].
    read_removals. rewrite Heqb. split; reflexivity.
  - eexists. exists m.
    split; [rewrite <- ?app_assoc; reflexivity|].
    split; [reflexivity|].
    split; [reflexivity|].
    read_removals. rewrite Heqb, Z.add_0_r. split; reflexivity.
Qed.

(** The staleness of the names still to visit does not change when other
    entries do. *)
Lemma filter_stale_ext (m m' : gmap string Entry) (names : list string) :
  (forall k, k ∈ names -> m' !! k = m !! k) ->
  List.filter (is_stale now max_age_hours m') names
  = List.filter (is_stale now max_age_hours m) names.
Proof.
  induction names as [|k names IH]; intros Hsame; [reflexivity|].
  cbn [List.filter].
  assert (Hk : is_stale now max_age_hours m' k = is_stale now max_age_hours m k).
  { unfold is_stale. rewrite Hsame by left. reflexivity. }
  rewrite Hk, IH; [reflexivity|].
  intros k' Hk'. apply Hsame. right. exact Hk'.
Qed.

(** The whole sweep over distinct names: every stale directory of the
    listing the sweep started with gets its removal call, in order, whatever
    the earlier removals did; the loop never raises; the result counts the
    removals that succeeded. *)
Lemma cleanup_loop_spec (names : list string) :
  NoDup names ->
  forall (cleaned : Z) (w : World) (m : gmap string Entry),
  trees w = Some m ->
  let r := cleanup_loop ext now (max_age_hours * 3600) names cleaned w in
  exists t' m',
    trace (snd r) = trace w ++ t' /\
    trees (snd r) = Some m' /\
    (forall k, k ∉ names -> m' !! k = m !! k) /\
    map fst (removals t')
      = map (get_worktree_path ext)
            (List.filter (is_stale now max_age_hours m) names) /\
    fst r = Ok (cleaned + Z.of_nat (removed_ok t')).
Proof.
  induction 1 as [|name names Hnotin Hnodup IH]; intros cleaned w m Hm.
  - exists [], m. cbn. rewrite app_nil_r, Z.add_0_r. auto.
  - cbn [cleanup_loop]. unfold bind_ok.
    destruct (cleanup_step_spec name cleaned w m Hm)
      as (t1 & m1 & Ht1 & Hm1 & Hsame1 & Hrem1 & Hres1).
    destruct (cleanup_step ext now (max_age_hours * 3600) name cleaned w)
      as [r1 w1]. cbn [fst snd] in *. subst r1.
    destruct (IH (cleaned + Z.of_nat (removed_ok t1)) w1 m1 Hm1)
      as (t2 & m2 & Ht2 & Hm2 & Hsame2 & Hrem2 & Hres2).
    exists (t1 ++ t2), m2.
    split; [rewrite Ht2, Ht1, app_assoc; reflexivity|].
    split; [exact Hm2|].
    split.
    { intros k Hk. apply not_elem_of_cons in Hk as [Hne Hk].
      rewrite Hsame2 by exact Hk. apply Hsame1, Hne. }
    split.
    { rewrite removals_app, map_app, Hrem1, Hrem2.
      rewrite (filter_stale_ext m m1 names).
      - cbn [List.filter].
        destruct (is_stale now max_age_hours m name); reflexivity.
      - intros k Hk. apply Hsame1. intros ->. contradiction. }
    rewrite Hres2, removed_ok_app. f_equal. lia.
Qed.

End Sweep.

(** The names of a directory listing, each once. *)
Lemma listing_names (m : gmap string Entry) (name : string) :
  name ∈ (map_to_list m).*1 <-> is_Some (m !! name).
Proof.
  rewrite list_elem_of_fmap. split.
  - intros ([k e] & -> & Hin). apply elem_of_map_to_list in Hin.
    exists e. exact Hin.
  - intros [e He]. exists (name, e). split; [reflexivity|].
    apply elem_of_map_to_list. exact He.
Qed.

(** C9: [cleanup_stale_worktrees] calls the removal once for every
    directory of [trees/] whose age exceeds [max_age_hours] when the sweep
    starts, and for nothing else: the removal calls are those of the stale
    directories, each once, whatever the earlier removals returned; a
    removal that fails is caught, so the
    function returns normally; and the value returned is the number of
    removals that succeeded.  Ages are differences of binary64 floats,
    compared exactly with the limit in seconds. *)
Theorem C9_cleanup_sweeps_all_stale (ext : Ext) (max_age_hours : Z)
    (w : World) :
  let now := time_time ext (trace w) in
  let stale (name : string) : Prop :=
    exists m e,
      trees w = Some m /\ m !! name = Some e /\ is_dir e = true /\
      PyFloat.gt_int (now - st_mtime e)%float (max_age_hours * 3600) = true in
  let r := cleanup_stale_worktrees ext max_age_hours w in
  exists t' names,
    trace (snd r) = trace w ++ t' /\
    NoDup names /\
    (forall name, name ∈ names <-> stale name) /\
    map fst (removals t') = map (get_worktree_path ext) names /\
    fst r = Ok (Z.of_nat (removed_ok t')).
Proof.
  destruct w as [[m|] el tc]; cbn zeta.
  - unfold cleanup_stale_worktrees, trees_exists, iterdir, bind, ret.
    cbn [trees trace fst snd default]. rewrite bool_decide_is_Some_Some.
    cbn [negb].
    destruct (cleanup_loop_spec ext (time_time ext tc) max_age_hours
                (map_to_list m).*1 (NoDup_fst_map_to_list m) 0
                {| trees := Some m; env_local := el; trace := tc |} m eq_refl)
      as (t' & m' & Ht & _ & _ & Hrem & Hres).
    exists t'.
    exists (List.filter (is_stale (time_time ext tc) max_age_hours m)
              (map_to_list m).*1).
    cbn [trace] in Ht. rewrite Z.add_0_l in Hres.
    split; [exact Ht|].
    split.
    { apply NoDup_ListNoDup, List.NoDup_filter, NoDup_ListNoDup,
        NoDup_fst_map_to_list. }
    split; [|split; [exact Hrem | exact Hres]].
    intros name. rewrite list_elem_of_In, List.filter_In, <- list_elem_of_In.
    rewrite listing_names. unfold is_stale. split.
    + intros [[e He] Hstale]. rewrite He in Hstale.
      apply andb_true_iff in Hstale as [Hdir Hage].
      exists m, e. auto.
    + intros (m0 & e & [= <-] & He & Hdir & Hage).
      split; [exists e; exact He|]. rewrite He, Hdir, Hage. reflexivity.
  - exists [], []. cbn. rewrite app_nil_r.
    split; [reflexivity|]. split; [constructor|].
    split; [|split; reflexivity].
    intros name. split.
    + intros Hin. apply elem_of_nil in Hin. contradiction.
    + intros (m0 & e & Hm & _). discriminate Hm.
Qed.

(** An age that the subtraction of floats rounds down to the limit: at
    86400.1 s a directory last changed at 0.1 s is 86400.0 s old, not more
    than 24 hours, and is kept. *)
Example cleanup_age_is_a_float :
  let ext := {| project_root := "/repo";
                subprocess_run := fun _ _ _ => 0;
                time_time := fun _ => 0x1.518019999999ap+16%float;
                format_1f := fun _ => "24.0" |} in
  let w := {| trees := Some {[ "a1b2c3d4" :=
                                 {| is_dir := true;
                                    st_mtime := 0x1.999999999999ap-4%float |}
                            ]};
              env_local := false; trace := [] |} in
  cleanup_stale_worktrees ext 24 w = (Ok 0, w).
Proof. vm_compute. reflexivity. Qed.

(** Two calls in a fresh project: one checkout, one install, the same
    answer twice. *)
Example create_twice_in_fresh_project :
  let r1 := create_worktree project "a1b2c3d4" "feature" no_trees in
  let r2 := create_worktree project "a1b2c3d4" "feature" (snd r1) in
  fst r1 = Ok ("/repo/trees/a1b2c3d4", {| backend := 3109; frontend := 3209 |})
  /\ fst r2 = fst r1
  /\ countb is_add_ok (trace (snd r2)) = 1%nat
  /\ countb is_npm_install (trace (snd r2)) = 1%nat
  /\ countb is_write (trace (snd r2)) = 1%nat.
Proof. vm_compute. repeat split. Qed.

(** A sweep with a limit of 24 hours: both old worktrees get their removal
    call although the second one fails, the plain file and the fresh
    worktree are left alone, and one removal is counted. *)
Example cleanup_goes_on_after_a_failure :
  let r := cleanup_stale_worktrees project 24 four_entries in
  fst r = Ok 1
  /\ removals (trace (snd r))
     = [("/repo/trees/aaaa0000", 0); ("/repo/trees/bbbb1111", 1)].
Proof. vm_compute. repeat split. Qed.

(* ------------------------------------------------------------------- *)
(* More on the port allocator                                          *)
(* ------------------------------------------------------------------- *)

Lemma allocate_ports_prefix (a b : string) :
  hex_prefix a = hex_prefix b -> allocate_ports a = allocate_ports b.
Proof. intros Hab. unfold allocate_ports. rewrite Hab. reflexivity. Qed.

(** X5: the ports of a run are decided by the first four characters of its
    identifier: the allocation (or the error) is that of the 4-character
    text handed to [int]; whatever follows four characters is ignored; and
    an identifier of fewer than four characters is allocated as if it were
    filled up with the character 0 on the right. *)
Theorem X5_ports_from_first_four (adw_id rest : string) :
  allocate_ports adw_id = allocate_ports (hex_prefix adw_id)
  /\ (String.length adw_id = 4%nat ->
      allocate_ports (adw_id +:+ rest) = allocate_ports adw_id)
  /\ ((String.length adw_id < 4)%nat ->
      allocate_ports adw_id
      = allocate_ports
          (adw_id +:+ string_of_list_ascii
                        (replicate (4 - String.length adw_id) "0"%char))).
Proof.
  split; [|split].
  - apply allocate_ports_prefix. symmetry.
    apply hex_prefix_fixed, hex_prefix_length.
  - intros Hlen. apply allocate_ports_prefix.
    rewrite (hex_prefix_four adw_id rest Hlen).
    symmetry. apply hex_prefix_fixed, Hlen.
  - intros Hlen. apply allocate_ports_prefix.
    set (padded := adw_id +:+ _).
    assert (Hpad : String.length padded = 4%nat).
    { unfold padded. rewrite append_length, replicate_string_length. lia. }
    rewrite (hex_prefix_fixed padded Hpad).
    unfold hex_prefix, ljust.
    rewrite (proj2 (Nat.leb_gt 4 (String.length adw_id)) Hlen).
    reflexivity.
Qed.

(** The offset of an identifier, as a natural number. *)
Lemma allocate_ports_same_offset (a b : string) (pa pb : PortAllocation) :
  allocate_ports a = Ok pa -> allocate_ports b = Ok pb ->
  (backend pa - BACKEND_PORT_START = backend pb - BACKEND_PORT_START) ->
  pa = pb.
Proof.
  unfold allocate_ports.
  destruct (int16 (hex_prefix a)) as [n|]; [|discriminate].
  destruct (int16 (hex_prefix b)) as [m|]; [|discriminate].
  intros [= <-] [= <-]. cbn [backend]. intros Hoff.
  assert (Hsame : n mod MAX_CONCURRENT_WORKFLOWS
                  = m mod MAX_CONCURRENT_WORKFLOWS) by lia.
  rewrite Hsame. reflexivity.
Qed.

Lemma allocate_ports_offset_range (a : string) (pa : PortAllocation) :
  allocate_ports a = Ok pa ->
  0 <= backend pa - BACKEND_PORT_START < MAX_CONCURRENT_WORKFLOWS.
Proof.
  unfold allocate_ports.
  destruct (int16 (hex_prefix a)) as [n|]; [|discriminate].
  intros [= <-]. cbn [backend].
  pose proof (Z.mod_pos_bound n MAX_CONCURRENT_WORKFLOWS eq_refl). lia.
Qed.

(** X6: there are only 15 port pairs: among any more than 15 run
    identifiers that all get an allocation, two at different places of the
    list get the same backend and frontend ports. *)
Theorem X6_more_than_fifteen_collide (ids : list string) :
  (Z.to_nat MAX_CONCURRENT_WORKFLOWS < length ids)%nat ->
  Forall (fun id => exists p, allocate_ports id = Ok p) ids ->
  exists i j a b p,
    (i < j)%nat /\ ids !! i = Some a /\ ids !! j = Some b /\
    allocate_ports a = Ok p /\ allocate_ports b = Ok p.
Proof.
  intros Hmany Hall.
  set (off := fun i : nat =>
         match ids !! i with
         | Some id =>
             match allocate_ports id with
             | Ok p => Z.to_nat (backend p - BACKEND_PORT_START)
             | Raise _ => 0%nat
             end
         | None => 0%nat
         end).
  destruct (finite.nat_pigeonhole off (length ids)
              (Z.to_nat MAX_CONCURRENT_WORKFLOWS) Hmany)
    as (i & j & [Hij Hj] & Hoff).
  { intros i Hi. unfold off.
    destruct (ids !! i) as [id|]; [|cbv; lia].
    destruct (allocate_ports id) as [p|e] eqn:Hp; [|cbv; lia].
    pose proof (allocate_ports_offset_range id p Hp). lia. }
  destruct (lookup_lt_is_Some_2 ids i ltac:(lia)) as [a Ha].
  destruct (lookup_lt_is_Some_2 ids j Hj) as [b Hb].
  destruct (proj1 (Forall_lookup _ ids) Hall i a Ha) as [pa Hpa].
  destruct (proj1 (Forall_lookup _ ids) Hall j b Hb) as [pb Hpb].
  unfold off in Hoff. rewrite Ha, Hb, Hpa, Hpb in Hoff.
  pose proof (allocate_ports_offset_range a pa Hpa).
  pose proof (allocate_ports_offset_range b pb Hpb).
  assert (Hsame : pa = pb).
  { apply (allocate_ports_same_offset a b); [assumption..|lia]. }
  subst pb. exists i, j, a, b, pa. auto.
Qed.

Lemma X6_more_than_fifteen_collide_witness :
  exists i j a b p,
    (i < j)%nat /\ sixteen_runs !! i = Some a /\ sixteen_runs !! j = Some b /\
    allocate_ports a = Ok p /\ allocate_ports b = Ok p.
Proof.
  apply (X6_more_than_fifteen_collide sixteen_runs).
  - vm_compute. lia.
  - unfold sixteen_runs.
    repeat (apply Forall_cons; split; [eexists; reflexivity|]).
    apply Forall_nil. exact I.
Defined.

(* ------------------------------------------------------------------- *)
(* The environment of a worktree                                       *)
(* ------------------------------------------------------------------- *)

(** X7: for an identifier with a valid prefix, [get_worktree_env] returns
    the environment it was given with five variables set anew: [PORT] to
    the backend port, [VITE_PORT] and [DEV_SERVER_PORT] to the frontend
    port, [ADW_ID] to the identifier and [ADW_WORKTREE] to the worktree
    path, whatever values they had before; every other variable is
    inherited unchanged. *)
Theorem X7_worktree_env_lookup (ext : Ext) (environ : gmap string string)
    (adw_id : string) (ports : PortAllocation) :
  allocate_ports adw_id = Ok ports ->
  exists env,
    get_worktree_env ext environ adw_id = Ok env /\
    env !! "PORT" = Some (str_Z (backend ports)) /\
    env !! "VITE_PORT" = Some (str_Z (frontend ports)) /\
    env !! "DEV_SERVER_PORT" = Some (str_Z (frontend ports)) /\
    env !! "ADW_ID" = Some adw_id /\
    env !! "ADW_WORKTREE" = Some (get_worktree_path ext adw_id) /\
    (forall var,
       var ∉ ["PORT"; "VITE_PORT"; "DEV_SERVER_PORT"; "ADW_ID";
              "ADW_WORKTREE"] ->
       env !! var = environ !! var).
Proof.
  intros Hports. unfold get_worktree_env. rewrite Hports.
  eexists. split; [reflexivity|].
  cbn [dict_update to_env_dict foldl fst snd].
  split; [rewrite !lookup_insert_ne by discriminate;
          apply lookup_insert_eq|].
  split; [rewrite !lookup_insert_ne by discriminate;
          apply lookup_insert_eq|].
  split; [rewrite !lookup_insert_ne by discriminate;
          apply lookup_insert_eq|].
  split; [rewrite !lookup_insert_ne by discriminate;
          apply lookup_insert_eq|].
  split; [apply lookup_insert_eq|].
  intros var Hvar.
  rewrite !lookup_insert_ne; [reflexivity|..];
    intros <-; apply Hvar; repeat constructor.
Qed.

Lemma X7_worktree_env_lookup_witness :
  allocate_ports "a1b2c3d4" = Ok {| backend := 3109; frontend := 3209 |}
  /\ exists env,
       get_worktree_env project shell_environ "a1b2c3d4" = Ok env /\
       env !! "PORT" = Some "3109" /\ env !! "HOME" = Some "/home/dev".
Proof.
  split; [reflexivity|].
  destruct (X7_worktree_env_lookup project shell_environ "a1b2c3d4"
              {| backend := 3109; frontend := 3209 |} eq_refl)
    as (env & Henv & Hport & _ & _ & _ & _ & Hrest).
  exists env. split; [exact Henv|]. split; [exact Hport|].
  rewrite Hrest.
  - reflexivity.
  - intros Hin. repeat (apply elem_of_cons in Hin as [Hin|Hin];
                        [discriminate Hin|]).
    inversion Hin.
Defined.

(* ------------------------------------------------------------------- *)
(* Creation that fails                                                 *)
(* ------------------------------------------------------------------- *)

Lemma allocate_ports_raises (adw_id : string) (e : Exn) :
  allocate_ports adw_id = Raise e -> exists msg, e = ValueError msg.
Proof.
  unfold allocate_ports. destruct (int16 (hex_prefix adw_id)); [discriminate|].
  intros [= <-]. eexists; reflexivity.
Qed.

Section CreateFails.

Context (ext : Ext) (adw_id branch_name : string).

(** X8: when [create_worktree] raises the error of a failed git command
    (the checkout), nothing else was done: the exit status was not 0, no
    [.env.local] was copied, no [.ports.env] written and no [npm install]
    run; the worktree path does not exist afterwards, and the directory
    listing is the one before the call ([trees/] itself now exists). *)
Theorem X8_failed_checkout_leaves_nothing (w : World) (rc : Z)
    (cmd : list string) :
  let r := create_worktree ext adw_id branch_name w in
  fst r = Raise (CalledProcessError rc ("git" :: cmd)) ->
  exists t',
    trace (snd r) = trace w ++ t' /\
    rc <> 0 /\
    trees (snd r) = Some (default ∅ (trees w)) /\
    present adw_id (snd r) = false /\
    countb is_copy t' = 0%nat /\ countb is_write t' = 0%nat /\
    countb is_npm_install t' = 0%nat.
Proof.
  assert (Hnot : allocate_ports adw_id
                 <> Raise (CalledProcessError rc ("git" :: cmd))).
  { intros He. destruct (allocate_ports_raises _ _ He) as [msg Hmsg].
    discriminate Hmsg. }
  destruct w as [tr el tc]. unfold create_worktree. run_manager.
  destruct tr as [m|]; run_manager; [destruct (m !! adw_id) eqn:Hm|];
    rewrite ?lookup_empty; run_manager.
  1:{ destruct (allocate_ports adw_id) as [ports|err] eqn:Hports;
        [discriminate|].
      intros [= ->]. exfalso. exact (Hnot eq_refl). }
  all: case_run ext "git"; run_manager;
    [ destruct (allocate_ports adw_id) as [ports|err] eqn:Hports;
      run_manager;
      [ destruct el; run_manager; case_run ext "npm"; run_manager;
        discriminate
      | intros [= ->]; exfalso; exact (Hnot eq_refl) ]
    | intros [= Hrc Hcmd]; subst rc;
      eexists; split; [rewrite <- ?app_assoc; reflexivity|];
      split; [apply Z.eqb_neq; assumption|];
      rewrite ?Hm, ?lookup_empty; count_events;
      repeat split; reflexivity ].
Qed.

(** X9: when [create_worktree] raises because [npm install] failed, the
    checkout was made and [.ports.env] written before, so the worktree
    path exists; a second call therefore takes the branch for an existing
    worktree: it returns the path and the ports normally, logs one line
    and runs nothing, so the dependencies are not installed by it. *)
Theorem X9_failed_install_is_not_retried (w : World) (rc : Z)
    (cmd : list string) :
  let r1 := create_worktree ext adw_id branch_name w in
  let r2 := create_worktree ext adw_id branch_name (snd r1) in
  fst r1 = Raise (CalledProcessError rc ("npm" :: cmd)) ->
  rc <> 0 /\
  present adw_id (snd r1) = true /\
  (exists t1,
     trace (snd r1) = trace w ++ t1 /\ countb is_add_ok t1 = 1%nat /\
     countb is_write t1 = 1%nat /\ countb is_npm_install t1 = 1%nat) /\
  (exists ports,
     allocate_ports adw_id = Ok ports /\
     r2 = (Ok (get_worktree_path ext adw_id, ports),
           {| trees := trees (snd r1); env_local := env_local (snd r1);
              trace := trace (snd r1) ++
                [ELog INFO ("Worktree already exists at "
                            +:+ get_worktree_path ext adw_id)] |})).
Proof.
  intros r1 r2 Hfail.
  assert (Hfirst :
    rc <> 0 /\ present adw_id (snd r1) = true /\
    (exists t1,
       trace (snd r1) = trace w ++ t1 /\ countb is_add_ok t1 = 1%nat /\
       countb is_write t1 = 1%nat /\ countb is_npm_install t1 = 1%nat) /\
    (exists ports, allocate_ports adw_id = Ok ports)).
  { assert (Hnot : allocate_ports adw_id
                   <> Raise (CalledProcessError rc ("npm" :: cmd))).
    { intros He. destruct (allocate_ports_raises _ _ He) as [msg Hmsg].
      discriminate Hmsg. }
    revert Hfail. subst r2 r1.
    destruct w as [tr el tc]. unfold create_worktree. run_manager.
    destruct tr as [m|]; run_manager; [destruct (m !! adw_id) eqn:Hm|];
      rewrite ?lookup_empty; run_manager.
    1:{ destruct (allocate_ports adw_id) as [ports|err] eqn:Hports;
          [discriminate|].
        intros [= ->]. exfalso. exact (Hnot eq_refl). }
    all: case_run ext "git"; run_manager; [|discriminate];
      destruct (allocate_ports adw_id) as [ports|err] eqn:Hports;
      run_manager; [|intros [= ->]; exfalso; exact (Hnot eq_refl)];
      destruct el; run_manager; case_run ext "npm"; run_manager;
      try discriminate;
      intros [= Hrc Hcmd]; subst rc;
      (split; [apply Z.eqb_neq; assumption|]);
      cbn [fmap option_fmap option_map];
      rewrite ?lookup_insert_eq, ?bool_decide_is_Some_Some;
      (split; [reflexivity|]);
      (split; [|exists ports; reflexivity]);
      eexists; (split; [rewrite <- ?app_assoc; reflexivity|]);
      count_events;
      repeat match goal with
             | H : (_ =? 0) = _ |- _ => rewrite !H; clear H
             end;
      count_events; repeat split; reflexivity. }
  destruct Hfirst as (Hrc & Hpresent & Htrace & ports & Hports).
  split; [exact Hrc|]. split; [exact Hpresent|]. split; [exact Htrace|].
  exists ports. split; [exact Hports|].
  unfold r2. rewrite (create_present ext adw_id branch_name _ Hpresent).
  unfold existing. rewrite Hports. reflexivity.
Qed.

(** X10: the identifier is checked only after the checkout.  For an
    identifier whose prefix is no base-16 literal, [create_worktree] never
    returns, writes no [.ports.env], copies no [.env.local] and runs no
    [npm install]; but when its [git worktree add] succeeded, the error
    raised is the ValueError of the allocator and the worktree path exists
    afterwards, so that a later call finds the worktree, logs one line
    and raises the same ValueError. *)
Theorem X10_identifier_checked_after_checkout (w : World) :
  int16 (hex_prefix adw_id) = None ->
  let r1 := create_worktree ext adw_id branch_name w in
  let r2 := create_worktree ext adw_id branch_name (snd r1) in
  exists t1 msg,
    trace (snd r1) = trace w ++ t1 /\
    allocate_ports adw_id = Raise (ValueError msg) /\
    (forall x, fst r1 <> Ok x) /\
    countb is_copy t1 = 0%nat /\ countb is_write t1 = 0%nat /\
    countb is_npm_install t1 = 0%nat /\
    (countb is_add_ok t1 = 1%nat ->
       fst r1 = Raise (ValueError msg) /\
       present adw_id (snd r1) = true /\
       r2 = (Raise (ValueError msg),
             {| trees := trees (snd r1); env_local := env_local (snd r1);
                trace := trace (snd r1) ++
                  [ELog INFO ("Worktree already exists at "
                              +:+ get_worktree_path ext adw_id)] |})).
Proof.
  intros Hbad r1 r2.
  assert (Hports : allocate_ports adw_id
                   = Raise (ValueError
                              ("invalid literal for int() with base 16: "
                               +:+ PyStr.repr (hex_prefix adw_id)))).
  { unfold allocate_ports. rewrite Hbad. reflexivity. }
  set (msg := "invalid literal for int() with base 16: "
              +:+ PyStr.repr (hex_prefix adw_id)) in *.
  assert (Hfirst :
    exists t1,
      trace (snd r1) = trace w ++ t1 /\
      (forall x, fst r1 <> Ok x) /\
      countb is_copy t1 = 0%nat /\ countb is_write t1 = 0%nat /\
      countb is_npm_install t1 = 0%nat /\
      (countb is_add_ok t1 = 1%nat ->
         fst r1 = Raise (ValueError msg) /\ present adw_id (snd r1) = true)).
  { subst r2 r1.
    destruct w as [tr el tc]. unfold create_worktree. run_manager.
    rewrite Hports.
    destruct tr as [m|]; run_manager; [destruct (m !! adw_id) eqn:Hm|];
      rewrite ?lookup_empty; run_manager.
    1:{ eexists. split; [reflexivity|]. count_events.
        split; [discriminate|]. do 3 (split; [reflexivity|]).
        discriminate. }
    all: case_run ext "git"; run_manager;
      (eexists; split; [rewrite <- ?app_assoc; reflexivity|]);
      count_events;
      repeat match goal with
             | H : (_ =? 0) = _ |- _ => rewrite !H; clear H
             end;
      count_events;
      (split; [discriminate|]); (do 3 (split; [reflexivity|]));
      try discriminate;
      intros _; (split; [reflexivity|]);
      cbn [fmap option_fmap option_map];
      rewrite ?lookup_insert_eq, ?bool_decide_is_Some_Some; reflexivity. }
  destruct Hfirst as (t1 & Ht1 & Hnever & Hc & Hw & Hn & Hadd).
  exists t1, msg. split; [exact Ht1|]. split; [exact Hports|].
  split; [exact Hnever|]. split; [exact Hc|]. split; [exact Hw|].
  split; [exact Hn|].
  intros Hone. destruct (Hadd Hone) as [Hres Hpresent].
  split; [exact Hres|]. split; [exact Hpresent|].
  unfold r2. rewrite (create_present ext adw_id branch_name _ Hpresent).
  unfold existing. rewrite Hports. reflexivity.
Qed.

End CreateFails.

Lemma X8_failed_checkout_leaves_nothing_witness :
  let r := create_worktree (failing "git") "a1b2c3d4" "feature" no_trees in
  fst r = Raise (CalledProcessError 1
                   ["git"; "worktree"; "add"; "/repo/trees/a1b2c3d4";
                    "feature"])
  /\ present "a1b2c3d4" (snd r) = false /\ trees (snd r) = Some ∅.
Proof.
  split; [vm_compute; reflexivity|].
  destruct (X8_failed_checkout_leaves_nothing (failing "git") "a1b2c3d4"
              "feature" no_trees 1
              ["worktree"; "add"; "/repo/trees/a1b2c3d4"; "feature"]
              ltac:(vm_compute; reflexivity))
    as (t' & _ & _ & Htrees & Hpresent & _).
  split; [exact Hpresent | exact Htrees].
Defined.

Lemma X9_failed_install_is_not_retried_witness :
  let r1 := create_worktree (failing "npm") "a1b2c3d4" "feature" no_trees in
  let r2 := create_worktree (failing "npm") "a1b2c3d4" "feature" (snd r1) in
  fst r1 = Raise (CalledProcessError 1 ["npm"; "install"])
  /\ fst r2 = Ok ("/repo/trees/a1b2c3d4",
                  {| backend := 3109; frontend := 3209 |}).
Proof.
  split; [vm_compute; reflexivity|].
  destruct (X9_failed_install_is_not_retried (failing "npm") "a1b2c3d4"
              "feature" no_trees 1 ["install"]
              ltac:(vm_compute; reflexivity))
    as (_ & _ & _ & ports & Hports & Hsecond).
  rewrite Hsecond. cbn [fst]. vm_compute in Hports.
  injection Hports as <-. reflexivity.
Defined.

Lemma X10_identifier_checked_after_checkout_witness :
  let r1 := create_worktree project "test-run" "feature" no_trees in
  int16 (hex_prefix "test-run") = None
  /\ exists msg, fst r1 = Raise (ValueError msg)
                 /\ present "test-run" (snd r1) = true.
Proof.
  split; [reflexivity|].
  destruct (X10_identifier_checked_after_checkout project "test-run"
              "feature" no_trees eq_refl)
    as (t1 & msg & Ht1 & _ & _ & _ & _ & _ & Hadd).
  assert (Hone : countb is_add_ok t1 = 1%nat).
  { vm_compute in Ht1. subst t1. vm_compute. reflexivity. }
  destruct (Hadd Hone) as (Hres & Hpresent & _).
  exists msg. split; [exact Hres | exact Hpresent].
Defined.

(* ------------------------------------------------------------------- *)
(* Removal                                                             *)
(* ------------------------------------------------------------------- *)

(** X11: [remove_worktree] on a path that does not exist logs one line,
    runs nothing and returns [False].  On a path that exists it runs
    [git worktree remove <path> --force] once: with exit status 0 it
    returns [True], the path is gone, and removing it again returns
    [False]; with any other status it raises CalledProcessError and the
    directory listing is as before. *)
Theorem X11_remove_worktree_outcomes (ext : Ext) (adw_id : string)
    (w : World) :
  let r := remove_worktree ext adw_id w in
  let path := get_worktree_path ext adw_id in
  (present adw_id w = false ->
     r = (Ok false,
          {| trees := trees w; env_local := env_local w;
             trace := trace w ++
               [ELog INFO ("Worktree " +:+ path +:+ " does not exist")] |}))
  /\ (present adw_id w = true ->
      exists rc t',
        trace (snd r) = trace w ++ t' /\
        removals t' = [(path, rc)] /\
        (rc = 0 ->
           fst r = Ok true /\ present adw_id (snd r) = false /\
           fst (remove_worktree ext adw_id (snd r)) = Ok false) /\
        (rc <> 0 ->
           fst r = Raise (CalledProcessError rc
                            ["git"; "worktree"; "remove"; path; "--force"]) /\
           trees (snd r) = trees w)).
Proof.
  destruct w as [tr el tc]. unfold remove_worktree. run_manager.
  destruct tr as [m|]; run_manager.
  2:{ split; [reflexivity | discriminate]. }
  destruct (m !! adw_id) eqn:Hm; run_manager.
  2:{ split; [reflexivity | discriminate]. }
  split; [discriminate|]. intros _.
  case_run ext "git"; run_manager; exists rc; eexists;
    (split; [rewrite <- ?app_assoc; reflexivity|]);
    read_removals; (split; [reflexivity|]).
  - apply Z.eqb_eq in Heqb. split; [|intros Hne; contradiction].
    intros _. cbn [fmap option_fmap option_map].
    rewrite lookup_delete_eq. run_manager. repeat split; reflexivity.
  - apply Z.eqb_neq in Heqb. split; [intros Heq; contradiction|].
    intros _. split; reflexivity.
Qed.

(* ------------------------------------------------------------------- *)
(* What a sweep leaves in place                                        *)
(* ------------------------------------------------------------------- *)

Section SweepKeeps.

Context (ext : Ext) (now : float) (max_age_hours : Z).

(** One round of the sweep does not raise, and changes the directory
    listing at most by deleting the entry it looked at, and only when that
    entry is a stale directory. *)
Lemma cleanup_step_keeps (name : string) (cleaned : Z) (w : World)
    (m : gmap string Entry) :
  trees w = Some m ->
  let r := cleanup_step ext now (max_age_hours * 3600) name cleaned w in
  exists m' c,
    trees (snd r) = Some m' /\ fst r = Ok c /\
    env_local (snd r) = env_local w /\
    (forall k, m' !! k = m !! k
               \/ (is_stale now max_age_hours m k = true /\ m' !! k = None)).
Proof.
  destruct w as [tr el tc]. cbn [trees]. intros ->.
  run_manager.
  destruct (m !! name) as [[d mt]|] eqn:Hm; run_manager.
  2:{ exists m. eexists. repeat split; auto. }
  destruct d; run_manager.
  2:{ exists m. eexists. repeat split; auto. }
  destruct (PyFloat.gt_int (now - mt) (max_age_hours * 3600)) eqn:Hage;
    run_manager.
  2:{ exists m. eexists. repeat split; auto. }
  rewrite Hm. run_manager.
  case_run ext "git"; run_manager.
  - exists (delete name m). eexists.
    split; [reflexivity|]. split; [reflexivity|]. split; [reflexivity|].
    intros k. destruct (decide (k = name)) as [->|Hk].
    + right. split; [|apply lookup_delete_eq].
      unfold is_stale. rewrite Hm. cbn [is_dir st_mtime andb].
      rewrite Hage. reflexivity.
    + left. apply lookup_delete_ne. congruence.
  - exists m. eexists. repeat split; auto.
Qed.

Lemma cleanup_loop_keeps (names : list string) :
  forall (cleaned : Z) (w : World) (m : gmap string Entry),
  trees w = Some m ->
  let r := cleanup_loop ext now (max_age_hours * 3600) names cleaned w in
  exists m',
    trees (snd r) = Some m' /\
    env_local (snd r) = env_local w /\
    (forall k, m' !! k = m !! k
               \/ (is_stale now max_age_hours m k = true /\ m' !! k = None)).
Proof.
  induction names as [|name names IH]; intros cleaned w m Hm.
  - exists m. cbn. auto.
  - cbn [cleanup_loop]. unfold bind_ok.
    destruct (cleanup_step_keeps name cleaned w m Hm)
      as (m1 & c & Hm1 & Hres & Hel1 & Hkeep1).
    destruct (cleanup_step ext now (max_age_hours * 3600) name cleaned w)
      as [r1 w1]. cbn [fst snd] in *. subst r1.
    destruct (IH c w1 m1 Hm1) as (m2 & Hm2 & Hel2 & Hkeep2).
    exists m2. split; [exact Hm2|]. split; [congruence|].
    intros k. destruct (Hkeep2 k) as [Hsame | [Hstale Hgone]].
    + rewrite Hsame. apply Hkeep1.
    + destruct (Hkeep1 k) as [Hsame1 | [Hstale1 Hgone1]].
      * right. split; [|exact Hgone].
        unfold is_stale in *. rewrite <- Hsame1. exact Hstale.
      * right. split; assumption.
Qed.

End SweepKeeps.

Lemma countb_le_length {A : Type} (f : A -> bool) (l : list A) :
  (countb f l <= length l)%nat.
Proof.
  unfold countb. induction l as [|x l IH]; cbn [List.filter length]; [lia|].
  destruct (f x); cbn [length]; lia.
Qed.

(** X12: a sweep touches stale directories only.  After
    [cleanup_stale_worktrees] every entry that was not a stale directory
    when the sweep started is still there, unchanged; an entry is either
    as before or gone; [.env.local] is untouched; and the number returned
    lies between 0 and the number of stale directories. *)
Theorem X12_sweep_keeps_fresh_entries (ext : Ext) (max_age_hours : Z)
    (w : World) (m : gmap string Entry) :
  trees w = Some m ->
  let now := time_time ext (trace w) in
  let candidates :=
    List.filter (is_stale now max_age_hours m) (fst (iterdir w)) in
  let r := cleanup_stale_worktrees ext max_age_hours w in
  exists m' cleaned,
    trees (snd r) = Some m' /\ fst r = Ok cleaned /\
    (forall k, is_stale now max_age_hours m k = false ->
               m' !! k = m !! k) /\
    (forall k, m' !! k = m !! k \/ m' !! k = None) /\
    env_local (snd r) = env_local w /\
    0 <= cleaned <= Z.of_nat (length candidates).
Proof.
  destruct w as [tr el tc]. cbn [trees]. intros ->. cbn zeta.
  unfold cleanup_stale_worktrees, trees_exists, iterdir, bind, ret.
  cbn [trees trace fst snd]. rewrite bool_decide_is_Some_Some. cbn [negb].
  set (w0 := {| trees := Some m; env_local := el; trace := tc |}).
  destruct (cleanup_loop_keeps ext (time_time ext tc) max_age_hours
              (map_to_list m).*1 0 w0 m eq_refl)
    as (m' & Hm' & Hel & Hkeep).
  destruct (cleanup_loop_spec ext (time_time ext tc) max_age_hours
              (map_to_list m).*1 (NoDup_fst_map_to_list m) 0 w0 m eq_refl)
    as (t' & m'' & _ & _ & _ & Hrem & Hres).
  exists m', (0 + Z.of_nat (removed_ok t')).
  split; [exact Hm'|]. split; [exact Hres|].
  split.
  { intros k Hfresh. destruct (Hkeep k) as [Hsame | [Hstale _]];
      [exact Hsame | congruence]. }
  split.
  { intros k. destruct (Hkeep k) as [Hsame | [_ Hgone]]; auto. }
  split; [exact Hel|].
  assert (Hlen : length (removals t')
                 = length (List.filter (is_stale (time_time ext tc)
                                          max_age_hours m)
                             (map_to_list m).*1)).
  { rewrite <- (length_map fst (removals t')), Hrem, length_map.
    reflexivity. }
  pose proof (countb_le_length (fun r : string * Z => snd r =? 0)
                (removals t')) as Hle.
  unfold removed_ok. rewrite <- Hlen. lia.
Qed.

Lemma X12_sweep_keeps_fresh_entries_witness :
  let r := cleanup_stale_worktrees project 24 four_entries in
  exists m',
    trees (snd r) = Some m' /\
    m' !! "cccc2222" = Some {| is_dir := true; st_mtime := 99999%float |}
    /\ m' !! "README" = Some {| is_dir := false; st_mtime := 0%float |}.
Proof.
  destruct (X12_sweep_keeps_fresh_entries project 24 four_entries _ eq_refl)
    as (m' & cleaned & Hm' & _ & Hfresh & _).
  exists m'. split; [exact Hm'|].
  split; rewrite Hfresh; vm_compute; reflexivity.
Defined.

(* ------------------------------------------------------------------- *)
(* The list of worktrees                                               *)
(* ------------------------------------------------------------------- *)

Lemma prefix_app (p s : string) :
  String.prefix p s = true -> exists rest, s = p +:+ rest.
Proof.
  revert s. induction p as [|a p IH]; intros [|b s]; simpl;
    try discriminate.
  - intros _. exists "". reflexivity.
  - intros _. exists (String b s). reflexivity.
  - destruct (ascii_dec a b) as [->|]; [|discriminate].
    intros Hp. destruct (IH s Hp) as [rest ->]. exists rest. reflexivity.
Qed.

Lemma prefix_empty (p : string) : p <> "" -> String.prefix p "" = false.
Proof. destruct p; [congruence | reflexivity]. Qed.

Lemma after_space_worktree (line : string) :
  String.prefix "worktree " line = true ->
  after_space line = inr (substring 9 (String.length line - 9) line).
Proof.
  intros Hp. destruct (prefix_app _ _ Hp) as [rest ->].
  simpl. change ("" +:+ rest) with rest.
  rewrite Nat.sub_0_r, substring_0_all. reflexivity.
Qed.

Lemma after_space_head (line : string) :
  String.prefix "HEAD " line = true -> exists v, after_space line = inr v.
Proof.
  intros Hp. destruct (prefix_app _ _ Hp) as [rest ->].
  exists rest. reflexivity.
Qed.

Lemma after_space_branch (line : string) :
  String.prefix "branch " line = true -> exists v, after_space line = inr v.
Proof.
  intros Hp. destruct (prefix_app _ _ Hp) as [rest ->].
  exists rest. reflexivity.
Qed.

Lemma dict_falsy_no_path (d : gmap string Value) :
  dict_truthy d = false -> path_str d = None.
Proof.
  unfold dict_truthy. intros Hd. apply Nat.ltb_ge in Hd.
  assert (Hempty : d = ∅) by (apply map_size_empty_iff; lia).
  subst d. reflexivity.
Qed.

Lemma seen_flush (worktrees : list (gmap string Value))
    (current : gmap string Value) :
  omap path_str (if dict_truthy current then worktrees ++ [current]
                 else worktrees)
  = seen (worktrees, current).
Proof.
  unfold seen. cbn [fst snd].
  destruct (dict_truthy current) eqn:Hc; [reflexivity|].
  rewrite omap_app. cbn [omap list_omap].
  rewrite (dict_falsy_no_path _ Hc), app_nil_r. reflexivity.
Qed.

Lemma seen_insert (worktrees : list (gmap string Value))
    (current : gmap string Value) (key : string) (v : Value) :
  key <> "path" ->
  seen (worktrees, <[key := v]> current) = seen (worktrees, current).
Proof.
  intros Hk. unfold seen. cbn [fst snd]. rewrite !omap_app.
  cbn [omap list_omap]. unfold path_str.
  rewrite lookup_insert_ne by exact Hk. reflexivity.
Qed.

(** One line: it never raises, and it adds the path of a [worktree] line
    and nothing else. *)
Lemma parse_line_seen (st : list (gmap string Value) * gmap string Value)
    (line : string) :
  exists st',
    parse_line st line = inr st' /\
    seen st' = seen st ++ option_list (worktree_line_path line).
Proof.
  destruct st as [worktrees current]. unfold parse_line, worktree_line_path.
  destruct (String.prefix "worktree " line) eqn:Hw.
  { rewrite (after_space_worktree line Hw). eexists. split; [reflexivity|].
    unfold seen at 1. cbn [fst snd]. rewrite omap_app, seen_flush.
    cbn [omap list_omap option_list]. unfold path_str.
    rewrite lookup_singleton_eq. reflexivity. }
  cbn [option_list]. rewrite app_nil_r.
  destruct (String.prefix "HEAD " line) eqn:Hh.
  { destruct (after_space_head line Hh) as [v ->].
    eexists. split; [reflexivity|]. apply seen_insert. discriminate. }
  destruct (String.prefix "branch " line) eqn:Hb.
  { destruct (after_space_branch line Hb) as [v ->].
    eexists. split; [reflexivity|]. apply seen_insert. discriminate. }
  destruct (String.eqb line "detached").
  - eexists. split; [reflexivity|]. apply seen_insert. discriminate.
  - eexists. split; reflexivity.
Qed.

Lemma parse_lines_seen (lines : list string) :
  forall st,
  exists st',
    parse_lines lines st = inr st' /\
    seen st' = seen st ++ omap worktree_line_path lines.
Proof.
  induction lines as [|line lines IH]; intros st.
  - exists st. split; [reflexivity|]. cbn. rewrite app_nil_r. reflexivity.
  - cbn [parse_lines].
    destruct (parse_line_seen st line) as (st1 & -> & Hseen1).
    destruct (IH st1) as (st2 & Hst2 & Hseen2).
    exists st2. split; [exact Hst2|].
    rewrite Hseen2, Hseen1, <- app_assoc. f_equal.
    cbn [omap list_omap]. destruct (worktree_line_path line); reflexivity.
Qed.

Lemma parse_line_path_is_str
    (st st' : list (gmap string Value) * gmap string Value) (line : string) :
  parse_line st line = inr st' ->
  Forall path_is_str (fst st ++ [snd st]) ->
  Forall path_is_str (fst st' ++ [snd st']).
Proof.
  destruct st as [worktrees current]. unfold parse_line. cbn [fst snd].
  intros Hline Hwf.
  assert (Hflush : Forall path_is_str
            (if dict_truthy current then worktrees ++ [current]
             else worktrees)).
  { destruct (dict_truthy current); [exact Hwf|].
    apply Forall_app in Hwf as [Hws _]. exact Hws. }
  apply Forall_app in Hwf as [Hws Hcur].
  apply (proj1 (Forall_singleton _ _)) in Hcur.
  assert (Hins : forall key v, key <> "path" ->
            Forall path_is_str (worktrees ++ [<[key := v]> current])).
  { intros key v Hk. apply Forall_app. split; [exact Hws|].
    apply (proj2 (Forall_singleton _ _)). unfold path_is_str.
    rewrite lookup_insert_ne by exact Hk. exact Hcur. }
  destruct (String.prefix "worktree " line).
  { destruct (after_space line); [discriminate|].
    injection Hline as <-. cbn [fst snd]. apply Forall_app.
    split; [exact Hflush|]. apply (proj2 (Forall_singleton _ _)).
    unfold path_is_str.
    rewrite lookup_singleton_eq. discriminate. }
  destruct (String.prefix "HEAD " line).
  { destruct (after_space line); [discriminate|].
    injection Hline as <-. apply Hins. discriminate. }
  destruct (String.prefix "branch " line).
  { destruct (after_space line); [discriminate|].
    injection Hline as <-. apply Hins. discriminate. }
  destruct (String.eqb line "detached"); injection Hline as <-.
  - apply Hins. discriminate.
  - apply Forall_app. split; [exact Hws|].
    apply (proj2 (Forall_singleton _ _)), Hcur.
Qed.

Lemma parse_lines_path_is_str (lines : list string) :
  forall st st',
  parse_lines lines st = inr st' ->
  Forall path_is_str (fst st ++ [snd st]) ->
  Forall path_is_str (fst st' ++ [snd st']).
Proof.
  induction lines as [|line lines IH]; intros st st'; cbn [parse_lines].
  - intros [= <-]. auto.
  - destruct (parse_line st line) as [e|st1] eqn:Hline; [discriminate|].
    intros Hrest Hwf. apply (IH st1 st' Hrest).
    exact (parse_line_path_is_str st st1 line Hline Hwf).
Qed.

(** The filter never raises on such dicts and keeps, in order, those
    whose path starts with [trees_dir]. *)
Lemma adw_worktrees_paths (trees_dir : string)
    (worktrees : list (gmap string Value)) :
  trees_dir <> "" ->
  Forall path_is_str worktrees ->
  exists kept,
    adw_worktrees trees_dir worktrees = inr kept /\
    paths kept
    = map (fun p => Some (VStr p))
          (List.filter (String.prefix trees_dir) (omap path_str worktrees)).
Proof.
  intros Hdir. induction worktrees as [|w rest IH]; intros Hwf.
  - exists []. split; reflexivity.
  - apply Forall_cons in Hwf as [Hw Hrest].
    destruct (IH Hrest) as (kept & Hkept & Hpaths).
    cbn [adw_worktrees omap list_omap]. unfold under_trees, path_str.
    unfold path_is_str in Hw. rewrite Hkept.
    destruct (w !! "path") as [[p|]|] eqn:Hp.
    + cbn [List.filter]. destruct (String.prefix trees_dir p).
      * eexists. split; [reflexivity|]. unfold paths in *. cbn [map].
        rewrite Hp, Hpaths. reflexivity.
      * exists kept. split; [reflexivity | exact Hpaths].
    + congruence.
    + rewrite (prefix_empty _ Hdir). exists kept.
      split; [reflexivity | exact Hpaths].
Qed.

Lemma trees_dir_not_empty (ext : Ext) : get_trees_dir ext <> "".
Proof.
  unfold get_trees_dir, path_join. simpl.
  destruct (String.eqb (get_project_root ext) "."); [discriminate|].
  destruct (String.eqb (get_project_root ext) "/");
    destruct (get_project_root ext); discriminate.
Qed.

(** X13: [list_worktrees] either raises the CalledProcessError of a git
    call that exited with a status other than 0, or returns a list; no
    output of git makes it raise on its own.  The list has one dict for
    each line of the stripped output that starts with ["worktree "] and
    whose remaining text starts with the [trees/] directory, in the order
    of the lines, with that remaining text as its path. *)
Theorem X13_list_worktrees_paths (ext : Ext)
    (git_stdout : list Event -> string) (w : World) :
  let r := list_worktrees ext git_stdout w in
  let lines :=
    PyStr.split "010"%char (PyStr.strip (git_stdout (trace w))) in
  (exists rc cmd,
     rc <> 0 /\ fst r = inl (Raised (CalledProcessError rc cmd)))
  \/ (exists found,
        fst r = inr found /\
        paths found
        = map (fun p => Some (VStr p))
              (List.filter (String.prefix (get_trees_dir ext))
                 (omap worktree_line_path lines))).
Proof.
  cbn zeta. destruct w as [tr el tc]. unfold list_worktrees.
  cbv beta iota zeta delta [bind ret run_checked emit fst snd trace].
  set (rc := subprocess_run ext tc _ _).
  destruct (rc =? 0) eqn:Hrc; cbv beta iota.
  2:{ left. exists rc. eexists. split; [|reflexivity].
      apply Z.eqb_neq, Hrc. }
  right. unfold parse_worktree_list.
  set (lines := PyStr.split _ _).
  destruct (parse_lines_seen lines ([], ∅))
    as ([worktrees current] & Hst & Hseen).
  pose proof (parse_lines_path_is_str lines _ _ Hst) as Hwf.
  rewrite Hst. cbn [fst snd] in Hwf.
  assert (Hwf' : Forall path_is_str
            (if dict_truthy current then worktrees ++ [current]
             else worktrees)).
  { assert (Hall : Forall path_is_str (worktrees ++ [current])).
    { apply Hwf. apply (proj2 (Forall_singleton _ _)). unfold path_is_str.
      rewrite lookup_empty. discriminate. }
    destruct (dict_truthy current); [exact Hall|].
    apply Forall_app in Hall as [Hws _]. exact Hws. }
  destruct (adw_worktrees_paths (get_trees_dir ext) _
              (trees_dir_not_empty ext) Hwf') as (kept & Hkept & Hpaths).
  exists kept. split; [exact Hkept|].
  rewrite Hpaths, seen_flush, Hseen. reflexivity.
Qed.

(** The output of git for the main checkout and two worktrees, one of
    them detached: the main checkout is left out. *)
Example list_worktrees_of_a_project :
  let nl := String "010"%char "" in
  let out :=
    "worktree /repo" +:+ nl +:+ "HEAD 1111" +:+ nl
    +:+ "branch refs/heads/main" +:+ nl +:+ nl
    +:+ "worktree /repo/trees/a1b2c3d4" +:+ nl +:+ "HEAD 2222" +:+ nl
    +:+ "branch refs/heads/feature" +:+ nl +:+ nl
    +:+ "worktree /repo/trees/0001cafe" +:+ nl +:+ "HEAD 3333" +:+ nl
    +:+ "detached" +:+ nl +:+ nl in
  parse_worktree_list "/repo/trees" out
  = inr [ {[ "path" := VStr "/repo/trees/a1b2c3d4"; "head" := VStr "2222";
             "branch" := VStr "refs/heads/feature" ]};
          {[ "path" := VStr "/repo/trees/0001cafe"; "head" := VStr "3333";
             "detached" := VTrue ]} ].
Proof. vm_compute. reflexivity. Qed.

(* ------------------------------------------------------------------- *)
(* Creation that succeeds                                              *)
(* ------------------------------------------------------------------- *)

(** X26: what a creation that returns has done.  Let the identifier be
    the name of a directory entry (not empty, not [.] or [..], without
    [/]), so that its worktree path is an entry of [trees/].  When
    [create_worktree] returns for such an identifier whose worktree path
    did not exist, it returns that path and the ports of the allocator,
    the path exists afterwards (the checkout having created it), and
    besides logging it has done exactly this, in this order:
    [git worktree add <path> <branch>] with exit status 0, the copy of
    [.env.local] into the worktree if the project has one, the write of
    [.ports.env] with the three port settings, and [npm install] inside
    the worktree with exit status 0. *)
Theorem X26_fresh_creation_in_order (ext : Ext)
    (adw_id branch_name : string) (w : World) (path : string)
    (ports : PortAllocation) :
  path_component adw_id = true ->
  present adw_id w = false ->
  let r := create_worktree ext adw_id branch_name w in
  fst r = Ok (path, ports) ->
  exists t',
    trace (snd r) = trace w ++ t' /\
    path = get_worktree_path ext adw_id /\
    allocate_ports adw_id = Ok ports /\
    present adw_id (snd r) = true /\
    effects t'
    = [ERun ["git"; "worktree"; "add"; path; branch_name]
         (get_project_root ext) 0]
      ++ (if env_local w
          then [ECopy (path_join (get_project_root ext) ".env.local")
                  (path_join path ".env.local")]
          else [])
      ++ [EWrite (path_join path ".ports.env")
            ["PORT=" +:+ str_Z (backend ports);
             "VITE_PORT=" +:+ str_Z (frontend ports);
             "DEV_SERVER_PORT=" +:+ str_Z (frontend ports)];
          ERun ["npm"; "install"] path 0].
Proof.
  intros _.
  destruct w as [tr el tc]. unfold create_worktree, present. run_manager.
  destruct tr as [m|]; run_manager; [destruct (m !! adw_id) eqn:Hm|];
    rewrite ?lookup_empty; run_manager; try discriminate; intros _.
  all: rewrite ?lookup_empty, ?bool_decide_is_Some_None; run_manager.
  all: case_run ext "git"; run_manager; [|discriminate];
    destruct (allocate_ports adw_id) as [ports0|err] eqn:Hports;
    run_manager; [|discriminate];
    destruct el; run_manager; case_run ext "npm"; run_manager;
    try discriminate;
    intros [= <- <-];
    repeat match goal with
           | H : (?x =? 0) = true |- _ => apply Z.eqb_eq in H; rewrite H
           end;
    (eexists; split; [rewrite <- ?app_assoc; reflexivity|]);
    (split; [reflexivity|]); (split; [reflexivity|]);
    cbn [fmap option_fmap option_map];
    rewrite ?lookup_insert_eq, ?bool_decide_is_Some_Some;
    split; reflexivity.
Qed.

Lemma X26_fresh_creation_in_order_witness :
  let r := create_worktree project "a1b2c3d4" "feature" no_trees in
  fst r = Ok ("/repo/trees/a1b2c3d4", {| backend := 3109; frontend := 3209 |})
  /\ exists t',
       trace (snd r) = t' /\
       effects t'
       = [ERun ["git"; "worktree"; "add"; "/repo/trees/a1b2c3d4"; "feature"]
            "/repo" 0;
          ECopy "/repo/.env.local" "/repo/trees/a1b2c3d4/.env.local";
          EWrite "/repo/trees/a1b2c3d4/.ports.env"
            ["PORT=3109"; "VITE_PORT=3209"; "DEV_SERVER_PORT=3209"];
          ERun ["npm"; "install"] "/repo/trees/a1b2c3d4" 0].
Proof.
  split; [vm_compute; reflexivity|].
  destruct (X26_fresh_creation_in_order project "a1b2c3d4" "feature"
              no_trees "/repo/trees/a1b2c3d4"
              {| backend := 3109; frontend := 3209 |}
              eq_refl eq_refl ltac:(vm_compute; reflexivity))
    as (t' & Ht & _ & _ & _ & Heff).
  exists t'. split; [exact Ht|]. rewrite Heff. vm_compute. reflexivity.
Defined.

End WorktreeOpsProofs.

(* ===================================================================== *)
(* Properties of the resolution loops and of the driver                  *)
(* ===================================================================== *)

Module AdwTestProofs.

Import AdwTest Scenarios.
Local Open Scope list_scope.

(* ------------------------------------------------------------------- *)
(* Traces only grow, and by which events                               *)
(* ------------------------------------------------------------------- *)

Lemma calls_app (cmd : string) (t1 t2 : list Event) :
  calls cmd (t1 ++ t2) = (calls cmd t1 + calls cmd t2)%nat.
Proof. unfold calls. rewrite List.filter_app, length_app. reflexivity. Qed.

Lemma new_events_app (w t : World) : new_events w (w ++ t) = t.
Proof. apply drop_app_length. Qed.

Lemma adds_ret {A : Type} (P : Event -> bool) (a : A) : adds P (ret a).
Proof. intros w. exists []. rewrite app_nil_r. auto. Qed.

Lemma adds_bind {A B : Type} (P : Event -> bool) (m : State World A)
    (k : A -> State World B) :
  adds P m -> (forall a, adds P (k a)) -> adds P (bind m k).
Proof.
  intros Hm Hk w. unfold bind.
  destruct (Hm w) as (t1 & H1 & P1). destruct (m w) as [a w1].
  destruct (Hk a w1) as (t2 & H2 & P2). cbn [snd] in *. subst w1.
  exists (t1 ++ t2). rewrite H2, app_assoc, forallb_app, P1, P2. auto.
Qed.

Lemma adds_emit (P : Event -> bool) (e : Event) :
  P e = true -> adds P (emit e).
Proof. intros He w. exists [e]. cbn. rewrite He. auto. Qed.

Lemma adds_exec (P : Event -> bool) (ext : Ext) (req : AgentTemplateRequest) :
  (forall resp, P (EExec req resp) = true) -> adds P (exec ext req).
Proof. intros He w. eexists [_]. cbn. rewrite He. auto. Qed.

Lemma adds_read {A : Type} (P : Event -> bool) (f : World -> A) :
  adds P (fun w => (f w, w)).
Proof. intros w. exists []. rewrite app_nil_r. auto. Qed.

Lemma adds_weaken {A : Type} (P Q : Event -> bool) (m : State World A) :
  (forall e, P e = true -> Q e = true) -> adds P m -> adds Q m.
Proof.
  intros HPQ Hm w. destruct (Hm w) as (t & Ht & HP). exists t. split; [exact Ht|].
  apply forallb_forall. intros e He. apply HPQ.
  apply (proj1 (forallb_forall P t) HP e He).
Qed.

(** Events that are no call of [cmd] do not count as calls of [cmd]. *)
Lemma calls_none (cmd : string) (P : Event -> bool) (t : list Event) :
  (forall e, P e = true -> is_call cmd e = false) ->
  forallb P t = true -> calls cmd t = 0%nat.
Proof.
  intros HP. induction t as [|e t IH]; [reflexivity|].
  cbn [forallb]. intros [He Ht]%andb_true_iff.
  unfold calls in *. cbn [List.filter]. rewrite (HP e He). apply IH, Ht.
Qed.

Ltac adds_step :=
  lazymatch goal with
  | |- adds _ (ret _) => apply adds_ret
  | |- adds _ (bind _ _) => apply adds_bind; [|intros ?]
  | |- adds _ (emit _) => apply adds_emit; reflexivity
  | |- adds _ (log _ _) => apply adds_emit; reflexivity
  | |- adds _ (make_issue_comment _ _) => apply adds_emit; reflexivity
  | |- adds _ (exec _ _) => apply adds_exec; intros ?; reflexivity
  | |- adds _ (fun w => (_, w)) => apply adds_read
  | |- adds _ (if ?c then _ else _) => destruct c
  | |- adds _ (match ?x with (_, _) => _ end) => destruct x
  | |- adds _ (match ?x with inl _ => _ | inr _ => _ end) => destruct x
  | |- adds _ (match ?x with [] => _ | _ :: _ => _ end) => destruct x
  | |- adds _ (match ?x with Some _ => _ | None => _ end) => destruct x
  | |- adds _ (match ?x with Continue => _ | Break _ => _ end) => destruct x
  end.

Ltac adds_auto := repeat (first [assumption | adds_step]).

Section PrimaryAdds.

Context (ext : Ext) (adw_id issue_number : string) (max_attempts : nat).

Lemma adds_resolve_loop (failed_tests : list TestResult) :
  forall idx total iteration resolved unresolved,
    adds not_e2e_call
      (resolve_loop ext failed_tests idx total adw_id issue_number iteration
         resolved unresolved).
Proof.
  induction failed_tests as [|test rest IH]; intros; cbn [resolve_loop];
    adds_auto; apply IH.
Qed.

Lemma adds_loop_body (v : Vars) :
  adds not_e2e_call (loop_body ext adw_id issue_number max_attempts v).
Proof.
  unfold loop_body, run_tests, parse_test_results, resolve_failed_tests.
  adds_auto; apply adds_resolve_loop.
Qed.

Lemma adds_while_loop (fuel : nat) :
  forall v, adds not_e2e_call
              (while_loop ext fuel adw_id issue_number max_attempts v).
Proof.
  induction fuel as [|fuel IH]; intros v; cbn [while_loop]; adds_auto.
  - apply adds_loop_body.
  - apply IH.
Qed.

Lemma adds_run_tests_with_resolution_exit :
  adds not_e2e_call
    (run_tests_with_resolution_exit ext adw_id issue_number max_attempts).
Proof.
  unfold run_tests_with_resolution_exit. adds_auto. apply adds_while_loop.
Qed.

Lemma adds_run_tests_with_resolution :
  adds not_e2e_call
    (run_tests_with_resolution ext adw_id issue_number max_attempts).
Proof.
  unfold run_tests_with_resolution. adds_auto.
  apply adds_run_tests_with_resolution_exit.
Qed.

End PrimaryAdds.

Section MainAdds.

Context (ext : Ext) (issue_number adw_id branch_name : string).

Lemma adds_main_announce :
  adds not_e2e_call (main_announce issue_number adw_id).
Proof. unfold main_announce. adds_auto. Qed.

Lemma adds_main_report results passed_count failed_count :
  adds not_e2e_call
    (main_report ext issue_number adw_id results passed_count failed_count).
Proof. unfold main_report. adds_auto. Qed.

Lemma adds_run (cmd : list string) : adds not_e2e_call (run ext cmd).
Proof. intros w. eexists [_]. split; reflexivity. Qed.

Lemma adds_git_commit (message : string) :
  adds not_e2e_call (git_commit ext message).
Proof. unfold git_commit. adds_auto; try apply adds_run. Qed.

Lemma adds_git_push : adds not_e2e_call (git_push ext branch_name).
Proof. unfold git_push. adds_auto; try apply adds_run. Qed.

Lemma adds_main_finish passed_count failed_count e2e :
  adds not_e2e_call
    (main_finish ext issue_number adw_id branch_name passed_count
       failed_count e2e).
Proof.
  unfold main_finish. destruct e2e as [[e2e_results p] f].
  adds_auto; first [apply adds_git_commit | apply adds_git_push].
Qed.

End MainAdds.

(* ------------------------------------------------------------------- *)
(* One round of the primary loop                                       *)
(* ------------------------------------------------------------------- *)

Ltac run_flow :=
  cbv beta iota zeta delta
    [loop_body run_tests parse_test_results resolve_failed_tests
     e2e_loop_body run_e2e_tests resolve_failed_e2e_tests
     bind ret log emit make_issue_comment exec fst snd
     attempt results passed_count failed_count test_response
     e2e_attempt e2e_results e2e_passed_count e2e_failed_count negb].

Ltac elem_of_trace :=
  repeat first [apply list_elem_of_here | apply list_elem_of_further].

Lemma resolved_in_app (t1 t2 : list Event) :
  resolved_in (t1 ++ t2) = (resolved_in t1 + resolved_in t2)%nat.
Proof. unfold resolved_in. rewrite List.filter_app, length_app. reflexivity. Qed.

(** Counts of a trace given as explicit events followed by a rest. *)
Ltac count_trace :=
  unfold verifier_calls, remediator_calls, e2e_verifier_calls,
    e2e_remediator_calls in *;
  rewrite ?calls_app, ?resolved_in_app;
  cbn [calls resolved_in List.filter is_call command_of slash_command
       success length andb String.eqb Ascii.eqb Bool.eqb].

(** The events a run added, and their counts. *)
Ltac read_trace :=
  rewrite <- ?app_assoc, ?new_events_app; count_trace;
  cbn [app first_call slash_command String.eqb Ascii.eqb Bool.eqb].

Section Primary.

Context (ext : Ext) (adw_id issue_number : string) (max_attempts : nat).

(** The remediation pass: one remediator call per failing test, no
    verifier call, and the resolved counter grows by the number of calls
    that reported success. *)
Lemma resolve_loop_spec (failed_tests : list TestResult) :
  forall idx total iteration resolved unresolved w,
  let '((resolved', unresolved'), w') :=
    resolve_loop ext failed_tests idx total adw_id issue_number iteration
      resolved unresolved w in
  exists t,
    w' = w ++ t /\
    verifier_calls t = 0%nat /\
    remediator_calls t = length failed_tests /\
    resolved' = (resolved + resolved_in t)%nat.
Proof.
  induction failed_tests as [|test rest IH];
    intros idx total iteration resolved unresolved w.
  - exists []. cbn. rewrite app_nil_r, Nat.add_0_r. auto.
  - cbn [resolve_loop]. run_flow.
    set (r := execute_template ext _ _).
    destruct (success r) eqn:Hr; cbv beta iota;
      match goal with
      | |- context [resolve_loop ?e ?l ?i ?n ?a ?s ?it ?x ?y ?w0] =>
          specialize (IH i n it x y w0);
          destruct (resolve_loop e l i n a s it x y w0) as [[res' unres'] w']
      end;
      destruct IH as (t & -> & Hv & Hc & Hres);
      eexists; (split; [rewrite <- !app_assoc; reflexivity|]);
      count_trace; rewrite ?Hr; cbn [length andb];
      unfold verifier_calls, remediator_calls in *;
      rewrite ?Hv, ?Hc, ?Hres; repeat split; lia.
Qed.

(** All the ways through one round of the primary loop. *)
Ltac body_cases v :=
  let att := fresh "att" in
  let rs := fresh "rs" in
  let err := fresh "err" in
  let nres := fresh "nres" in
  let nunres := fresh "nunres" in
  let w3 := fresh "w3" in
  let t3 := fresh "t3" in
  destruct v as [att ? ? ? ?];
  run_flow;
  set (r0 := execute_template ext _ _) in *;
  destruct (success r0) eqn:Hsucc; cbv beta iota;
  [ unfold failed_count_of;
    destruct (parse_json_tests ext (output r0)) as [err|rs] eqn:Hparse;
    cbv beta iota;
    [ change (0 =? 0)%nat with true; cbv beta iota
    | destruct (length rs - length (List.filter passed rs) =? 0)%nat
        eqn:Hfailed; cbv beta iota;
      [ | destruct (att + 1 =? max_attempts)%nat eqn:Hlast; cbv beta iota;
          [ | match goal with
              | |- context [resolve_loop ?e ?l ?i ?n ?a ?s ?it ?x ?y ?w0] =>
                  let H := fresh "Hpass" in
                  pose proof (resolve_loop_spec l i n it x y w0) as H;
                  destruct (resolve_loop e l i n a s it x y w0)
                    as [[nres nunres] w3];
                  destruct H as (t3 & -> & Hpv & Hpc & Hpr)
              end;
              cbv beta iota;
              destruct (0 <? nres)%nat eqn:Hpos; cbv beta iota ] ] ]
  | ].

(** What every round does: it calls the verifier exactly once, first of
    all agent calls, keeps its answer and counts the attempt. *)
Lemma loop_body_trace (v : Vars) (w : World) :
  let '((flow, v'), w') :=
    loop_body ext adw_id issue_number max_attempts v w in
  exists r t,
    w' = w ++ t /\
    test_response v' = Some r /\
    attempt v' = (attempt v + 1)%nat /\
    (forall t2, first_call "/test" (t ++ t2) = Some r) /\
    verifier_calls t = 1%nat.
Proof.
  body_cases v; exists r0; eexists;
    (split; [rewrite <- ?app_assoc; reflexivity|]);
    (split; [reflexivity|]); (split; [reflexivity|]);
    (split; [intros t2; reflexivity|]);
    count_trace; rewrite ?Hpv; reflexivity.
Qed.

(** A verifier call that itself failed ends the loop at once. *)
Lemma loop_body_error (v : Vars) (w : World) :
  let '((flow, v'), w') :=
    loop_body ext adw_id issue_number max_attempts v w in
  forall r, test_response v' = Some r -> success r = false ->
  flow = Break ExitError /\
  v' = {| attempt := attempt v + 1; results := results v;
          passed_count := passed_count v; failed_count := failed_count v;
          test_response := Some r |} /\
  verifier_calls (new_events w w') = 1%nat /\
  remediator_calls (new_events w w') = 0%nat /\
  ELog ERROR ("Error running tests: " +:+ output r) ∈ new_events w w' /\
  EComment issue_number
    (format_issue_message adw_id AGENT_TESTER
       ("Error running tests: " +:+ output r) None) ∈ new_events w w'.
Proof.
  body_cases v; cbn [test_response]; intros r [= <-] Hr; try congruence.
  read_trace. repeat split; elem_of_trace.
Qed.

(** A round whose verifier ran and left no failing test ends the loop as
    converged, without remediation; an output that does not parse is such a
    round, with no outcomes at all and the parse error logged. *)
Lemma loop_body_converged (v : Vars) (w : World) :
  let '((flow, v'), w') :=
    loop_body ext adw_id issue_number max_attempts v w in
  forall r, test_response v' = Some r -> success r = true ->
  failed_count_of ext (output r) = 0%nat ->
  flow = Break ExitAllPassed /\
  failed_count v' = 0%nat /\
  remediator_calls (new_events w w') = 0%nat /\
  resolved_in (new_events w w') = 0%nat /\
  (forall e, parse_json_tests ext (output r) = inl e ->
     results v' = [] /\ passed_count v' = 0%nat /\
     ELog ERROR ("Error parsing test results: " +:+ e) ∈ new_events w w').
Proof.
  body_cases v; cbn [test_response failed_count results passed_count];
    intros r [= <-] Hr; try congruence;
    unfold failed_count_of; rewrite Hparse; intros Hzero;
    try (apply Nat.eqb_neq in Hfailed; contradiction);
    read_trace.
  - do 4 (split; [reflexivity|]). intros e [= <-].
    do 2 (split; [reflexivity|]). elem_of_trace.
  - apply Nat.eqb_eq in Hfailed.
    split; [reflexivity|]. split; [exact Hfailed|].
    do 2 (split; [reflexivity|]). intros e He. discriminate He.
Qed.

(** A round goes on to another attempt only after a remediation that
    resolved something, and never on the last attempt; a remediation pass
    that resolved nothing ends the loop. *)
Lemma loop_body_no_progress (v : Vars) (w : World) :
  let '((flow, v'), w') :=
    loop_body ext adw_id issue_number max_attempts v w in
  (flow = Continue ->
     (1 <= resolved_in (new_events w w'))%nat /\
     (attempt v + 1)%nat <> max_attempts) /\
  ((1 <= remediator_calls (new_events w w'))%nat ->
   resolved_in (new_events w w') = 0%nat ->
   flow = Break ExitNothingResolved).
Proof.
  body_cases v; read_trace; rewrite ?Hpc, <- ?Hpr;
    cbn [attempt]; (split; [intros Hflow | intros Hcalls Hres]);
    try discriminate; try lia; try reflexivity.
  all: first [apply Nat.ltb_lt in Hpos | apply Nat.ltb_ge in Hpos];
    apply Nat.eqb_neq in Hlast; try split; lia.
Qed.

(** With a remediator that never succeeds, a pass resolves nothing. *)
Lemma resolve_loop_all_fail (failed_tests : list TestResult) :
  (forall h req, slash_command req = "/resolve_failed_test" ->
                 success (execute_template ext h req) = false) ->
  forall idx total iteration resolved unresolved w,
    fst (fst (resolve_loop ext failed_tests idx total adw_id issue_number
                iteration resolved unresolved w)) = resolved.
Proof.
  intros Hfail.
  induction failed_tests as [|test rest IH];
    intros idx total iteration resolved unresolved w; [reflexivity|].
  cbn [resolve_loop]. run_flow. rewrite Hfail by reflexivity. apply IH.
Qed.

(** The round of a run whose verifier always reports the same single
    failing test and whose remediator never succeeds: it ends the loop,
    on the last attempt before any remediation, otherwise after the one
    remediator call that resolved nothing. *)
Lemma loop_body_stuck (t : TestResult) (v : Vars) (w : World) :
  (forall h, let r := execute_template ext h (test_request adw_id) in
             success r = true /\ parse_json_tests ext (output r) = inr [t]) ->
  passed t = false ->
  (forall h req, slash_command req = "/resolve_failed_test" ->
                 success (execute_template ext h req) = false) ->
  let '((flow, v'), w') :=
    loop_body ext adw_id issue_number max_attempts v w in
  let last := (attempt v + 1 =? max_attempts)%nat in
  flow = Break (if last then ExitMaxAttempts else ExitNothingResolved) /\
  failed_count v' = 1%nat /\ results v' = [t] /\
  verifier_calls (new_events w w') = 1%nat /\
  remediator_calls (new_events w w') = (if last then 0 else 1)%nat.
Proof.
  intros Hver Hpassed Hrem.
  destruct v as [att ? ? ? ?]. run_flow.
  set (r0 := execute_template ext _ _) in *.
  assert (Hr0 : success r0 = true
                /\ parse_json_tests ext (output r0) = inr [t]).
  { subst r0. match goal with |- context [execute_template ext ?h _] =>
                exact (Hver h) end. }
  destruct Hr0 as [Hsucc Hparse].
  rewrite Hsucc, Hparse. cbn [List.filter length]. rewrite Hpassed.
  cbn [length Nat.sub Nat.eqb negb List.filter].
  destruct (att + 1 =? max_attempts)%nat eqn:Hlast; cbv beta iota.
  - read_trace. repeat split; reflexivity.
  - match goal with
    | |- context [resolve_loop ?e ?l ?i ?n ?a ?s ?it ?x ?y ?w0] =>
        pose proof (resolve_loop_all_fail l Hrem i n it x y w0) as Hnone;
        pose proof (resolve_loop_spec l i n it x y w0) as Hpass;
        destruct (resolve_loop e l i n a s it x y w0) as [[nres nunres] w3];
        destruct Hpass as (t3 & -> & Hpv & Hpc & Hpr)
    end.
    cbn [fst] in Hnone. subst nres. cbn [Nat.ltb Nat.leb]. cbv beta iota.
    read_trace. rewrite ?Hpv, ?Hpc. repeat split; reflexivity.
Qed.

(** A round that breaks ends the [while] loop with what it left. *)
Lemma while_loop_break (fuel : nat) (v : Vars) (w : World)
    (e : Exit) (v' : Vars) (w' : World) :
  (attempt v < max_attempts)%nat ->
  loop_body ext adw_id issue_number max_attempts v w = ((Break e, v'), w') ->
  while_loop ext (S fuel) adw_id issue_number max_attempts v w
  = ((e, v'), w').
Proof.
  intros Hlt Hbody. cbn [while_loop].
  apply Nat.ltb_lt in Hlt. rewrite Hlt. unfold bind. rewrite Hbody.
  reflexivity.
Qed.

(** The loop never runs out of fuel: any amount of at least
    [max_attempts - attempt] gives the same run. *)
Lemma while_loop_fuel (fuel1 : nat) :
  forall fuel2 v w,
    (max_attempts - attempt v <= fuel1)%nat ->
    (max_attempts - attempt v <= fuel2)%nat ->
    while_loop ext fuel1 adw_id issue_number max_attempts v w
    = while_loop ext fuel2 adw_id issue_number max_attempts v w.
Proof.
  induction fuel1 as [|fuel1 IH]; intros fuel2 v w H1 H2.
  - assert (Hge : (attempt v <? max_attempts)%nat = false)
      by (apply Nat.ltb_ge; lia).
    destruct fuel2; cbn [while_loop]; rewrite ?Hge; reflexivity.
  - cbn [while_loop].
    destruct (attempt v <? max_attempts)%nat eqn:Hlt.
    + destruct fuel2 as [|fuel2].
      { apply Nat.ltb_lt in Hlt. lia. }
      cbn [while_loop]. rewrite Hlt. unfold bind.
      pose proof (loop_body_trace v w) as Htrace.
      destruct (loop_body ext adw_id issue_number max_attempts v w)
        as [[flow v'] w'].
      destruct Htrace as (r & t & _ & _ & Hatt & _).
      destruct flow; [|reflexivity].
      apply IH; lia.
    + destruct fuel2; cbn [while_loop]; rewrite ?Hlt; reflexivity.
Qed.

(** The run starts with a round of the loop when one attempt at least is
    allowed; whatever follows only adds to its trace. *)
Lemma run_starts_with_round (w : World) :
  (1 <= max_attempts)%nat ->
  let v0 := {| attempt := 0; results := []; passed_count := 0;
               failed_count := 0; test_response := None |} in
  exists t,
    snd (run_tests_with_resolution_exit ext adw_id issue_number
           max_attempts w)
    = snd (loop_body ext adw_id issue_number max_attempts v0 w) ++ t.
Proof.
  intros Hn v0. unfold run_tests_with_resolution_exit. fold v0.
  unfold bind at 1.
  rewrite (while_loop_fuel max_attempts (S (max_attempts - 1)))
    by (cbn [attempt v0]; lia).
  cbn [while_loop]. cbn [attempt v0].
  rewrite (proj2 (Nat.ltb_lt 0 max_attempts)) by lia.
  unfold bind at 1.
  destruct (loop_body ext adw_id issue_number max_attempts v0 w)
    as [[flow v'] w1]. cbn [snd].
  assert (Htail : forall (r : Exit * Vars) (t2 : list Event),
    exists t,
      snd (((if (attempt (snd r) =? max_attempts)%nat
                && (0 <? failed_count (snd r))%nat
             then
               log WARNING ("Reached maximum retry attempts ("
                            +:+ str_nat max_attempts +:+ ") with "
                            +:+ str_nat (failed_count (snd r))
                            +:+ " failures remaining") ;;
               make_issue_comment issue_number
                 (format_issue_message adw_id "ops"
                    ("Reached maximum retry attempts ("
                     +:+ str_nat max_attempts +:+ ") with "
                     +:+ str_nat (failed_count (snd r)) +:+ " failures")
                    None)
             else ret tt) ;; ret r) (w1 ++ t2)) = w1 ++ t).
  { intros r t2.
    destruct ((attempt (snd r) =? max_attempts)%nat
              && (0 <? failed_count (snd r))%nat).
    - eexists. run_flow. rewrite <- !app_assoc. reflexivity.
    - exists t2. reflexivity. }
  destruct flow as [|e].
  - destruct (adds_while_loop ext adw_id issue_number max_attempts
                (max_attempts - 1) v' w1) as (t2 & Ht2 & _).
    destruct (while_loop ext (max_attempts - 1) adw_id issue_number
                max_attempts v' w1) as [r w2].
    cbn [snd] in Ht2. subst w2. apply Htail.
  - change (ret (e, v') w1) with ((e, v'), w1).
    cbv beta iota. pose proof (Htail (e, v') []) as Hnil.
    rewrite app_nil_r in Hnil. exact Hnil.
Qed.

(** A run whose first round breaks returns what that round left; the
    closing report adds no agent call. *)
Lemma run_first_round_breaks (w : World) (e : Exit) (v' : Vars)
    (w1 : World) :
  (1 <= max_attempts)%nat ->
  loop_body ext adw_id issue_number max_attempts
    {| attempt := 0; results := []; passed_count := 0;
       failed_count := 0; test_response := None |} w
  = ((Break e, v'), w1) ->
  exists fin,
    run_tests_with_resolution_exit ext adw_id issue_number max_attempts w
    = ((e, v'), w1 ++ fin) /\
    (forall cmd, calls cmd fin = 0%nat).
Proof.
  intros Hn Hbody. unfold run_tests_with_resolution_exit.
  unfold bind at 1.
  rewrite (while_loop_fuel max_attempts (S (max_attempts - 1)))
    by (cbn [attempt]; lia).
  rewrite (while_loop_break _ _ _ e v' w1) by (cbn [attempt]; lia || exact Hbody).
  cbn [snd].
  destruct ((attempt v' =? max_attempts)%nat && (0 <? failed_count v')%nat).
  - eexists. run_flow. rewrite <- !app_assoc. split; [reflexivity|].
    intros cmd. reflexivity.
  - exists []. run_flow. rewrite app_nil_r. split; [reflexivity|].
    intros cmd. reflexivity.
Qed.

End Primary.

(* ------------------------------------------------------------------- *)
(* The primary tier                                                    *)
(* ------------------------------------------------------------------- *)

(** C2: for every retry ceiling N >= 1, if the first verifier call of the
    run ran the tests and reports no failing test, the loop returns after
    exactly 1 verifier call and 0 remediator calls, as converged, with a
    failed count of 0. *)
Theorem C2_first_green_converges (ext : Ext) (adw_id issue_number : string)
    (max_attempts : nat) (w : World) (r : AgentPromptResponse) :
  (1 <= max_attempts)%nat ->
  first_call "/test"
    (new_events w
       (snd (run_tests_with_resolution_exit ext adw_id issue_number
               max_attempts w))) = Some r ->
  success r = true ->
  failed_count_of ext (output r) = 0%nat ->
  let '((exit, v), w') :=
    run_tests_with_resolution_exit ext adw_id issue_number max_attempts w in
  verifier_calls (new_events w w') = 1%nat /\
  remediator_calls (new_events w w') = 0%nat /\
  exit = ExitAllPassed /\ state_of_exit exit = Converged /\
  failed_count v = 0%nat /\
  run_tests_with_resolution ext adw_id issue_number max_attempts w
  = ((results v, passed_count v, 0%nat, Some r), w').
Proof.
  intros Hn Hfirst Hsucc Hzero.
  destruct (run_starts_with_round ext adw_id issue_number max_attempts w Hn)
    as (t' & Hstart).
  pose proof (loop_body_trace ext adw_id issue_number max_attempts
                {| attempt := 0; results := []; passed_count := 0;
                   failed_count := 0; test_response := None |} w) as Htrace.
  pose proof (loop_body_converged ext adw_id issue_number max_attempts
                {| attempt := 0; results := []; passed_count := 0;
                   failed_count := 0; test_response := None |} w) as Hconv.
  destruct (loop_body ext adw_id issue_number max_attempts _ w)
    as [[flow v1] w1] eqn:Hbody.
  destruct Htrace as (r0 & t & -> & Hresp & Hatt & Hfirst0 & Hcalls).
  cbn [snd] in Hstart. rewrite Hstart, <- app_assoc, new_events_app in Hfirst.
  rewrite Hfirst0 in Hfirst. injection Hfirst as ->.
  destruct (Hconv r Hresp Hsucc Hzero) as (-> & Hfc & Hrem & _).
  destruct (run_first_round_breaks ext adw_id issue_number max_attempts
              w _ _ _ Hn Hbody) as (fin & Hrun & Hfin).
  unfold run_tests_with_resolution, bind. rewrite Hrun.
  rewrite new_events_app in Hrem.
  rewrite <- app_assoc, new_events_app.
  unfold verifier_calls, remediator_calls in *.
  rewrite !calls_app, !Hfin, Hcalls, Hrem. cbn [snd ret].
  rewrite Hfc, Hresp. repeat split; reflexivity.
Qed.

Lemma C2_first_green_converges_witness :
  let '((exit, v), w') :=
    run_tests_with_resolution_exit green "a1b2c3d4" "42" 4 [] in
  verifier_calls w' = 1%nat /\ remediator_calls w' = 0%nat /\
  exit = ExitAllPassed /\ failed_count v = 0%nat.
Proof.
  pose proof (C2_first_green_converges green "a1b2c3d4" "42" 4 []
                (reply "[]" true)) as H.
  destruct (run_tests_with_resolution_exit green "a1b2c3d4" "42" 4 [])
    as [[exit v] w'] eqn:Hrun.
  vm_compute in Hrun. injection Hrun as <- <- <-.
  destruct H as (Hv & Hr & He & _ & Hf & _);
    [lia | reflexivity | reflexivity | reflexivity |].
  repeat split; assumption.
Defined.

(** C1: a remediation pass that resolves nothing ends the primary loop at
    once, as exhausted, with no further verifier call; concretely, for a
    verifier that always reports the same single failing test and a
    remediator that always fails, a run with a ceiling of N >= 1 attempts
    makes exactly 1 verifier call (and, when N >= 2, exactly 1 remediator
    call, after which the loop is left because nothing was resolved). *)
Theorem C1_nothing_resolved_stops (ext : Ext) (adw_id issue_number : string)
    (max_attempts : nat) (w : World) (t : TestResult) :
  (forall h, let r := execute_template ext h (test_request adw_id) in
             success r = true /\ parse_json_tests ext (output r) = inr [t]) ->
  passed t = false ->
  (forall h req, slash_command req = "/resolve_failed_test" ->
                 success (execute_template ext h req) = false) ->
  (1 <= max_attempts)%nat ->
  (let '((exit, v), w') :=
     run_tests_with_resolution_exit ext adw_id issue_number max_attempts w in
   verifier_calls (new_events w w') = 1%nat /\
   state_of_exit exit = Exhausted /\
   attempt v = 1%nat /\ failed_count v = 1%nat /\
   ((2 <= max_attempts)%nat ->
      exit = ExitNothingResolved /\
      remediator_calls (new_events w w') = 1%nat))
  /\
  (forall v0 w0,
     let '((flow, v1), w1) :=
       loop_body ext adw_id issue_number max_attempts v0 w0 in
     (1 <= remediator_calls (new_events w0 w1))%nat ->
     resolved_in (new_events w0 w1) = 0%nat ->
     flow = Break ExitNothingResolved /\
     verifier_calls (new_events w0 w1) = 1%nat /\
     (forall fuel, (attempt v0 < max_attempts)%nat ->
        while_loop ext (S fuel) adw_id issue_number max_attempts v0 w0
        = ((ExitNothingResolved, v1), w1))).
Proof.
  intros Hver Hpassed Hrem Hn. split.
  - pose proof (loop_body_stuck ext adw_id issue_number max_attempts t
                  {| attempt := 0; results := []; passed_count := 0;
                     failed_count := 0; test_response := None |} w
                  Hver Hpassed Hrem) as Hstuck.
    pose proof (loop_body_trace ext adw_id issue_number max_attempts
                  {| attempt := 0; results := []; passed_count := 0;
                     failed_count := 0; test_response := None |} w)
      as Htrace.
    destruct (loop_body ext adw_id issue_number max_attempts _ w)
      as [[flow v1] w1] eqn:Hbody.
    destruct Htrace as (r0 & t0 & -> & _ & Hatt & _ & _).
    cbn [attempt] in Hstuck, Hatt.
    destruct Hstuck as (-> & Hfc & _ & Hcalls & Hremc).
    destruct (run_first_round_breaks ext adw_id issue_number max_attempts
                w _ _ _ Hn Hbody) as (fin & -> & Hfin).
    rewrite new_events_app in Hcalls, Hremc.
    rewrite <- app_assoc, new_events_app.
    unfold verifier_calls, remediator_calls in *.
    rewrite !calls_app, !Hfin, Hcalls, Hremc, Hatt, Hfc.
    split; [reflexivity|].
    split; [destruct (0 + 1 =? max_attempts)%nat; reflexivity|].
    split; [reflexivity|]. split; [reflexivity|].
    intros H2. assert (Hne : (0 + 1 =? max_attempts)%nat = false)
      by (apply Nat.eqb_neq; lia).
    rewrite Hne. split; reflexivity.
  - intros v0 w0.
    pose proof (loop_body_no_progress ext adw_id issue_number max_attempts
                  v0 w0) as Hnp.
    pose proof (loop_body_trace ext adw_id issue_number max_attempts v0 w0)
      as Htrace.
    destruct (loop_body ext adw_id issue_number max_attempts v0 w0)
      as [[flow v1] w1] eqn:Hbody.
    destruct Htrace as (r0 & t0 & -> & _ & _ & _ & Hcalls).
    intros Hc Hr. destruct Hnp as [_ Hstop].
    rewrite (Hstop Hc Hr) in *. rewrite new_events_app.
    split; [reflexivity|]. split; [exact Hcalls|].
    intros fuel Hlt. apply while_loop_break; assumption.
Qed.

Lemma C1_nothing_resolved_stops_witness :
  let '((exit, v), w') :=
    run_tests_with_resolution_exit stuck "a1b2c3d4" "42" 4 [] in
  verifier_calls w' = 1%nat /\ exit = ExitNothingResolved /\
  remediator_calls w' = 1%nat.
Proof.
  pose proof (C1_nothing_resolved_stops stuck "a1b2c3d4" "42" 4 []
                t1_failed) as H.
  destruct (run_tests_with_resolution_exit stuck "a1b2c3d4" "42" 4 [])
    as [[exit v] w'] eqn:Hrun.
  vm_compute in Hrun. injection Hrun as <- <- <-.
  destruct H as [(Hv & _ & _ & _ & H2) _].
  - intros h. split; reflexivity.
  - reflexivity.
  - intros h req Hreq. cbn. rewrite Hreq. reflexivity.
  - lia.
  - destruct H2 as [He Hr]; [lia|]. repeat split; assumption.
Defined.

(** C5: when the structured-result parser fails on a verifier output,
    [parse_test_results] logs the error and yields no outcomes, passed
    count 0 and failed count 0; a round of the primary loop whose verifier
    ran and gave that output makes no remediator call, counts nothing as
    resolved, and does not abort: the loop is left as converged. *)
Theorem C5_parse_failure_degrades (ext : Ext) (raw e : string) :
  parse_json_tests ext raw = inl e ->
  (forall w,
     parse_test_results ext raw w
     = (([], 0%nat, 0%nat),
        w ++ [ELog ERROR ("Error parsing test results: " +:+ e)]))
  /\
  (forall adw_id issue_number max_attempts v w,
     let '((flow, v'), w') :=
       loop_body ext adw_id issue_number max_attempts v w in
     forall r, test_response v' = Some r -> success r = true ->
     output r = raw ->
     results v' = [] /\ passed_count v' = 0%nat /\ failed_count v' = 0%nat /\
     ELog ERROR ("Error parsing test results: " +:+ e) ∈ new_events w w' /\
     remediator_calls (new_events w w') = 0%nat /\
     resolved_in (new_events w w') = 0%nat /\
     flow = Break ExitAllPassed /\
     (forall x, flow = Break x -> state_of_exit x <> Aborted) /\
     (forall fuel, (attempt v < max_attempts)%nat ->
        while_loop ext (S fuel) adw_id issue_number max_attempts v w
        = ((ExitAllPassed, v'), w'))).
Proof.
  intros Hparse. split.
  - intros w. unfold parse_test_results. rewrite Hparse. reflexivity.
  - intros adw_id issue_number max_attempts v w.
    pose proof (loop_body_converged ext adw_id issue_number max_attempts
                  v w) as Hconv.
    destruct (loop_body ext adw_id issue_number max_attempts v w)
      as [[flow v'] w'] eqn:Hbody.
    intros r Hr Hsucc Hout. subst raw.
    assert (Hzero : failed_count_of ext (output r) = 0%nat)
      by (unfold failed_count_of; rewrite Hparse; reflexivity).
    destruct (Hconv r Hr Hsucc Hzero) as (-> & Hfc & Hrem & Hres & Herr).
    destruct (Herr e Hparse) as (Hrs & Hpc & Hlog).
    split; [exact Hrs|]. split; [exact Hpc|]. split; [exact Hfc|].
    split; [exact Hlog|]. split; [exact Hrem|]. split; [exact Hres|].
    split; [reflexivity|]. split.
    + intros x [= <-]; try discriminate.
    + intros fuel Hlt. apply while_loop_break; assumption.
Qed.

Lemma C5_parse_failure_degrades_witness :
  let '((exit, v), w') :=
    run_tests_with_resolution_exit unparsable "a1b2c3d4" "42" 4 [] in
  parse_json_tests unparsable "Tests were run."
  = inl "Expecting value: line 1 column 1 (char 0)" /\
  exit = ExitAllPassed /\ results v = [] /\ failed_count v = 0%nat /\
  (forall w, fst (parse_test_results unparsable "Tests were run." w)
             = ([], 0%nat, 0%nat)).
Proof.
  pose proof (C5_parse_failure_degrades unparsable "Tests were run."
                "Expecting value: line 1 column 1 (char 0)" eq_refl) as H.
  destruct (run_tests_with_resolution_exit unparsable "a1b2c3d4" "42" 4 [])
    as [[exit v] w'] eqn:Hrun.
  vm_compute in Hrun. injection Hrun as <- <- <-.
  destruct H as [Hp _].
  do 4 (split; [reflexivity|]). intros w. rewrite Hp. reflexivity.
Defined.

(* ------------------------------------------------------------------- *)
(* One round of the end-to-end loop                                    *)
(* ------------------------------------------------------------------- *)

Lemma first_call_skip (cmd : string) (t t2 : list Event) :
  calls cmd t = 0%nat -> first_call cmd (t ++ t2) = first_call cmd t2.
Proof.
  induction t as [|e t IH]; [reflexivity|].
  unfold calls in *. cbn [List.filter app first_call].
  destruct e as [| req resp | | | |]; cbn [is_call command_of]; try exact IH.
  destruct (String.eqb (slash_command req) cmd); [discriminate | exact IH].
Qed.

Section EndToEnd.

Context (ext : Ext) (adw_id issue_number : string) (max_attempts : nat).

(** [run_e2e_tests] either finds no spec file and calls nobody, or calls
    the verifier once, first of all, and returns one outcome; a call that
    itself failed is turned into the failing outcome [e2e_suite]. *)
Lemma run_e2e_tests_spec (w : World) :
  let '(res, w') := run_e2e_tests ext adw_id issue_number w in
  exists t,
    w' = w ++ t /\
    e2e_remediator_calls t = 0%nat /\
    ((res = [] /\
      forall cmd t2, first_call cmd (t ++ t2) = first_call cmd t2) \/
     (exists r0 x,
        res = [x] /\
        (forall t2, first_call "/e2e_test" (t ++ t2) = Some r0) /\
        e2e_verifier_calls t = 1%nat /\
        (success r0 = false ->
           x = e2e_suite_failed ("Test execution error: " +:+ output r0) /\
           ELog ERROR ("Error running E2E tests: " +:+ output r0) ∈ t))).
Proof.
  run_flow.
  destruct (glob_e2e_specs ext w) as [|spec specs]; cbv beta iota.
  - eexists. split; [rewrite <- ?app_assoc; reflexivity|].
    split; [reflexivity|]. left. split; [reflexivity|]. reflexivity.
  - set (r0 := execute_template ext _ _).
    destruct (success r0) eqn:Hsucc; cbv beta iota.
    + destruct (parse_json_dict ext (output r0)) as [e|d]; cbv beta iota;
        [|destruct (e2e_validation_error ext _); cbv beta iota];
        (eexists; split; [rewrite <- ?app_assoc; reflexivity|];
         split; [reflexivity|]; right; exists r0; eexists;
         split; [reflexivity|];
         split; [intros t2; reflexivity|];
         split; [reflexivity|]; intros Hf; congruence).
    + eexists. split; [rewrite <- ?app_assoc; reflexivity|].
      split; [reflexivity|]. right. exists r0. eexists.
      split; [reflexivity|].
      split; [intros t2; reflexivity|].
      split; [reflexivity|]. intros _. split; [reflexivity|]. elem_of_trace.
Qed.

(** A round of the end-to-end loop whose verifier call itself failed: the
    failure is counted as one failing test; on the last attempt the loop
    is left without remediation, on an earlier one the remediator is
    called once on it, and the loop goes on exactly when that call reports
    success. *)
Lemma e2e_loop_body_error (v : E2EVars) (w : World) :
  let '((flow, v'), w') :=
    e2e_loop_body ext adw_id issue_number max_attempts v w in
  forall r, first_call "/e2e_test" (new_events w w') = Some r ->
  success r = false ->
  e2e_results v'
    = [e2e_suite_failed ("Test execution error: " +:+ output r)] /\
  e2e_passed_count v' = 0%nat /\ e2e_failed_count v' = 1%nat /\
  e2e_verifier_calls (new_events w w') = 1%nat /\
  ELog ERROR ("Error running E2E tests: " +:+ output r) ∈ new_events w w' /\
  ((e2e_attempt v + 1)%nat = max_attempts ->
     flow = Break ExitMaxAttempts /\
     e2e_remediator_calls (new_events w w') = 0%nat) /\
  ((e2e_attempt v + 1)%nat <> max_attempts ->
     e2e_remediator_calls (new_events w w') = 1%nat /\
     exists r1,
       first_call "/resolve_failed_e2e_test" (new_events w w') = Some r1 /\
       flow = if success r1 then Continue else Break ExitNothingResolved).
Proof.
  destruct v as [att res0 pc0 fc0].
  cbv beta iota zeta delta
    [e2e_loop_body resolve_failed_e2e_tests bind ret log emit
     make_issue_comment fst snd e2e_attempt e2e_results e2e_passed_count
     e2e_failed_count].
  match goal with
  | |- context [run_e2e_tests ext adw_id issue_number ?w0] =>
      pose proof (run_e2e_tests_spec w0) as Hrun;
      destruct (run_e2e_tests ext adw_id issue_number w0) as [res w1]
  end.
  destruct Hrun
    as (t & -> & Hrem & [[-> Hnone] | (r0 & x & -> & Hfirst & Hver & Hfail)]).
  - cbv beta iota. rewrite <- !app_assoc, new_events_app.
    cbn [app first_call]. intros r Hr. rewrite Hnone in Hr. discriminate Hr.
  - cbv beta iota. cbn [List.filter length].
    assert (Hthis : forall r t',
      first_call "/e2e_test"
        (new_events w
           (w ++ [ELog INFO
                    (nl +:+ "=== E2E Test Run Attempt "
                     +:+ str_nat (att + 1) +:+ "/"
                     +:+ str_nat max_attempts +:+ " ===")] ++ t ++ t'))
      = Some r ->
      success r = false ->
      r = r0 /\
      x = e2e_suite_failed ("Test execution error: " +:+ output r0) /\
      ELog ERROR ("Error running E2E tests: " +:+ output r0) ∈ t).
    { intros r t' Hr Hs. rewrite new_events_app in Hr.
      cbn [app first_call] in Hr. rewrite Hfirst in Hr. injection Hr as <-.
      destruct (Hfail Hs) as [Hx Hlog]. auto. }
    unfold e2e_verifier_calls, e2e_remediator_calls in *.
    destruct (e2e_passed x) eqn:Hp; cbn [length Nat.sub Nat.eqb negb];
      cbv beta iota.
    + intros r Hr Hs. rewrite <- !app_assoc in Hr.
      destruct (Hthis _ _ Hr Hs) as (_ & -> & _). discriminate Hp.
    + destruct (att + 1 =? max_attempts)%nat eqn:Hlast; cbv beta iota.
      * intros r Hr Hs. rewrite <- !app_assoc in Hr.
        destruct (Hthis _ _ Hr Hs) as (-> & -> & Hlog).
        read_trace. rewrite Hver, Hrem.
        do 4 (split; [reflexivity|]).
        split; [apply list_elem_of_further, elem_of_app; left; exact Hlog|].
        split; [intros _; split; reflexivity|].
        intros Hne. apply Nat.eqb_eq in Hlast. contradiction.
      * cbn [resolve_e2e_loop].
        cbv beta iota zeta delta [bind ret log emit make_issue_comment exec].
        set (r1 := execute_template ext _ _).
        destruct (success r1) eqn:Hs1; cbv beta iota;
          cbn [Nat.add Nat.ltb Nat.leb]; cbv beta iota;
          intros r Hr Hs; rewrite <- !app_assoc in Hr;
          destruct (Hthis _ _ Hr Hs) as (-> & -> & Hlog);
          read_trace; rewrite ?Hver, ?Hrem;
          rewrite (first_call_skip _ t) by exact Hrem;
          cbn [app first_call slash_command String.eqb Ascii.eqb Bool.eqb];
          (do 4 (split; [reflexivity|]));
          (split; [apply list_elem_of_further, elem_of_app; left;
                   exact Hlog|]);
          (split; [intros Heq; apply Nat.eqb_neq in Hlast; contradiction|]);
          intros _; (split; [reflexivity|]); exists r1; rewrite Hs1;
          split; reflexivity.
Qed.

End EndToEnd.

(* ------------------------------------------------------------------- *)
(* The driver                                                          *)
(* ------------------------------------------------------------------- *)

Lemma not_e2e_call_calls (t : list Event) :
  forallb not_e2e_call t = true ->
  e2e_verifier_calls t = 0%nat /\ e2e_remediator_calls t = 0%nat.
Proof.
  intros Ht. split; apply (calls_none _ not_e2e_call); try exact Ht;
    intros e He; unfold not_e2e_call in He;
    apply andb_true_iff in He as [H1 H2];
    apply negb_true_iff in H1, H2; assumption.
Qed.

Section Driver.

Context (ext : Ext) (issue_number adw_id branch_name : string).

(** The exit code: 1 when a failure remains in either tier, else 0. *)
Lemma main_finish_code (passed_count failed_count : nat)
    (e2e_results : list E2ETestResult)
    (e2e_passed_count e2e_failed_count : nat) (w : World) :
  fst (main_finish ext issue_number adw_id branch_name passed_count
         failed_count (e2e_results, e2e_passed_count, e2e_failed_count) w)
  = if (0 <? failed_count + e2e_failed_count)%nat then 1 else 0.
Proof.
  unfold main_finish, bind.
  repeat match goal with
         | |- context [match ?m ?x with (_, _) => _ end] => destruct (m x)
         | |- context [if ?c then _ else _] => destruct c
         end; reflexivity.
Qed.

(** [main] is its four blocks around the primary tier. *)
Lemma main_blocks (skip_e2e : bool) (w : World) :
  main ext issue_number adw_id branch_name skip_e2e w
  = let w1 := snd (main_announce issue_number adw_id w) in
    let '((results, passed_count, failed_count, _), w2) :=
      run_tests_with_resolution ext adw_id issue_number
        MAX_TEST_RETRY_ATTEMPTS w1 in
    let w3 := snd (main_report ext issue_number adw_id results passed_count
                     failed_count w2) in
    let '(e2e, w4) :=
      main_e2e ext issue_number adw_id skip_e2e failed_count w3 in
    main_finish ext issue_number adw_id branch_name passed_count
      failed_count e2e w4.
Proof.
  unfold main. unfold bind at 1.
  destruct (main_announce issue_number adw_id w) as [[] w1]. cbn [snd].
  unfold bind at 1.
  destruct (run_tests_with_resolution ext adw_id issue_number
              MAX_TEST_RETRY_ATTEMPTS w1) as [[[[results p] f] resp] w2].
  unfold bind at 1.
  destruct (main_report ext issue_number adw_id results p f w2) as [[] w3].
  cbn [snd]. unfold bind at 1. reflexivity.
Qed.

(** With failing unit tests the end-to-end block only reports the skip. *)
Lemma main_e2e_skipped (skip_e2e : bool) (failed_count : nat) (w : World) :
  (0 < failed_count)%nat ->
  exists t,
    main_e2e ext issue_number adw_id skip_e2e failed_count w
    = (([], 0%nat, 0%nat), w ++ t) /\
    forallb not_e2e_call t = true.
Proof.
  intros Hpos. unfold main_e2e.
  rewrite (proj2 (Nat.ltb_lt 0 failed_count) Hpos).
  eexists. run_flow. rewrite <- !app_assoc. split; reflexivity.
Qed.

End Driver.

(** C4: whenever the primary tier returns a positive failed count, [main]
    makes no call of the end-to-end verifier and no call of the end-to-end
    remediator, and exits with code 1. *)
Theorem C4_e2e_skipped_on_unit_failures (ext : Ext)
    (issue_number adw_id branch_name : string) (skip_e2e : bool)
    (w : World) :
  (0 < returned_failed_count
         (fst (run_tests_with_resolution ext adw_id issue_number
                 MAX_TEST_RETRY_ATTEMPTS
                 (snd (main_announce issue_number adw_id w)))))%nat ->
  let '(code, w') := main ext issue_number adw_id branch_name skip_e2e w in
  e2e_verifier_calls (new_events w w') = 0%nat /\
  e2e_remediator_calls (new_events w w') = 0%nat /\
  code = 1.
Proof.
  intros Hfailed. rewrite main_blocks. cbv zeta.
  destruct (adds_main_announce issue_number adw_id w) as (ta & Ha & Pa).
  rewrite Ha in *.
  destruct (adds_run_tests_with_resolution ext adw_id issue_number
              MAX_TEST_RETRY_ATTEMPTS (w ++ ta)) as (tr & Hr & Pr).
  destruct (run_tests_with_resolution ext adw_id issue_number
              MAX_TEST_RETRY_ATTEMPTS (w ++ ta))
    as [[[[results p] f] resp] w2].
  cbn [fst snd returned_failed_count] in Hfailed, Hr. subst w2.
  destruct (adds_main_report ext issue_number adw_id results p f
              ((w ++ ta) ++ tr)) as (tp & -> & Pp).
  destruct (main_e2e_skipped ext issue_number adw_id skip_e2e f
              (((w ++ ta) ++ tr) ++ tp) Hfailed) as (ts & -> & Ps).
  destruct (adds_main_finish ext issue_number adw_id branch_name p f
              ([], 0%nat, 0%nat) ((((w ++ ta) ++ tr) ++ tp) ++ ts))
    as (tf & Hf & Pf).
  pose proof (main_finish_code ext issue_number adw_id branch_name p f
                [] 0 0 ((((w ++ ta) ++ tr) ++ tp) ++ ts)) as Hcode.
  destruct (main_finish ext issue_number adw_id branch_name p f
              ([], 0%nat, 0%nat) ((((w ++ ta) ++ tr) ++ tp) ++ ts))
    as [code w5].
  cbn [fst snd] in Hf, Hcode. subst w5.
  rewrite <- !app_assoc, new_events_app.
  assert (Hall : forallb not_e2e_call (ta ++ tr ++ tp ++ ts ++ tf) = true).
  { rewrite !forallb_app, Pa, Pr, Pp, Ps, Pf. reflexivity. }
  destruct (not_e2e_call_calls _ Hall) as [Hv Hc].
  split; [exact Hv|]. split; [exact Hc|].
  rewrite Hcode, Nat.add_0_r, (proj2 (Nat.ltb_lt 0 f) Hfailed). reflexivity.
Qed.

Lemma C4_e2e_skipped_on_unit_failures_witness :
  let '(code, w') := main stuck "42" "a1b2c3d4" "issue-42" false [] in
  e2e_verifier_calls w' = 0%nat /\ e2e_remediator_calls w' = 0%nat /\
  code = 1.
Proof.
  pose proof (C4_e2e_skipped_on_unit_failures stuck "42" "a1b2c3d4"
                "issue-42" false []) as H.
  destruct (main stuck "42" "a1b2c3d4" "issue-42" false [])
    as [code w'] eqn:Hmain.
  apply H. vm_compute. lia.
Defined.

Lemma run_tests_with_resolution_eq (ext : Ext)
    (adw_id issue_number : string) (max_attempts : nat) (w : World) :
  run_tests_with_resolution ext adw_id issue_number max_attempts w
  = let '((_, v), w') :=
      run_tests_with_resolution_exit ext adw_id issue_number max_attempts w in
    ((results v, passed_count v, failed_count v, test_response v), w').
Proof.
  unfold run_tests_with_resolution, bind.
  destruct (run_tests_with_resolution_exit ext adw_id issue_number
              max_attempts w) as [[e v] w'].
  reflexivity.
Qed.

(** C10: when the very first verifier call of the primary tier itself
    fails, [run_tests_with_resolution] returns no outcomes, passed count 0
    and failed count 0; [main] therefore goes on into the end-to-end block
    with a failed count of 0, which runs the end-to-end tier unless
    [--skip-e2e] was given; and with no end-to-end failure the exit code
    is 0. *)
Theorem C10_aborted_primary_tier_counts_as_green (ext : Ext)
    (issue_number adw_id branch_name : string) (skip_e2e : bool)
    (w : World) (r : AgentPromptResponse) :
  first_call "/test"
    (new_events (snd (main_announce issue_number adw_id w))
       (snd (run_tests_with_resolution ext adw_id issue_number
               MAX_TEST_RETRY_ATTEMPTS
               (snd (main_announce issue_number adw_id w))))) = Some r ->
  success r = false ->
  fst (run_tests_with_resolution ext adw_id issue_number
         MAX_TEST_RETRY_ATTEMPTS (snd (main_announce issue_number adw_id w)))
  = ([], 0%nat, 0%nat, Some r)
  /\ (exists w3,
        main ext issue_number adw_id branch_name skip_e2e w
        = let '(e2e, w4) :=
            main_e2e ext issue_number adw_id skip_e2e 0 w3 in
          main_finish ext issue_number adw_id branch_name 0 0 e2e w4)
  /\ (forall w3,
        fst (main_e2e ext issue_number adw_id false 0 w3)
        = fst (run_e2e_tests_with_resolution ext adw_id issue_number
                 MAX_E2E_TEST_RETRY_ATTEMPTS
                 (w3 ++ [ELog INFO (nl +:+ "=== Running E2E test suite ===");
                         EComment issue_number
                           (format_issue_message adw_id AGENT_E2E_TESTER
                              "Starting E2E tests..." None)])))
  /\ (forall e2e_results e2e_passed_count w4,
        fst (main_finish ext issue_number adw_id branch_name 0 0
               (e2e_results, e2e_passed_count, 0%nat) w4) = 0).
Proof.
  intros Hfirst Hs.
  set (w1 := snd (main_announce issue_number adw_id w)) in *.
  assert (Hn : (1 <= MAX_TEST_RETRY_ATTEMPTS)%nat) by (cbv; lia).
  assert (Hprimary :
    run_tests_with_resolution ext adw_id issue_number
      MAX_TEST_RETRY_ATTEMPTS w1
    = (([], 0%nat, 0%nat, Some r),
       snd (run_tests_with_resolution ext adw_id issue_number
              MAX_TEST_RETRY_ATTEMPTS w1))).
  { rewrite run_tests_with_resolution_eq in *.
    destruct (run_starts_with_round ext adw_id issue_number
                MAX_TEST_RETRY_ATTEMPTS w1 Hn) as (t' & Hstart).
    pose proof (loop_body_trace ext adw_id issue_number
                  MAX_TEST_RETRY_ATTEMPTS
                  {| attempt := 0; results := []; passed_count := 0;
                     failed_count := 0; test_response := None |} w1)
      as Htrace.
    pose proof (loop_body_error ext adw_id issue_number
                  MAX_TEST_RETRY_ATTEMPTS
                  {| attempt := 0; results := []; passed_count := 0;
                     failed_count := 0; test_response := None |} w1)
      as Herr.
    destruct (loop_body ext adw_id issue_number MAX_TEST_RETRY_ATTEMPTS _ w1)
      as [[flow v1] wb] eqn:Hbody.
    destruct Htrace as (r0 & t & -> & Hresp & _ & Hfirst0 & _).
    cbn [snd] in Hstart.
    assert (Hr0 : r = r0).
    { destruct (run_tests_with_resolution_exit ext adw_id issue_number
                  MAX_TEST_RETRY_ATTEMPTS w1) as [[e v] wr].
      cbn [snd] in Hfirst, Hstart. subst wr.
      rewrite <- app_assoc, new_events_app, Hfirst0 in Hfirst. congruence. }
    subst r0. destruct (Herr r Hresp Hs) as (-> & Hv1 & _).
    destruct (run_first_round_breaks ext adw_id issue_number
                MAX_TEST_RETRY_ATTEMPTS w1 ExitError v1 (w1 ++ t) Hn Hbody)
      as (fin & Hrun & _).
    rewrite Hrun. cbn [snd]. rewrite Hv1. reflexivity. }
  split; [rewrite Hprimary; reflexivity|].
  split.
  { rewrite main_blocks. cbv zeta. fold w1. rewrite Hprimary.
    eexists. reflexivity. }
  split.
  { intros w3. unfold main_e2e. cbn [Nat.ltb Nat.leb].
    cbv beta iota zeta delta [bind ret log emit make_issue_comment fst snd].
    rewrite <- app_assoc. cbn [app].
    destruct (run_e2e_tests_with_resolution ext adw_id issue_number
                MAX_E2E_TEST_RETRY_ATTEMPTS _) as [[[res p] f] w5].
    destruct res; reflexivity. }
  intros e2e_results e2e_passed_count w4. apply main_finish_code.
Qed.

Lemma C10_aborted_primary_tier_counts_as_green_witness :
  fst (run_tests_with_resolution crash "a1b2c3d4" "42"
         MAX_TEST_RETRY_ATTEMPTS (snd (main_announce "42" "a1b2c3d4" [])))
  = ([], 0%nat, 0%nat, Some (reply "claude: command not found" false))
  /\ fst (main crash "42" "a1b2c3d4" "issue-42" false []) = 0.
Proof.
  split.
  - apply (C10_aborted_primary_tier_counts_as_green crash "42" "a1b2c3d4"
             "issue-42" false [] (reply "claude: command not found" false)).
    + vm_compute. reflexivity.
    + reflexivity.
  - vm_compute. reflexivity.
Defined.

(* ------------------------------------------------------------------- *)
(* The whole run of the primary tier                                   *)
(* ------------------------------------------------------------------- *)

Section PrimaryRun.

Context (ext : Ext) (adw_id issue_number : string) (max_attempts : nat).

(** All the ways through one round of the primary loop. *)
Ltac round_cases v :=
  let att := fresh "att" in
  let rs := fresh "rs" in
  let err := fresh "err" in
  let nres := fresh "nres" in
  let nunres := fresh "nunres" in
  let w3 := fresh "w3" in
  let t3 := fresh "t3" in
  destruct v as [att ? ? ? ?];
  run_flow;
  set (r0 := execute_template ext _ _) in *;
  destruct (success r0) eqn:Hsucc; cbv beta iota;
  [ destruct (parse_json_tests ext (output r0)) as [err|rs] eqn:Hparse;
    cbv beta iota;
    [ change (0 =? 0)%nat with true; cbv beta iota
    | destruct (length rs - length (List.filter passed rs) =? 0)%nat
        eqn:Hfailed; cbv beta iota;
      [ | destruct (att + 1 =? max_attempts)%nat eqn:Hlast; cbv beta iota;
          [ | match goal with
              | |- context [resolve_loop ?e ?l ?i ?n ?a ?s ?it ?x ?y ?w0] =>
                  let H := fresh "Hpass" in
                  pose proof (resolve_loop_spec e a s l i n it x y w0) as H;
                  destruct (resolve_loop e l i n a s it x y w0)
                    as [[nres nunres] w3];
                  destruct H as (t3 & -> & Hpv & Hpc & Hpr)
              end;
              cbv beta iota;
              destruct (0 <? nres)%nat eqn:Hpos; cbv beta iota ] ] ]
  | ].

Lemma filter_passed_length (rs : list TestResult) :
  (length (List.filter passed rs) <= length rs)%nat.
Proof.
  induction rs as [|t rs IH]; cbn [List.filter length]; [lia|].
  destruct (passed t); cbn [length]; lia.
Qed.

(** One round: what it leaves, by the way it ends. *)
Lemma loop_body_round (v : Vars) (w : World) :
  let '((flow, v'), w') :=
    loop_body ext adw_id issue_number max_attempts v w in
  attempt v' = (attempt v + 1)%nat /\
  (counts_agree v -> counts_agree v') /\
  match flow with
  | Continue =>
      (0 < failed_count v')%nat /\ attempt v' <> max_attempts
  | Break ExitError =>
      results v' = results v /\ passed_count v' = passed_count v /\
      failed_count v' = failed_count v
  | Break ExitAllPassed => failed_count v' = 0%nat
  | Break ExitMaxAttempts =>
      (0 < failed_count v')%nat /\ attempt v' = max_attempts
  | Break ExitNothingResolved =>
      (0 < failed_count v')%nat /\ attempt v' <> max_attempts
  | Break _ => False
  end.
Proof.
  round_cases v; cbn [attempt results passed_count failed_count];
    (split; [reflexivity|]);
    (split; [unfold counts_agree;
             cbn [attempt results passed_count failed_count];
             try (intros _; pose proof (filter_passed_length rs); lia);
             try (intros _; cbn; lia); try tauto|]);
    try (apply Nat.eqb_neq in Hfailed);
    try (apply Nat.eqb_neq in Hlast);
    try (apply Nat.eqb_eq in Hlast);
    try (apply Nat.eqb_eq in Hfailed);
    repeat split; try reflexivity; try lia; try assumption.
Qed.

(** The loop, from a state a round may start from: the trace grows by
    one verifier call per attempt made, and the way the loop is left tells
    what is returned. *)
Lemma while_loop_run (fuel : nat) :
  forall v w,
  (max_attempts - attempt v <= fuel)%nat -> may_start v -> counts_agree v ->
  let '((e, v'), w') :=
    while_loop ext fuel adw_id issue_number max_attempts v w in
  exists t,
    w' = w ++ t /\
    (verifier_calls t + attempt v)%nat = attempt v' /\
    (attempt v <= max_attempts -> attempt v' <= max_attempts)%nat /\
    counts_agree v' /\
    (e <> ExitWhile -> attempt v < attempt v')%nat /\
    match e with
    | ExitWhile => v' = v /\ t = [] /\ (max_attempts <= attempt v)%nat
    | ExitAllPassed => failed_count v' = 0%nat /\ (1 <= attempt v')%nat
    | ExitError => (failed_count v' = 0%nat <-> attempt v' = 1%nat)
    | ExitMaxAttempts =>
        (0 < failed_count v')%nat /\ attempt v' = max_attempts
    | ExitNothingResolved =>
        (0 < failed_count v')%nat /\ (1 <= attempt v')%nat
        /\ attempt v' <> max_attempts
    | ExitNoResults => False
    end.
Proof.
  induction fuel as [|fuel IH]; intros v w Hfuel Hstart Hcounts;
    cbn [while_loop].
  { exists []. rewrite app_nil_r. split; [reflexivity|].
    split; [reflexivity|]. split; [auto|]. split; [exact Hcounts|].
    cbn [ret]. split; [congruence|].
    split; [reflexivity|]. split; [reflexivity | lia]. }
  destruct (attempt v <? max_attempts)%nat eqn:Hguard.
  2:{ apply Nat.ltb_ge in Hguard. exists []. rewrite app_nil_r.
      split; [reflexivity|].
      split; [reflexivity|]. split; [auto|]. split; [exact Hcounts|].
      cbn [ret]. split; [congruence|].
      split; [reflexivity|]. split; [reflexivity | lia]. }
  apply Nat.ltb_lt in Hguard. unfold bind.
  pose proof (loop_body_round v w) as Hround.
  pose proof (loop_body_trace ext adw_id issue_number max_attempts v w)
    as Htrace.
  destruct (loop_body ext adw_id issue_number max_attempts v w)
    as [[flow v1] w1].
  destruct Htrace as (r & t1 & -> & _ & _ & _ & Hcalls1).
  destruct Hround as (Hatt1 & Hagree1 & Hflow).
  destruct flow as [|e].
  - destruct Hflow as [Hpos Hnotlast].
    assert (Hstart1 : may_start v1).
    { unfold may_start. rewrite Hatt1.
      replace (attempt v + 1 =? 0)%nat with false
        by (symmetry; apply Nat.eqb_neq; lia).
      exact Hpos. }
    specialize (IH v1 (w ++ t1) ltac:(lia) Hstart1 (Hagree1 Hcounts)).
    destruct (while_loop ext fuel adw_id issue_number max_attempts v1
                (w ++ t1)) as [[e2 v2] w2].
    destruct IH as (t2 & -> & Hcalls2 & Hle2 & Hagree2 & Hmore2 & Hexit2).
    exists (t1 ++ t2). rewrite app_assoc. split; [reflexivity|].
    unfold verifier_calls in *. rewrite calls_app.
    split; [lia|]. split; [intros _; apply Hle2; lia|].
    split; [exact Hagree2|]. split; [intros _; lia|].
    destruct e2; try exact Hexit2.
    destruct Hexit2 as (_ & _ & Hge). lia.
  - cbn [ret]. exists t1. split; [reflexivity|].
    unfold verifier_calls in *.
    split; [lia|]. split; [lia|]. split; [exact (Hagree1 Hcounts)|].
    split; [intros _; lia|].
    unfold may_start in Hstart.
    destruct (attempt v =? 0)%nat eqn:Hzero;
      [apply Nat.eqb_eq in Hzero | apply Nat.eqb_neq in Hzero];
      destruct e; try exact Hflow; try contradiction;
      try (destruct Hflow as (Hf1 & Hf2); repeat split; lia);
      try (split; [exact Hflow | lia]);
      destruct Hflow as (_ & _ & Hfc); rewrite Hfc, Hatt1;
      split; intros; lia.
Qed.

(** The whole run of the tier. *)
Lemma run_exit_spec (w : World) :
  let '((e, v), w') :=
    run_tests_with_resolution_exit ext adw_id issue_number max_attempts w in
  verifier_calls (new_events w w') = attempt v /\
  (attempt v <= max_attempts)%nat /\
  counts_agree v /\
  (e <> ExitWhile -> 1 <= attempt v)%nat /\
  match e with
  | ExitWhile =>
      max_attempts = 0%nat /\ w' = w /\
      v = {| attempt := 0; results := []; passed_count := 0;
             failed_count := 0; test_response := None |}
  | ExitAllPassed => failed_count v = 0%nat /\ (1 <= attempt v)%nat
  | ExitError => (failed_count v = 0%nat <-> attempt v = 1%nat)
  | ExitMaxAttempts => (0 < failed_count v)%nat /\ attempt v = max_attempts
  | ExitNothingResolved =>
      (0 < failed_count v)%nat /\ (1 <= attempt v)%nat
      /\ attempt v <> max_attempts
  | ExitNoResults => False
  end.
Proof.
  unfold run_tests_with_resolution_exit. unfold bind at 1.
  set (v0 := {| attempt := 0; results := []; passed_count := 0;
                failed_count := 0; test_response := None |}).
  pose proof (while_loop_run max_attempts v0 w) as Hloop.
  destruct (while_loop ext max_attempts adw_id issue_number max_attempts
              v0 w) as [[e v] w1].
  destruct Hloop as (t & -> & Hcalls & Hle & Hagree & Hmore & Hexit);
    [cbn; lia | reflexivity | split; reflexivity |].
  cbn [attempt v0] in Hcalls, Hle, Hmore, Hexit. cbn [snd].
  assert (Hfin : exists fin,
    ((if (attempt v =? max_attempts)%nat && (0 <? failed_count v)%nat
      then
        log WARNING ("Reached maximum retry attempts ("
                     +:+ str_nat max_attempts +:+ ") with "
                     +:+ str_nat (failed_count v)
                     +:+ " failures remaining") ;;
        make_issue_comment issue_number
          (format_issue_message adw_id "ops"
             ("Reached maximum retry attempts (" +:+ str_nat max_attempts
              +:+ ") with " +:+ str_nat (failed_count v) +:+ " failures")
             None)
      else ret tt) ;; ret (e, v)) (w ++ t) = ((e, v), (w ++ t) ++ fin)
    /\ verifier_calls fin = 0%nat /\
    ((attempt v =? max_attempts)%nat && (0 <? failed_count v)%nat = false ->
     fin = [])).
  { destruct ((attempt v =? max_attempts)%nat && (0 <? failed_count v)%nat).
    - eexists. run_flow. rewrite <- !app_assoc.
      split; [reflexivity|]. split; [reflexivity | discriminate].
    - exists []. run_flow. rewrite app_nil_r. repeat split; reflexivity. }
  destruct Hfin as (fin & -> & Hfin & Hnone).
  rewrite <- app_assoc, new_events_app.
  unfold verifier_calls in *. rewrite calls_app, Hfin.
  split; [lia|]. split; [apply Hle; lia|]. split; [exact Hagree|].
  split; [intros He; specialize (Hmore He); lia|].
  destruct e; try exact Hexit.
  destruct Hexit as (-> & -> & Hzero).
  assert (Hn : max_attempts = 0%nat) by (cbn in Hzero; lia).
  split; [exact Hn|]. split; [|reflexivity].
  rewrite Hnone; [rewrite !app_nil_r; reflexivity|].
  cbn [failed_count v0 Nat.ltb Nat.leb]. apply andb_false_r.
Qed.

End PrimaryRun.

(** X14: the primary tier is bounded by its ceiling: a run of
    [run_tests_with_resolution] with a ceiling of N attempts calls the
    verifier exactly as many times as it counts attempts, which is at most
    N and, for N >= 1, at least once; with N = 0 it does nothing at all
    and returns no outcomes, the counts 0 and 0, and no response. *)
Theorem X14_primary_tier_bounded (ext : Ext) (adw_id issue_number : string)
    (max_attempts : nat) (w : World) :
  let '((exit, v), w') :=
    run_tests_with_resolution_exit ext adw_id issue_number max_attempts w in
  verifier_calls (new_events w w') = attempt v /\
  (attempt v <= max_attempts)%nat /\
  ((1 <= max_attempts)%nat -> (1 <= attempt v)%nat) /\
  (max_attempts = 0%nat ->
     run_tests_with_resolution ext adw_id issue_number max_attempts w
     = (([], 0%nat, 0%nat, None), w)).
Proof.
  pose proof (run_exit_spec ext adw_id issue_number max_attempts w) as Hrun.
  rewrite run_tests_with_resolution_eq.
  destruct (run_tests_with_resolution_exit ext adw_id issue_number
              max_attempts w) as [[exit v] w'].
  destruct Hrun as (Hcalls & Hle & _ & Hmore & Hexit).
  split; [exact Hcalls|]. split; [exact Hle|]. split.
  - intros Hn. apply Hmore. intros ->. destruct Hexit as [Hzero _]. lia.
  - intros Hn. destruct exit;
      try (assert (Hone : (1 <= attempt v)%nat) by (apply Hmore; discriminate);
           lia).
    destruct Hexit as (_ & -> & ->). reflexivity.
Qed.

Lemma filter_failed_length (rs : list TestResult) :
  (length (List.filter passed rs)
   + length (List.filter (fun t => negb (passed t)) rs))%nat = length rs.
Proof.
  induction rs as [|t rs IH]; cbn [List.filter length]; [reflexivity|].
  destruct (passed t); cbn [negb length]; lia.
Qed.

(** X15: what the primary tier returns is consistent: in every result of
    [run_tests_with_resolution] the passed count is the number of returned
    outcomes that passed, the failed count the number of those that did
    not, and the two add up to the number of outcomes returned; this holds
    also when the loop was left by an error, with the outcomes of the
    attempt before. *)
Theorem X15_returned_counts_agree (ext : Ext) (adw_id issue_number : string)
    (max_attempts : nat) (w : World) :
  let '((results, passed_count, failed_count, _), _) :=
    run_tests_with_resolution ext adw_id issue_number max_attempts w in
  passed_count = length (List.filter passed results) /\
  failed_count = length (List.filter (fun t => negb (passed t)) results) /\
  (passed_count + failed_count)%nat = length results.
Proof.
  pose proof (run_exit_spec ext adw_id issue_number max_attempts w) as Hrun.
  rewrite run_tests_with_resolution_eq.
  destruct (run_tests_with_resolution_exit ext adw_id issue_number
              max_attempts w) as [[exit v] w'].
  destruct Hrun as (_ & _ & [Hpassed Hsum] & _).
  pose proof (filter_failed_length (results v)) as Hsplit.
  split; [exact Hpassed|]. split; [lia | exact Hsum].
Qed.

(** X16: the three ways the primary tier can return a failed count of 0:
    the last verifier run left no failing test (or did not parse); or the
    very first verifier call itself failed; or the ceiling is 0 and
    nothing was run.  In particular a verifier call that itself fails on a
    later attempt returns the positive failed count of the attempt
    before, and a loop left because of the ceiling or because nothing was
    resolved returns a positive failed count. *)
Theorem X16_green_in_three_ways_only (ext : Ext)
    (adw_id issue_number : string) (max_attempts : nat) (w : World) :
  let '((exit, v), w') :=
    run_tests_with_resolution_exit ext adw_id issue_number max_attempts w in
  (failed_count v = 0%nat <->
     exit = ExitAllPassed
     \/ (exit = ExitError /\ attempt v = 1%nat)
     \/ (exit = ExitWhile /\ max_attempts = 0%nat))
  /\ (exit = ExitError -> (2 <= attempt v)%nat -> (0 < failed_count v)%nat)
  /\ (state_of_exit exit = Exhausted -> exit <> ExitWhile ->
      (0 < failed_count v)%nat).
Proof.
  pose proof (run_exit_spec ext adw_id issue_number max_attempts w) as Hrun.
  destruct (run_tests_with_resolution_exit ext adw_id issue_number
              max_attempts w) as [[exit v] w'].
  destruct Hrun as (_ & _ & _ & Hmore & Hexit).
  destruct exit; cbn [state_of_exit].
  - split; [|split; [intros _ H2; lia | discriminate]].
    split.
    + intros Hz. right. left. split; [reflexivity | apply Hexit, Hz].
    + intros [He | [[_ Hone] | [He _]]]; try discriminate.
      apply Hexit, Hone.
  - destruct Hexit as [Hz _].
    split; [|split; [discriminate | discriminate]].
    split; [intros _; left; reflexivity | intros _; exact Hz].
  - destruct Hexit as [Hpos _].
    split; [|split; [discriminate | intros _ _; exact Hpos]].
    split; [lia|]. intros [He | [[He _] | [He _]]]; discriminate.
  - destruct Hexit as [Hpos _].
    split; [|split; [discriminate | intros _ _; exact Hpos]].
    split; [lia|]. intros [He | [[He _] | [He _]]]; discriminate.
  - contradiction.
  - destruct Hexit as (Hn & _ & ->).
    split; [|split; [discriminate | intros _ Hne; congruence]].
    split; [intros _; right; right; auto | reflexivity].
Qed.

(* ------------------------------------------------------------------- *)
(* The remediation pass                                                *)
(* ------------------------------------------------------------------- *)

Lemma requests_app (t1 t2 : list Event) :
  requests (t1 ++ t2) = requests t1 ++ requests t2.
Proof. apply omap_app. Qed.

Lemma responses_app (t1 t2 : list Event) :
  responses (t1 ++ t2) = responses t1 ++ responses t2.
Proof. apply omap_app. Qed.

Lemma comments_app (t1 t2 : list Event) :
  comments (t1 ++ t2) = comments t1 ++ comments t2.
Proof. apply omap_app. Qed.

Lemma commands_app (t1 t2 : list Event) :
  commands (t1 ++ t2) = commands t1 ++ commands t2.
Proof. apply omap_app. Qed.

Section Remediation.

Context (ext : Ext) (adw_id issue_number : string) (iteration : nat).

Lemma resolve_loop_requests (failed_tests : list TestResult) :
  forall idx total resolved unresolved w,
  let '((resolved', unresolved'), w') :=
    resolve_loop ext failed_tests idx total adw_id issue_number iteration
      resolved unresolved w in
  exists t,
    w' = w ++ t /\
    requests t
    = imap (fun i => resolve_request ext adw_id iteration (idx + i))
           failed_tests /\
    resolved' = (resolved + length (List.filter success (responses t)))%nat /\
    (resolved' + unresolved')%nat
    = (resolved + unresolved + length failed_tests)%nat /\
    length (comments t) = (2 * length failed_tests)%nat /\
    (failed_tests = [] -> t = []).
Proof.
  induction failed_tests as [|test rest IH];
    intros idx total resolved unresolved w.
  - exists []. cbn. rewrite app_nil_r. repeat split; lia.
  - cbn [resolve_loop]. run_flow.
    set (r := execute_template ext _ _).
    destruct (success r) eqn:Hr; cbv beta iota;
      match goal with
      | |- context [resolve_loop ?e ?l ?i ?n ?a ?s ?it ?x ?y ?w0] =>
          specialize (IH i n x y w0);
          destruct (resolve_loop e l i n a s it x y w0) as [[res' unres'] w']
      end;
      destruct IH as (t & -> & Hreq & Hres & Hsum & Hcom & _);
      eexists; (split; [rewrite <- !app_assoc; reflexivity|]);
      cbn [app];
      cbn [requests responses comments omap list_omap];
      fold (requests t); fold (responses t); fold (comments t);
      cbn [List.filter length]; rewrite ?Hr; cbn [length];
      (split; [rewrite Hreq, imap_cons, Nat.add_0_r;
               unfold resolve_request at 1; f_equal;
               apply imap_ext; intros i x _; cbn;
               rewrite Nat.add_succ_r; reflexivity|]);
      repeat split; try lia; discriminate.
Qed.

End Remediation.

(** X17: [resolve_failed_tests] makes one call of the remediator for each
    test it is given, in the order given: the call for the test at
    position [idx] (from 0) is made as agent
    [test_resolver_iter<iteration>_<idx>] with the JSON of that test as
    its only argument.  It posts two comments per test; the resolved
    count is the number of calls that reported success, and resolved and
    unresolved counts add up to the number of tests; for no test it does
    nothing and returns (0, 0). *)
Theorem X17_one_request_per_failed_test (ext : Ext)
    (failed_tests : list TestResult) (adw_id issue_number : string)
    (iteration : nat) (w : World) :
  let '((resolved, unresolved), w') :=
    resolve_failed_tests ext failed_tests adw_id issue_number iteration w in
  requests (new_events w w')
  = imap (resolve_request ext adw_id iteration) failed_tests /\
  resolved = length (List.filter success (responses (new_events w w'))) /\
  (resolved + unresolved)%nat = length failed_tests /\
  length (comments (new_events w w')) = (2 * length failed_tests)%nat /\
  (failed_tests = [] -> w' = w /\ resolved = 0%nat /\ unresolved = 0%nat).
Proof.
  unfold resolve_failed_tests.
  pose proof (resolve_loop_requests ext adw_id issue_number iteration
                failed_tests 0 (length failed_tests) 0 0 w) as Hloop.
  destruct (resolve_loop ext failed_tests 0 (length failed_tests) adw_id
              issue_number iteration 0 0 w) as [[resolved unresolved] w'].
  destruct Hloop as (t & -> & Hreq & Hres & Hsum & Hcom & Hnone).
  rewrite new_events_app.
  split; [exact Hreq|]. split; [exact Hres|]. split; [lia|].
  split; [exact Hcom|].
  intros Hno. rewrite (Hnone Hno) in *. subst failed_tests.
  cbn [length] in Hsum. rewrite app_nil_r. repeat split; lia.
Qed.

(* ------------------------------------------------------------------- *)
(* The end-to-end tier                                                 *)
(* ------------------------------------------------------------------- *)

Section EndToEndRun.

Context (ext : Ext) (adw_id issue_number : string) (max_attempts : nat).

Lemma adds_resolve_e2e_loop (failed_tests : list E2ETestResult) :
  forall idx total iteration resolved unresolved,
    adds not_e2e_verifier
      (resolve_e2e_loop ext failed_tests idx total adw_id issue_number
         iteration resolved unresolved).
Proof.
  induction failed_tests as [|test rest IH]; intros;
    cbn [resolve_e2e_loop]; adds_auto; apply IH.
Qed.

Lemma resolve_e2e_loop_calls (failed_tests : list E2ETestResult)
    (idx total iteration resolved unresolved : nat) (w : World) :
  exists t,
    snd (resolve_e2e_loop ext failed_tests idx total adw_id issue_number
           iteration resolved unresolved w) = w ++ t /\
    e2e_verifier_calls t = 0%nat.
Proof.
  destruct (adds_resolve_e2e_loop failed_tests idx total iteration resolved
              unresolved w) as (t & Ht & Pt).
  exists t. split; [exact Ht|].
  apply (calls_none _ not_e2e_verifier); [|exact Pt].
  intros e He. unfold not_e2e_verifier in He.
  apply negb_true_iff in He. exact He.
Qed.

(** [run_e2e_tests]: without spec files nobody is called and no outcome
    returned; otherwise the verifier is called once and one outcome
    returned, which is the parsed one only when the call succeeded, its
    output parsed and the outcome built from it was accepted. *)
Lemma run_e2e_tests_outcome (w : World) :
  let '(res, w') := run_e2e_tests ext adw_id issue_number w in
  exists t,
    w' = w ++ t /\
    comments t = [] /\
    ((res = [] /\ requests t = [] /\ glob_e2e_specs ext w = [])
     \/ (exists r x,
           res = [x] /\ responses t = [r] /\
           e2e_verifier_calls t = 1%nat /\
           glob_e2e_specs ext w <> [] /\
           x = if success r then
                 match parse_json_dict ext (output r) with
                 | inr d =>
                     match e2e_validation_error ext (e2e_result_of d) with
                     | None => e2e_result_of d
                     | Some e =>
                         e2e_suite_failed ("Result parsing error: " +:+ e)
                     end
                 | inl e => e2e_suite_failed ("Result parsing error: " +:+ e)
                 end
               else e2e_suite_failed
                      ("Test execution error: " +:+ output r))).
Proof.
  run_flow.
  destruct (glob_e2e_specs ext w) as [|spec specs] eqn:Hglob; cbv beta iota.
  - eexists. split; [rewrite <- ?app_assoc; reflexivity|].
    split; [reflexivity|]. left. repeat split; reflexivity.
  - set (r0 := execute_template ext _ _).
    destruct (success r0) eqn:Hsucc; cbv beta iota;
      [destruct (parse_json_dict ext (output r0)) as [e|d] eqn:Hparse;
       cbv beta iota;
       [|fold (e2e_result_of d);
         destruct (e2e_validation_error ext (e2e_result_of d)) eqn:Hval;
         cbv beta iota]|];
      (eexists; split; [rewrite <- ?app_assoc; reflexivity|];
       split; [reflexivity|]; right; exists r0; eexists;
       split; [reflexivity|]; split; [reflexivity|];
       split; [reflexivity|]; split; [discriminate|];
       rewrite Hsucc, ?Hparse, ?Hval; reflexivity).
Qed.

Lemma requests_no_calls (t : list Event) (cmd : string) :
  requests t = [] -> calls cmd t = 0%nat.
Proof.
  unfold calls. induction t as [|e t IH]; [reflexivity|].
  destruct e; cbn [requests omap list_omap List.filter is_call command_of];
    try exact IH.
  discriminate.
Qed.

(** One round of the end-to-end loop, by the way it ends. *)
Lemma e2e_loop_body_round (v : E2EVars) (w : World) :
  let '((flow, v'), w') :=
    e2e_loop_body ext adw_id issue_number max_attempts v w in
  exists t,
    w' = w ++ t /\
    e2e_attempt v' = (e2e_attempt v + 1)%nat /\
    (e2e_verifier_calls t <= 1)%nat /\
    (length (e2e_results v') <= 1)%nat /\
    match flow with
    | Continue =>
        e2e_failed_count v' = 1%nat /\ e2e_attempt v' <> max_attempts /\
        e2e_counts_agree v'
    | Break ExitNoResults =>
        e2e_results v' = [] /\
        e2e_passed_count v' = e2e_passed_count v /\
        e2e_failed_count v' = e2e_failed_count v /\
        e2e_verifier_calls t = 0%nat
    | Break ExitAllPassed =>
        e2e_failed_count v' = 0%nat /\ e2e_counts_agree v' /\
        length (e2e_results v') = 1%nat
    | Break ExitMaxAttempts =>
        e2e_failed_count v' = 1%nat /\ e2e_attempt v' = max_attempts /\
        e2e_counts_agree v'
    | Break ExitNothingResolved =>
        e2e_failed_count v' = 1%nat /\ e2e_attempt v' <> max_attempts /\
        e2e_counts_agree v'
    | Break _ => False
    end.
Proof.
  destruct v as [att res0 pc0 fc0].
  cbv beta iota zeta delta
    [e2e_loop_body resolve_failed_e2e_tests bind ret log emit
     make_issue_comment fst snd e2e_attempt e2e_results e2e_passed_count
     e2e_failed_count].
  match goal with
  | |- context [run_e2e_tests ext adw_id issue_number ?w0] =>
      pose proof (run_e2e_tests_outcome w0) as Hrun;
      destruct (run_e2e_tests ext adw_id issue_number w0) as [res w1]
  end.
  destruct Hrun
    as (t & -> & _ & [(-> & Hnone & _) | (r0 & x & -> & _ & Hver & _ & _)]).
  - cbv beta iota. eexists. split; [rewrite <- !app_assoc; reflexivity|].
    cbn [e2e_attempt e2e_results e2e_passed_count e2e_failed_count length].
    split; [reflexivity|].
    unfold e2e_verifier_calls. rewrite !calls_app.
    rewrite (requests_no_calls t _ Hnone).
    cbn. repeat split; lia.
  - cbv beta iota. cbn [List.filter length].
    unfold e2e_counts_agree.
    destruct (e2e_passed x) eqn:Hp; cbn [length Nat.sub Nat.eqb negb];
      cbv beta iota.
    + eexists. split; [rewrite <- !app_assoc; reflexivity|].
      cbn [e2e_attempt e2e_results e2e_passed_count e2e_failed_count length
           List.filter].
      rewrite Hp. unfold e2e_verifier_calls in *. rewrite !calls_app, Hver.
      cbn. repeat split; lia.
    + destruct (att + 1 =? max_attempts)%nat eqn:Hlast; cbv beta iota.
      * apply Nat.eqb_eq in Hlast.
        eexists. split; [rewrite <- !app_assoc; reflexivity|].
        cbn [e2e_attempt e2e_results e2e_passed_count e2e_failed_count
             length List.filter].
        rewrite Hp. unfold e2e_verifier_calls in *. rewrite !calls_app, Hver.
        cbn. repeat split; lia.
      * apply Nat.eqb_neq in Hlast.
        match goal with
        | |- context [resolve_e2e_loop ?e ?l ?i ?n ?a ?s ?it ?x0 ?y ?w0] =>
            destruct (resolve_e2e_loop_calls l i n it x0 y w0)
              as (t3 & Ht3 & Hcalls3);
            destruct (resolve_e2e_loop e l i n a s it x0 y w0)
              as [[nres nunres] w3]
        end.
        cbn [snd] in Ht3. subst w3. cbv beta iota.
        destruct (0 <? nres)%nat; cbv beta iota;
          (eexists; split; [rewrite <- !app_assoc; reflexivity|]);
          cbn [e2e_attempt e2e_results e2e_passed_count e2e_failed_count
               length List.filter];
          rewrite Hp; unfold e2e_verifier_calls in *;
          rewrite !calls_app, Hver, Hcalls3;
          cbn; repeat split; lia.
Qed.

Lemma e2e_while_loop_run (fuel : nat) :
  forall v w,
  (max_attempts - e2e_attempt v <= fuel)%nat -> e2e_may_start v ->
  let '((e, v'), w') :=
    e2e_while_loop ext fuel adw_id issue_number max_attempts v w in
  exists t,
    w' = w ++ t /\
    (e2e_verifier_calls t + e2e_attempt v <= e2e_attempt v')%nat /\
    (e2e_attempt v <= max_attempts -> e2e_attempt v' <= max_attempts)%nat /\
    (e <> ExitWhile -> e2e_attempt v < e2e_attempt v')%nat /\
    (e <> ExitWhile -> length (e2e_results v') <= 1)%nat /\
    (e2e_failed_count v' <= 1)%nat /\
    match e with
    | ExitWhile => v' = v /\ t = [] /\ (max_attempts <= e2e_attempt v)%nat
    | ExitNoResults =>
        e2e_results v' = [] /\
        (e2e_failed_count v' = 0%nat <-> e2e_attempt v' = 1%nat)
    | ExitAllPassed =>
        e2e_failed_count v' = 0%nat /\ e2e_counts_agree v' /\
        length (e2e_results v') = 1%nat
    | ExitMaxAttempts =>
        e2e_failed_count v' = 1%nat /\ e2e_attempt v' = max_attempts /\
        e2e_counts_agree v'
    | ExitNothingResolved =>
        e2e_failed_count v' = 1%nat /\ e2e_attempt v' <> max_attempts /\
        e2e_counts_agree v'
    | ExitError => False
    end.
Proof.
  induction fuel as [|fuel IH]; intros v w Hfuel [Hstart Hone];
    cbn [e2e_while_loop].
  { exists []. rewrite app_nil_r. split; [reflexivity|].
    split; [cbn; lia|]. split; [auto|]. cbn [ret].
    split; [congruence|]. split; [congruence|]. split; [exact Hone|].
    split; [reflexivity|]. split; [reflexivity | lia]. }
  destruct (e2e_attempt v <? max_attempts)%nat eqn:Hguard.
  2:{ apply Nat.ltb_ge in Hguard. exists []. rewrite app_nil_r.
      split; [reflexivity|].
      split; [cbn; lia|]. split; [auto|]. cbn [ret].
      split; [congruence|]. split; [congruence|]. split; [exact Hone|].
      split; [reflexivity|]. split; [reflexivity | lia]. }
  apply Nat.ltb_lt in Hguard. unfold bind.
  pose proof (e2e_loop_body_round v w) as Hround.
  destruct (e2e_loop_body ext adw_id issue_number max_attempts v w)
    as [[flow v1] w1].
  destruct Hround as (t1 & -> & Hatt1 & Hcalls1 & Hlen1 & Hflow).
  destruct flow as [|e].
  - destruct Hflow as (Hfc & Hnotlast & Hagree).
    assert (Hstart1 : e2e_may_start v1).
    { unfold e2e_may_start. rewrite Hatt1, Hfc.
      replace (e2e_attempt v + 1 =? 0)%nat with false
        by (symmetry; apply Nat.eqb_neq; lia).
      split; lia. }
    specialize (IH v1 (w ++ t1) ltac:(lia) Hstart1).
    destruct (e2e_while_loop ext fuel adw_id issue_number max_attempts v1
                (w ++ t1)) as [[e2 v2] w2].
    destruct IH
      as (t2 & -> & Hcalls2 & Hle2 & Hmore2 & Hlen2 & Hone2 & Hexit2).
    exists (t1 ++ t2). rewrite app_assoc. split; [reflexivity|].
    unfold e2e_verifier_calls in *. rewrite calls_app.
    split; [lia|]. split; [intros _; apply Hle2; lia|].
    split; [intros _; lia|]. split; [exact Hlen2|]. split; [exact Hone2|].
    destruct e2; try exact Hexit2.
    destruct Hexit2 as (_ & _ & Hge). lia.
  - cbn [ret]. exists t1. split; [reflexivity|].
    split; [lia|]. split; [lia|]. split; [intros _; lia|].
    split; [intros _; exact Hlen1|].
    destruct (e2e_attempt v =? 0)%nat eqn:Hzero;
      [apply Nat.eqb_eq in Hzero | apply Nat.eqb_neq in Hzero];
      destruct e; try contradiction;
      try (destruct Hflow as (Hres & _ & Hfc & _); rewrite Hfc, Hatt1;
           (split; [lia|]); (split; [exact Hres|]); split; intros; lia);
      destruct Hflow as (Hf1 & Hf2 & Hf3);
      (split; [lia|]); (split; [assumption|]); split; assumption.
Qed.

(** The whole run of the end-to-end tier. *)
Lemma e2e_run_exit_spec (w : World) :
  let '((e, v), w') :=
    run_e2e_tests_with_resolution_exit ext adw_id issue_number
      max_attempts w in
  (e2e_verifier_calls (new_events w w') <= e2e_attempt v)%nat /\
  (e2e_attempt v <= max_attempts)%nat /\
  (length (e2e_results v) <= 1)%nat /\
  (e2e_failed_count v <= 1)%nat /\
  match e with
  | ExitWhile =>
      max_attempts = 0%nat /\ w' = w /\
      v = {| e2e_attempt := 0; e2e_results := []; e2e_passed_count := 0;
             e2e_failed_count := 0 |}
  | ExitNoResults =>
      e2e_results v = [] /\
      (e2e_failed_count v = 0%nat <-> e2e_attempt v = 1%nat)
  | ExitAllPassed =>
      e2e_failed_count v = 0%nat /\ e2e_counts_agree v /\
      length (e2e_results v) = 1%nat
  | ExitMaxAttempts =>
      e2e_failed_count v = 1%nat /\ e2e_attempt v = max_attempts /\
      e2e_counts_agree v
  | ExitNothingResolved =>
      e2e_failed_count v = 1%nat /\ e2e_attempt v <> max_attempts /\
      e2e_counts_agree v
  | ExitError => False
  end.
Proof.
  unfold run_e2e_tests_with_resolution_exit. unfold bind at 1.
  set (v0 := {| e2e_attempt := 0; e2e_results := []; e2e_passed_count := 0;
                e2e_failed_count := 0 |}).
  pose proof (e2e_while_loop_run max_attempts v0 w) as Hloop.
  destruct (e2e_while_loop ext max_attempts adw_id issue_number
              max_attempts v0 w) as [[e v] w1].
  destruct Hloop
    as (t & -> & Hcalls & Hle & Hmore & Hlen & Hone & Hexit);
    [cbn; lia | split; [reflexivity | cbn; lia] |].
  cbn [e2e_attempt v0] in Hcalls, Hle, Hmore, Hexit. cbn [snd].
  assert (Hfin : exists fin,
    ((if (e2e_attempt v =? max_attempts)%nat
         && (0 <? e2e_failed_count v)%nat
      then
        log WARNING ("Reached maximum E2E retry attempts ("
                     +:+ str_nat max_attempts +:+ ") with "
                     +:+ str_nat (e2e_failed_count v)
                     +:+ " failures remaining") ;;
        make_issue_comment issue_number
          (format_issue_message adw_id "ops"
             ("Reached maximum E2E retry attempts ("
              +:+ str_nat max_attempts
              +:+ ") with " +:+ str_nat (e2e_failed_count v)
              +:+ " failures")
             None)
      else ret tt) ;; ret (e, v)) (w ++ t) = ((e, v), (w ++ t) ++ fin)
    /\ e2e_verifier_calls fin = 0%nat /\
    ((e2e_attempt v =? max_attempts)%nat && (0 <? e2e_failed_count v)%nat
     = false -> fin = [])).
  { destruct ((e2e_attempt v =? max_attempts)%nat
              && (0 <? e2e_failed_count v)%nat).
    - eexists. run_flow. rewrite <- !app_assoc.
      split; [reflexivity|]. split; [reflexivity | discriminate].
    - exists []. run_flow. rewrite app_nil_r. repeat split; reflexivity. }
  destruct Hfin as (fin & -> & Hfin & Hnone).
  rewrite <- app_assoc, new_events_app.
  unfold e2e_verifier_calls in *. rewrite calls_app, Hfin.
  split; [lia|]. split; [apply Hle; lia|].
  split.
  { destruct e; try (apply Hlen; discriminate).
    destruct Hexit as (-> & _). cbn. lia. }
  split; [exact Hone|].
  destruct e; try exact Hexit.
  destruct Hexit as (-> & -> & Hzero).
  assert (Hn : max_attempts = 0%nat) by (cbn in Hzero; lia).
  split; [exact Hn|]. split; [|reflexivity].
  rewrite Hnone; [rewrite !app_nil_r; reflexivity|].
  cbn [e2e_failed_count v0 Nat.ltb Nat.leb]. apply andb_false_r.
Qed.

End EndToEndRun.

Section EndToEndNext.

Context (ext : Ext) (adw_id issue_number : string) (max_attempts : nat).

(** One turn of the [while] of the end-to-end tier. *)
Lemma e2e_while_loop_step (fuel : nat) (v : E2EVars) (w : World) :
  (e2e_attempt v < max_attempts)%nat ->
  e2e_while_loop ext (S fuel) adw_id issue_number max_attempts v w
  = let '((flow, v'), w') :=
      e2e_loop_body ext adw_id issue_number max_attempts v w in
    match flow with
    | Break e => ((e, v'), w')
    | Continue =>
        e2e_while_loop ext fuel adw_id issue_number max_attempts v' w'
    end.
Proof.
  intros Hlt. cbn [e2e_while_loop].
  rewrite (proj2 (Nat.ltb_lt _ _) Hlt). unfold bind, ret.
  destruct (e2e_loop_body ext adw_id issue_number max_attempts v w)
    as [[[|e] v'] w']; reflexivity.
Qed.

(** The verifier calls of one round: one when a spec file is found; none
    when there is none, and then the round leaves the loop and calls no
    remediator either. *)
Lemma e2e_loop_body_verifier (v : E2EVars) (w : World) :
  let '((flow, v'), w') :=
    e2e_loop_body ext adw_id issue_number max_attempts v w in
  match glob_e2e_specs ext
          (w ++ [attempt_line max_attempts (e2e_attempt v + 1)]) with
  | [] =>
      flow = Break ExitNoResults /\
      e2e_verifier_calls (new_events w w') = 0%nat /\
      e2e_remediator_calls (new_events w w') = 0%nat
  | _ :: _ => e2e_verifier_calls (new_events w w') = 1%nat
  end.
Proof.
  destruct v as [att res0 pc0 fc0]. unfold attempt_line.
  cbv beta iota zeta delta
    [e2e_loop_body resolve_failed_e2e_tests bind ret log emit
     make_issue_comment fst snd e2e_attempt e2e_results e2e_passed_count
     e2e_failed_count].
  match goal with
  | |- context [run_e2e_tests ext adw_id issue_number ?w0] =>
      pose proof (run_e2e_tests_outcome ext adw_id issue_number w0) as Hrun;
      destruct (run_e2e_tests ext adw_id issue_number w0) as [res w1]
  end.
  destruct Hrun
    as (t & -> & _ & [(-> & Hnone & Hglob)
                     | (r0 & x & -> & _ & Hver & Hglob & _)]).
  - rewrite Hglob. cbv beta iota.
    rewrite <- !app_assoc, new_events_app.
    unfold e2e_verifier_calls, e2e_remediator_calls. rewrite !calls_app.
    rewrite !(requests_no_calls t _ Hnone).
    repeat split; reflexivity.
  - destruct (glob_e2e_specs ext _) as [|spec specs]; [contradiction|].
    cbv beta iota. cbn [List.filter length].
    unfold e2e_verifier_calls in *.
    destruct (e2e_passed x) eqn:Hp; cbn [length Nat.sub Nat.eqb negb];
      cbv beta iota.
    + rewrite <- !app_assoc, new_events_app, !calls_app, Hver. reflexivity.
    + destruct (att + 1 =? max_attempts)%nat eqn:Hlast; cbv beta iota.
      * rewrite <- !app_assoc, new_events_app, !calls_app, Hver. reflexivity.
      * match goal with
        | |- context [resolve_e2e_loop ?e ?l ?i ?n ?a ?s ?it ?x0 ?y ?w0] =>
            destruct (resolve_e2e_loop_calls e a s l i n it x0 y w0)
              as (t3 & Ht3 & Hcalls3);
            destruct (resolve_e2e_loop e l i n a s it x0 y w0)
              as [[nres nunres] w3]
        end.
        cbn [snd] in Ht3. subst w3. cbv beta iota.
        unfold e2e_verifier_calls in Hcalls3.
        destruct (0 <? nres)%nat; cbv beta iota;
          rewrite <- !app_assoc, new_events_app, !calls_app, Hver, Hcalls3;
          reflexivity.
Qed.

End EndToEndNext.

(* ------------------------------------------------------------------- *)
(* Infrastructure failures of the verifier, in both tiers              *)
(* ------------------------------------------------------------------- *)

(** C3 (as the code has it): in the primary tier a verifier call that
    itself failed ends the loop at once as aborted: no further verifier
    call, no remediator call in that attempt, and the raw error is logged
    and posted.  In the end-to-end tier such a failure is turned into the
    single failing outcome [e2e_suite], which carries the raw error and is
    handled like any failing test: on the last attempt the loop is left
    without remediation; on an earlier attempt the remediator is called
    once on it; a round that breaks ends the loop where it stands; and
    when the remediation reports success the loop starts another attempt,
    which calls the verifier once more if a spec file is found then, and
    otherwise leaves the loop without calling anybody. *)
Theorem C3_infrastructure_failure (ext : Ext) (adw_id issue_number : string)
    (max_attempts : nat) :
  (forall v w,
     let '((flow, v'), w') :=
       loop_body ext adw_id issue_number max_attempts v w in
     forall r, test_response v' = Some r -> success r = false ->
     flow = Break ExitError /\ state_of_exit ExitError = Aborted /\
     verifier_calls (new_events w w') = 1%nat /\
     remediator_calls (new_events w w') = 0%nat /\
     ELog ERROR ("Error running tests: " +:+ output r) ∈ new_events w w' /\
     EComment issue_number
       (format_issue_message adw_id AGENT_TESTER
          ("Error running tests: " +:+ output r) None) ∈ new_events w w' /\
     (forall fuel, (attempt v < max_attempts)%nat ->
        while_loop ext (S fuel) adw_id issue_number max_attempts v w
        = ((ExitError, v'), w')))
  /\
  (forall v w,
     let '((flow, v'), w') :=
       e2e_loop_body ext adw_id issue_number max_attempts v w in
     forall r, first_call "/e2e_test" (new_events w w') = Some r ->
     success r = false ->
     e2e_results v'
       = [e2e_suite_failed ("Test execution error: " +:+ output r)] /\
     e2e_passed_count v' = 0%nat /\ e2e_failed_count v' = 1%nat /\
     e2e_verifier_calls (new_events w w') = 1%nat /\
     ELog ERROR ("Error running E2E tests: " +:+ output r)
       ∈ new_events w w' /\
     ((e2e_attempt v + 1)%nat = max_attempts ->
        flow = Break ExitMaxAttempts /\
        state_of_exit ExitMaxAttempts = Exhausted /\
        e2e_remediator_calls (new_events w w') = 0%nat) /\
     ((e2e_attempt v + 1)%nat <> max_attempts ->
        e2e_remediator_calls (new_events w w') = 1%nat /\
        exists r1,
          first_call "/resolve_failed_e2e_test" (new_events w w') = Some r1 /\
          flow = (if success r1 then Continue
                  else Break ExitNothingResolved) /\
          state_of_exit ExitNothingResolved = Exhausted /\
          (success r1 = true -> (e2e_attempt v < max_attempts)%nat ->
           let '((flow2, v2), w2) :=
             e2e_loop_body ext adw_id issue_number max_attempts v' w' in
           (forall fuel,
              e2e_while_loop ext (S (S fuel)) adw_id issue_number
                max_attempts v w
              = match flow2 with
                | Break e => ((e, v2), w2)
                | Continue =>
                    e2e_while_loop ext fuel adw_id issue_number
                      max_attempts v2 w2
                end) /\
           match glob_e2e_specs ext
                   (w' ++ [attempt_line max_attempts (e2e_attempt v + 2)])
           with
           | [] =>
               flow2 = Break ExitNoResults /\
               e2e_verifier_calls (new_events w' w2) = 0%nat /\
               e2e_remediator_calls (new_events w' w2) = 0%nat
           | _ :: _ => e2e_verifier_calls (new_events w' w2) = 1%nat
           end)) /\
     (forall e fuel, flow = Break e -> (e2e_attempt v < max_attempts)%nat ->
        e2e_while_loop ext (S fuel) adw_id issue_number max_attempts v w
        = ((e, v'), w'))).
Proof.
  split.
  - intros v w.
    pose proof (loop_body_error ext adw_id issue_number max_attempts v w)
      as Herr.
    destruct (loop_body ext adw_id issue_number max_attempts v w)
      as [[flow v'] w'] eqn:Hbody.
    intros r Hr Hs. destruct (Herr r Hr Hs) as (-> & _ & Hv & Hc & Hl & Hp).
    split; [reflexivity|]. split; [reflexivity|].
    split; [exact Hv|]. split; [exact Hc|]. split; [exact Hl|].
    split; [exact Hp|].
    intros fuel Hlt. apply while_loop_break; assumption.
  - intros v w.
    pose proof (e2e_loop_body_error ext adw_id issue_number max_attempts v w)
      as Herr.
    pose proof (e2e_loop_body_round ext adw_id issue_number max_attempts v w)
      as Hround.
    destruct (e2e_loop_body ext adw_id issue_number max_attempts v w)
      as [[flow v'] w'] eqn:Hbody.
    intros r Hr Hs.
    destruct (Herr r Hr Hs) as (Hres & Hpc & Hfc & Hver & Hlog & Hlast & Hnext).
    destruct Hround as (t & _ & Hatt & _).
    do 5 (split; [assumption|]).
    split.
    { intros Hmax. destruct (Hlast Hmax) as [Hflow Hrem]. auto. }
    split.
    { intros Hne. destruct (Hnext Hne) as (Hrem & r1 & Hr1 & Hflow).
      split; [exact Hrem|]. exists r1.
      split; [exact Hr1|]. split; [exact Hflow|]. split; [reflexivity|].
      intros Hs1 Hlt. rewrite Hs1 in Hflow. subst flow.
      pose proof (e2e_loop_body_verifier ext adw_id issue_number
                    max_attempts v' w') as Hsecond.
      destruct (e2e_loop_body ext adw_id issue_number max_attempts v' w')
        as [[flow2 v2] w2] eqn:Hbody2.
      split.
      - intros fuel.
        rewrite (e2e_while_loop_step ext adw_id issue_number max_attempts
                   (S fuel) v w Hlt), Hbody.
        rewrite (e2e_while_loop_step ext adw_id issue_number max_attempts
                   fuel v' w') by lia.
        rewrite Hbody2. reflexivity.
      - rewrite Hatt in Hsecond.
        replace (e2e_attempt v + 1 + 1)%nat with (e2e_attempt v + 2)%nat
          in Hsecond by lia.
        exact Hsecond. }
    intros e fuel -> Hlt.
    rewrite (e2e_while_loop_step ext adw_id issue_number max_attempts
               fuel v w Hlt), Hbody.
    reflexivity.
Qed.

(** The end-to-end tier after a verifier call that itself failed, on the
    first of its two attempts: the remediator is called, reports success,
    and the verifier is called a second time. *)
Lemma C3_e2e_tier_counterexample :
  let '((flow, v'), w') :=
    e2e_loop_body crash_e2e "a1b2c3d4" "42" MAX_E2E_TEST_RETRY_ATTEMPTS
      {| e2e_attempt := 0; e2e_results := []; e2e_passed_count := 0;
         e2e_failed_count := 0 |} [] in
  first_call "/e2e_test" w' = Some (reply "claude: command not found" false)
  /\ flow = Continue
  /\ e2e_remediator_calls w' = 1%nat
  /\ e2e_verifier_calls
       (snd (run_e2e_tests_with_resolution_exit crash_e2e "a1b2c3d4" "42"
               MAX_E2E_TEST_RETRY_ATTEMPTS [])) = 2%nat.
Proof. vm_compute. repeat split. Qed.

(** The same failure when the spec file is gone after the remediation:
    the second attempt finds nothing to run and the loop ends after one
    verifier call. *)
Example e2e_spec_file_gone_after_remediation :
  let r := run_e2e_tests_with_resolution_exit crash_e2e_vanishing
             "a1b2c3d4" "42" MAX_E2E_TEST_RETRY_ATTEMPTS [] in
  fst (fst r) = ExitNoResults
  /\ e2e_verifier_calls (snd r) = 1%nat
  /\ e2e_remediator_calls (snd r) = 1%nat.
Proof. vm_compute. repeat split. Qed.


(** X18: the end-to-end tier is bounded and never aborts: a run of
    [run_e2e_tests_with_resolution] with a ceiling of N attempts makes at
    most as many calls of the end-to-end verifier as it counts attempts,
    which is at most N; it returns at most one outcome and a failed count
    of at most 1; it is never left through an error exit; and its counts
    agree with the outcomes it returns, except when an attempt found no
    outcome to process: then no outcome is returned together with the
    counts of the attempt before, so that the failed count is 0 exactly
    when this happened on the first attempt. *)
Theorem X18_e2e_tier_bounded (ext : Ext) (adw_id issue_number : string)
    (max_attempts : nat) (w : World) :
  let '((exit, v), w') :=
    run_e2e_tests_with_resolution_exit ext adw_id issue_number
      max_attempts w in
  (e2e_verifier_calls (new_events w w') <= e2e_attempt v)%nat /\
  (e2e_attempt v <= max_attempts)%nat /\
  (length (e2e_results v) <= 1)%nat /\
  (e2e_failed_count v <= 1)%nat /\
  state_of_exit exit <> Aborted /\
  (exit <> ExitNoResults -> e2e_counts_agree v) /\
  (exit = ExitNoResults ->
     e2e_results v = [] /\
     (e2e_failed_count v = 0%nat <-> e2e_attempt v = 1%nat)).
Proof.
  pose proof (e2e_run_exit_spec ext adw_id issue_number max_attempts w)
    as Hrun.
  destruct (run_e2e_tests_with_resolution_exit ext adw_id issue_number
              max_attempts w) as [[exit v] w'].
  destruct Hrun as (Hcalls & Hle & Hlen & Hone & Hexit).
  split; [exact Hcalls|]. split; [exact Hle|]. split; [exact Hlen|].
  split; [exact Hone|].
  destruct exit; cbn [state_of_exit]; try contradiction;
    (split; [discriminate|]).
  - destruct Hexit as (_ & Hagree & _).
    split; [intros _; exact Hagree | discriminate].
  - destruct Hexit as (_ & _ & Hagree).
    split; [intros _; exact Hagree | discriminate].
  - destruct Hexit as (_ & _ & Hagree).
    split; [intros _; exact Hagree | discriminate].
  - split; [congruence | intros _; exact Hexit].
  - destruct Hexit as (_ & _ & ->).
    split; [intros _; split; reflexivity | discriminate].
Qed.

(** X19: an end-to-end outcome counts as passed only by its parsed
    status: [run_e2e_tests] returns at most one outcome, and that outcome
    passes only if the verifier was called, its call succeeded, its output
    parsed to a dict whose status is ["passed"], and the outcome built
    from the dict was accepted.  An output that does not parse gives the
    failing outcome [e2e_suite] with the parse error, so that, unlike in
    the primary tier, unparsable output counts as one failure. *)
Theorem X19_e2e_pass_needs_parsed_status (ext : Ext)
    (adw_id issue_number : string) (w : World) :
  let '(res, w') := run_e2e_tests ext adw_id issue_number w in
  (length res <= 1)%nat /\
  (forall x, x ∈ res -> e2e_passed x = true ->
     exists r d,
       responses (new_events w w') = [r] /\ success r = true /\
       parse_json_dict ext (output r) = inr d /\
       d_status d = Some "passed" /\
       e2e_validation_error ext (e2e_result_of d) = None /\
       x = e2e_result_of d) /\
  (forall r e,
     responses (new_events w w') = [r] -> success r = true ->
     parse_json_dict ext (output r) = inl e ->
     res = [e2e_suite_failed ("Result parsing error: " +:+ e)] /\
     length (List.filter e2e_passed res) = 0%nat).
Proof.
  pose proof (run_e2e_tests_outcome ext adw_id issue_number w) as Hrun.
  destruct (run_e2e_tests ext adw_id issue_number w) as [res w'].
  destruct Hrun
    as (t & -> & _ & [(-> & Hnone & _) | (r & x & -> & Hresp & _ & _ & Hx)]);
    rewrite new_events_app.
  - split; [cbn; lia|]. split.
    + intros x Hx. inversion Hx.
    + intros r e Hr. exfalso.
      assert (Hlen : length (responses t) = length (requests t)).
      { clear. induction t as [|ev t IH]; [reflexivity|].
        destruct ev; cbn [responses requests omap list_omap length];
          try exact IH.
        f_equal. exact IH. }
      rewrite Hr, Hnone in Hlen. discriminate Hlen.
  - split; [cbn; lia|]. rewrite Hresp. split.
    + intros y Hy Hpass. apply list_elem_of_singleton in Hy. subst y.
      destruct (success r) eqn:Hsucc; [|subst x; discriminate Hpass].
      destruct (parse_json_dict ext (output r)) as [e|d] eqn:Hparse;
        [subst x; discriminate Hpass|].
      destruct (e2e_validation_error ext (e2e_result_of d)) eqn:Hval;
        [subst x; discriminate Hpass|].
      exists r, d. subst x. repeat split; try reflexivity; try assumption.
      unfold e2e_passed, e2e_result_of in Hpass. cbn [status] in Hpass.
      destruct (d_status d) as [st|]; [|discriminate Hpass].
      change (String.eqb st "passed" = true) in Hpass.
      apply String.eqb_eq in Hpass. rewrite Hpass. reflexivity.
    + intros r' e [= <-] Hsucc Hparse. rewrite Hsucc, Hparse in Hx.
      subst x. split; reflexivity.
Qed.

(** X20: without end-to-end spec files the end-to-end tier calls nobody:
    when no file matches [e2e/*.spec.ts], a run of
    [run_e2e_tests_with_resolution] with a ceiling of at least one attempt
    makes no agent call and posts no comment, and returns no outcomes and
    the counts 0 and 0. *)
Theorem X20_no_spec_files_no_calls (ext : Ext)
    (adw_id issue_number : string) (max_attempts : nat) (w : World) :
  (forall h, glob_e2e_specs ext h = []) ->
  (1 <= max_attempts)%nat ->
  exists t,
    run_e2e_tests_with_resolution ext adw_id issue_number max_attempts w
    = (([], 0%nat, 0%nat), w ++ t) /\
    requests t = [] /\ comments t = [].
Proof.
  intros Hglob Hn. destruct max_attempts as [|n]; [lia|].
  unfold run_e2e_tests_with_resolution, run_e2e_tests_with_resolution_exit.
  cbn [e2e_while_loop e2e_attempt Nat.ltb Nat.leb].
  run_flow. rewrite Hglob. cbv beta iota.
  cbn [e2e_attempt e2e_failed_count e2e_results e2e_passed_count snd
       Nat.ltb Nat.leb].
  rewrite andb_false_r. cbv beta iota.
  eexists. rewrite <- !app_assoc.
  split; [reflexivity|]. split; reflexivity.
Qed.

Lemma X20_no_spec_files_no_calls_witness :
  exists t,
    run_e2e_tests_with_resolution green "a1b2c3d4" "42"
      MAX_E2E_TEST_RETRY_ATTEMPTS []
    = (([], 0%nat, 0%nat), t) /\ requests t = [].
Proof.
  destruct (X20_no_spec_files_no_calls green "a1b2c3d4" "42"
              MAX_E2E_TEST_RETRY_ATTEMPTS [])
    as (t & Hrun & Hreq & _).
  - intros h. reflexivity.
  - unfold MAX_E2E_TEST_RETRY_ATTEMPTS. lia.
  - exists t. split; [exact Hrun | exact Hreq].
Defined.

(* ------------------------------------------------------------------- *)
(* Commit, push and the exit code                                      *)
(* ------------------------------------------------------------------- *)

(** X21: the end of [main] does not depend on git for its exit code.
    Whatever the git commands do, [main_finish] runs [git add -A] once,
    then [git commit] at most once, then [git push -u origin <branch>]
    once, also after a failed add or commit; it saves the state once; and
    the exit code is 1 exactly when a failure was counted in either tier,
    whether or not anything could be committed or pushed. *)
Theorem X21_exit_code_ignores_git (ext : Ext)
    (issue_number adw_id branch_name : string)
    (passed_count failed_count : nat) (e2e_results : list E2ETestResult)
    (e2e_passed_count e2e_failed_count : nat) (w : World) :
  let '(code, w') :=
    main_finish ext issue_number adw_id branch_name passed_count
      failed_count (e2e_results, e2e_passed_count, e2e_failed_count) w in
  code = (if (0 <? failed_count + e2e_failed_count)%nat then 1 else 0) /\
  (exists commit : list (list string),
     commands (new_events w w')
     = [["git"; "add"; "-A"]] ++ commit
       ++ [["git"; "push"; "-u"; "origin"; branch_name]] /\
     (commit = [] \/ exists msg, commit = [["git"; "commit"; "-m"; msg]])) /\
  EStateSave "adw_test" ∈ new_events w w'.
Proof.
  cbv beta iota zeta delta
    [main_finish git_commit git_push run bind ret log emit
     make_issue_comment fst snd].
  repeat match goal with
         | |- context [subprocess_run ext ?h ?c] =>
             let r := fresh "r" in
             set (r := subprocess_run ext h c) in *;
             destruct r as [? | [? ? ?]]; cbv beta iota;
             cbn [returncode stdout stderr]
         | |- context [if negb ?c then _ else _] =>
             destruct c; cbn [negb]; cbv beta iota
         | |- context [if ?c then _ else _] => destruct c; cbv beta iota
         end.
  all: rewrite <- ?app_assoc, ?new_events_app.
  all: (split; [reflexivity|]).
  all: (split; [|elem_of_trace]).
  all: cbn [commands omap list_omap app];
    first [ exists []; split; [reflexivity | left; reflexivity]
          | eexists [_]; split; [reflexivity | right; eexists; reflexivity] ].
Qed.

(* ------------------------------------------------------------------- *)
(* The flag --skip-e2e                                                 *)
(* ------------------------------------------------------------------- *)

Lemma main_e2e_flag (ext : Ext) (issue_number adw_id : string)
    (failed_count : nat) (w : World) :
  exists t,
    main_e2e ext issue_number adw_id true failed_count w
    = (([], 0%nat, 0%nat), w ++ t) /\
    forallb not_e2e_call t = true /\ length (comments t) = 1%nat.
Proof.
  unfold main_e2e. destruct (0 <? failed_count)%nat;
    eexists; run_flow; rewrite <- !app_assoc; repeat split; reflexivity.
Qed.

(** X22: with [--skip-e2e], [main] makes no call of the end-to-end
    verifier and none of the end-to-end remediator, whatever the unit
    tests did, and its exit code is decided by the primary tier alone: 1
    when that tier returned a positive failed count, 0 otherwise. *)
Theorem X22_skip_flag_skips_e2e (ext : Ext)
    (issue_number adw_id branch_name : string) (w : World) :
  let '(code, w') := main ext issue_number adw_id branch_name true w in
  let primary :=
    fst (run_tests_with_resolution ext adw_id issue_number
           MAX_TEST_RETRY_ATTEMPTS (snd (main_announce issue_number adw_id w)))
  in
  e2e_verifier_calls (new_events w w') = 0%nat /\
  e2e_remediator_calls (new_events w w') = 0%nat /\
  code = (if (0 <? returned_failed_count primary)%nat then 1 else 0).
Proof.
  rewrite main_blocks. cbv zeta.
  destruct (adds_main_announce issue_number adw_id w) as (ta & Ha & Pa).
  rewrite Ha in *.
  destruct (adds_run_tests_with_resolution ext adw_id issue_number
              MAX_TEST_RETRY_ATTEMPTS (w ++ ta)) as (tr & Hr & Pr).
  destruct (run_tests_with_resolution ext adw_id issue_number
              MAX_TEST_RETRY_ATTEMPTS (w ++ ta))
    as [[[[results p] f] resp] w2].
  cbn [fst snd returned_failed_count] in *. subst w2.
  destruct (adds_main_report ext issue_number adw_id results p f
              ((w ++ ta) ++ tr)) as (tp & -> & Pp).
  destruct (main_e2e_flag ext issue_number adw_id f
              (((w ++ ta) ++ tr) ++ tp)) as (ts & -> & Ps & _).
  destruct (adds_main_finish ext issue_number adw_id branch_name p f
              ([], 0%nat, 0%nat) ((((w ++ ta) ++ tr) ++ tp) ++ ts))
    as (tf & Hf & Pf).
  pose proof (main_finish_code ext issue_number adw_id branch_name p f
                [] 0 0 ((((w ++ ta) ++ tr) ++ tp) ++ ts)) as Hcode.
  destruct (main_finish ext issue_number adw_id branch_name p f
              ([], 0%nat, 0%nat) ((((w ++ ta) ++ tr) ++ tp) ++ ts))
    as [code w5].
  cbn [fst snd] in Hf, Hcode. subst w5.
  rewrite <- !app_assoc, new_events_app.
  assert (Hall : forallb not_e2e_call (ta ++ tr ++ tp ++ ts ++ tf) = true).
  { rewrite !forallb_app, Pa, Pr, Pp, Ps, Pf. reflexivity. }
  destruct (not_e2e_call_calls _ Hall) as [Hv Hc].
  split; [exact Hv|]. split; [exact Hc|].
  rewrite Hcode, Nat.add_0_r. reflexivity.
Qed.

(* ------------------------------------------------------------------- *)
(* Every call and every comment of a run carries its identifier        *)
(* ------------------------------------------------------------------- *)

Lemma string_app_assoc (a b c : string) :
  (a +:+ b) +:+ c = a +:+ (b +:+ c).
Proof.
  induction a as [|x a IH]; [reflexivity|].
  change (String x ((a +:+ b) +:+ c) = String x (a +:+ (b +:+ c))).
  f_equal. exact IH.
Qed.

Lemma prefix_self_app (p s : string) : String.prefix p (p +:+ s) = true.
Proof.
  induction p as [|a p IH].
  - destruct s; reflexivity.
  - change (String.prefix (String a p) (String a (p +:+ s)) = true).
    simpl. destruct (ascii_dec a a) as [_|Hne]; [exact IH | contradiction].
Qed.

Lemma prefix_marked (adw_id agent_name message : string) :
  String.prefix (adw_id +:+ "_")
    (format_issue_message adw_id agent_name message None) = true.
Proof.
  unfold format_issue_message.
  rewrite <- (string_app_assoc adw_id "_"). apply prefix_self_app.
Qed.

Ltac marked_event :=
  cbn [marked AdwTest.adw_id model andb];
  rewrite ?String.eqb_refl, ?prefix_marked; reflexivity.

Ltac marked_step :=
  lazymatch goal with
  | |- adds _ (ret _) => apply adds_ret
  | |- adds _ (bind _ _) => apply adds_bind; [|intros ?]
  | |- adds _ (emit _) => apply adds_emit; marked_event
  | |- adds _ (log _ _) => apply adds_emit; reflexivity
  | |- adds _ (make_issue_comment _ _) => apply adds_emit; marked_event
  | |- adds _ (exec _ _) => apply adds_exec; intros ?; marked_event
  | |- adds _ (run _ _) =>
      let w := fresh "w" in intros w; eexists [_]; split; reflexivity
  | |- adds _ (fun w => (_, w)) => apply adds_read
  | |- adds _ (if ?c then _ else _) => destruct c
  | |- adds _ (match ?x with (_, _) => _ end) => destruct x
  | |- adds _ (match ?x with inl _ => _ | inr _ => _ end) => destruct x
  | |- adds _ (match ?x with [] => _ | _ :: _ => _ end) => destruct x
  | |- adds _ (match ?x with Some _ => _ | None => _ end) => destruct x
  | |- adds _ (match ?x with Continue => _ | Break _ => _ end) => destruct x
  end.

Ltac marked_auto := repeat (first [assumption | marked_step]).

Section Marked.

Context (ext : Ext) (issue_number adw_id branch_name : string).

Lemma marked_resolve_loop (failed_tests : list TestResult) :
  forall idx total iteration resolved unresolved,
    adds (marked adw_id issue_number)
      (resolve_loop ext failed_tests idx total adw_id issue_number iteration
         resolved unresolved).
Proof.
  induction failed_tests as [|test rest IH]; intros; cbn [resolve_loop];
    marked_auto; apply IH.
Qed.

Lemma marked_resolve_e2e_loop (failed_tests : list E2ETestResult) :
  forall idx total iteration resolved unresolved,
    adds (marked adw_id issue_number)
      (resolve_e2e_loop ext failed_tests idx total adw_id issue_number
         iteration resolved unresolved).
Proof.
  induction failed_tests as [|test rest IH]; intros;
    cbn [resolve_e2e_loop]; marked_auto; apply IH.
Qed.

Lemma marked_loop_body (max_attempts : nat) (v : Vars) :
  adds (marked adw_id issue_number)
    (loop_body ext adw_id issue_number max_attempts v).
Proof.
  unfold loop_body, run_tests, parse_test_results, resolve_failed_tests.
  marked_auto; apply marked_resolve_loop.
Qed.

Lemma marked_while_loop (max_attempts fuel : nat) :
  forall v, adds (marked adw_id issue_number)
              (while_loop ext fuel adw_id issue_number max_attempts v).
Proof.
  induction fuel as [|fuel IH]; intros v; cbn [while_loop]; marked_auto.
  - apply marked_loop_body.
  - apply IH.
Qed.

Lemma marked_run_tests_with_resolution (max_attempts : nat) :
  adds (marked adw_id issue_number)
    (run_tests_with_resolution ext adw_id issue_number max_attempts).
Proof.
  unfold run_tests_with_resolution, run_tests_with_resolution_exit.
  marked_auto. apply marked_while_loop.
Qed.

Lemma marked_run_e2e_tests :
  adds (marked adw_id issue_number) (run_e2e_tests ext adw_id issue_number).
Proof. unfold run_e2e_tests. cbv zeta. marked_auto. Qed.

Lemma marked_e2e_loop_body (max_attempts : nat) (v : E2EVars) :
  adds (marked adw_id issue_number)
    (e2e_loop_body ext adw_id issue_number max_attempts v).
Proof.
  unfold e2e_loop_body, resolve_failed_e2e_tests.
  marked_auto;
    first [apply marked_run_e2e_tests | apply marked_resolve_e2e_loop].
Qed.

Lemma marked_e2e_while_loop (max_attempts fuel : nat) :
  forall v, adds (marked adw_id issue_number)
              (e2e_while_loop ext fuel adw_id issue_number max_attempts v).
Proof.
  induction fuel as [|fuel IH]; intros v; cbn [e2e_while_loop]; marked_auto.
  - apply marked_e2e_loop_body.
  - apply IH.
Qed.

Lemma marked_run_e2e_tests_with_resolution (max_attempts : nat) :
  adds (marked adw_id issue_number)
    (run_e2e_tests_with_resolution ext adw_id issue_number max_attempts).
Proof.
  unfold run_e2e_tests_with_resolution, run_e2e_tests_with_resolution_exit.
  marked_auto. apply marked_e2e_while_loop.
Qed.

Lemma marked_main (skip_e2e : bool) :
  adds (marked adw_id issue_number)
    (main ext issue_number adw_id branch_name skip_e2e).
Proof.
  unfold main, main_announce, main_report, main_e2e, main_finish,
    git_commit, git_push.
  marked_auto;
    first [ apply marked_run_tests_with_resolution
          | apply marked_run_e2e_tests_with_resolution ].
Qed.

End Marked.

Lemma marked_lists (adw_id issue_number : string) (t : list Event) :
  forallb (marked adw_id issue_number) t = true ->
  Forall (fun req => AdwTest.adw_id req = adw_id /\ model req = "sonnet")
    (requests t) /\
  Forall (fun c : string * string =>
            fst c = issue_number /\
            String.prefix (adw_id +:+ "_") (snd c) = true) (comments t).
Proof.
  induction t as [|e t IH]; cbn [forallb].
  - intros _. split; constructor.
  - intros [He Ht]%andb_true_iff. destruct (IH Ht) as [Hreq Hcom].
    destruct e; cbn [requests comments omap list_omap];
      fold (requests t); fold (comments t); try (split; assumption).
    + cbn [marked] in He. apply andb_true_iff in He as [Ha Hm].
      apply String.eqb_eq in Ha, Hm.
      split; [constructor; [split|]; assumption | assumption].
    + cbn [marked] in He. apply andb_true_iff in He as [Hi Hp].
      apply String.eqb_eq in Hi.
      split; [assumption | constructor; [split|]; assumption].
Qed.

(** X23: everything a run says carries its identifier.  In a run of
    [main] for the run identifier [adw_id] on the issue [issue_number],
    every agent call, of either verifier and either remediator, is made
    with that identifier and asks for the model ["sonnet"]; and every
    comment is posted to that issue and starts with the identifier
    followed by an underscore. *)
Theorem X23_calls_and_comments_are_marked (ext : Ext)
    (issue_number adw_id branch_name : string) (skip_e2e : bool)
    (w : World) :
  let '(code, w') := main ext issue_number adw_id branch_name skip_e2e w in
  Forall (fun req => AdwTest.adw_id req = adw_id /\ model req = "sonnet")
    (requests (new_events w w')) /\
  Forall (fun c : string * string =>
            fst c = issue_number /\
            String.prefix (adw_id +:+ "_") (snd c) = true)
    (comments (new_events w w')).
Proof.
  destruct (marked_main ext issue_number adw_id branch_name skip_e2e w)
    as (t & Ht & Pt).
  destruct (main ext issue_number adw_id branch_name skip_e2e w)
    as [code w'].
  cbn [snd] in Ht. subst w'. rewrite new_events_app.
  apply marked_lists, Pt.
Qed.

(* ------------------------------------------------------------------- *)
(* The command line and the environment check                          *)
(* ------------------------------------------------------------------- *)

Lemma list_in_app (x : string) (before after : list string) :
  list_in x (before ++ x :: after) = true.
Proof.
  unfold list_in. rewrite existsb_app. cbn [existsb].
  rewrite String.eqb_refl, orb_true_r. reflexivity.
Qed.

Lemma list_remove_first (x : string) (before after : list string) :
  list_in x before = false ->
  list_remove x (before ++ x :: after) = Some (before ++ after).
Proof.
  unfold list_in. induction before as [|y before IH]; cbn [existsb app].
  - intros _. cbn [list_remove]. rewrite String.eqb_refl. reflexivity.
  - intros [Hy Hrest]%orb_false_iff. cbn [list_remove].
    rewrite String.eqb_sym, Hy, (IH Hrest). reflexivity.
Qed.

(** What [parse_args] makes of the arguments once the flag is gone. *)
Lemma parse_positional (argv : list string) (skip_e2e : bool) :
  (if (length argv <? 2)%nat then (argv, usage, SysExit 1)
   else
     match argv !! 1%nat with
     | None => (argv, [], Failed ArgvIndexError)
     | Some issue_number =>
         if (2 <? length argv)%nat then
           match argv !! 2%nat with
           | None => (argv, [], Failed ArgvIndexError)
           | Some adw_id =>
               (argv, [], Returned (issue_number, Some adw_id, skip_e2e))
           end
         else (argv, [], Returned (issue_number, None, skip_e2e))
     end)
  = match argv with
    | _ :: issue_number :: rest =>
        (argv, [], Returned (issue_number, head rest, skip_e2e))
    | _ => (argv, usage, SysExit 1)
    end.
Proof.
  destruct argv as [|prog [|issue_number [|adw rest]]]; reflexivity.
Qed.

(** X24: [--skip-e2e] may stand anywhere on the command line.
    [parse_args] removes its first occurrence from [sys.argv] and reads
    the issue number and the optional run identifier from what is left,
    by position: with fewer than two items left it prints the usage and
    exits with code 1, and items after the third are ignored.  It never
    raises.  Without the flag the arguments are read in the same way and
    [sys.argv] is left as it is. *)
Theorem X24_skip_flag_anywhere (before after : list string) :
  list_in "--skip-e2e" before = false ->
  parse_args (before ++ "--skip-e2e" :: after)
  = match before ++ after with
    | _ :: issue_number :: rest =>
        (before ++ after, [], Returned (issue_number, head rest, true))
    | _ => (before ++ after, usage, SysExit 1)
    end
  /\ parse_args before
     = match before with
       | _ :: issue_number :: rest =>
           (before, [], Returned (issue_number, head rest, false))
       | _ => (before, usage, SysExit 1)
       end.
Proof.
  intros Hbefore. unfold parse_args. split.
  - rewrite list_in_app, (list_remove_first _ _ _ Hbefore).
    apply parse_positional.
  - rewrite Hbefore. apply parse_positional.
Qed.

Lemma X24_skip_flag_anywhere_witness :
  parse_args ["adw_test.py"; "--skip-e2e"; "123"; "abc12345"]
  = (["adw_test.py"; "123"; "abc12345"], [],
     Returned ("123", Some "abc12345", true))
  /\ parse_args ["adw_test.py"; "--skip-e2e"]
     = (["adw_test.py"], usage, SysExit 1).
Proof.
  split.
  - exact (proj1 (X24_skip_flag_anywhere ["adw_test.py"]
                    ["123"; "abc12345"] eq_refl)).
  - exact (proj1 (X24_skip_flag_anywhere ["adw_test.py"] [] eq_refl)).
Defined.

Lemma getenv_falsy_false (environ : gmap string string) (var : string) :
  getenv_falsy environ var = false <->
  exists value, environ !! var = Some value /\ value <> "".
Proof.
  unfold getenv_falsy. destruct (environ !! var) as [[|c value]|]; split;
    try discriminate; try reflexivity.
  - intros (value & [= <-] & Hne). congruence.
  - intros _. eexists. split; [reflexivity | discriminate].
  - intros (value & Hv & _). discriminate Hv.
Qed.

(** X25: [check_env_vars] lets the program go on exactly when
    [ANTHROPIC_API_KEY] and [CLAUDE_CODE_PATH] are both set to a
    non-empty value, and then writes nothing; a variable set to the empty
    string counts as missing.  Otherwise it exits with code 1 after one
    header line and one line for each missing variable, all of them sent
    to the logger when one was passed and to the standard error stream
    when not. *)
Theorem X25_env_check_needs_both_variables
    (environ : gmap string string) (logger : bool) :
  let '(written, outcome) := check_env_vars environ logger in
  let set_ var := exists value, environ !! var = Some value /\ value <> "" in
  (outcome = Returned tt <->
     set_ "ANTHROPIC_API_KEY" /\ set_ "CLAUDE_CODE_PATH") /\
  (outcome = Returned tt -> written = []) /\
  (outcome <> Returned tt ->
     outcome = SysExit 1 /\
     length written
     = S (length (List.filter (getenv_falsy environ) required_vars)) /\
     Forall (fun e => exists line,
                        e = if logger then LogError line else PrintErr line)
       written).
Proof.
  unfold check_env_vars, required_vars. cbn [List.filter].
  pose proof (getenv_falsy_false environ "ANTHROPIC_API_KEY") as Ha.
  pose proof (getenv_falsy_false environ "CLAUDE_CODE_PATH") as Hc.
  destruct (getenv_falsy environ "ANTHROPIC_API_KEY");
    destruct (getenv_falsy environ "CLAUDE_CODE_PATH"); cbn [map length].
  4:{ split; [|split].
      - split; [intros _|reflexivity].
        split; [apply Ha | apply Hc]; reflexivity.
      - reflexivity.
      - intros Hne. contradiction. }
  all: split; [|split]; [| discriminate |].
  all: try (split; [discriminate|]; intros [Hsa Hsc];
            first [apply Ha in Hsa; discriminate Hsa
                  | apply Hc in Hsc; discriminate Hsc]).
  all: intros _; split; [reflexivity|]; split; [reflexivity|];
    destruct logger;
    repeat (apply Forall_cons; split; [eexists; reflexivity|]);
    apply Forall_nil; exact I.
Qed.

(* ------------------------------------------------------------------- *)
(* The remediation pass of the end-to-end tier                         *)
(* ------------------------------------------------------------------- *)

Section E2ERemediation.

Context (ext : Ext) (adw_id issue_number : string) (iteration : nat).

Lemma resolve_e2e_loop_requests (failed_tests : list E2ETestResult) :
  forall idx total resolved unresolved w,
  let '((resolved', unresolved'), w') :=
    resolve_e2e_loop ext failed_tests idx total adw_id issue_number
      iteration resolved unresolved w in
  exists t,
    w' = w ++ t /\
    requests t
    = imap (fun i => e2e_resolve_request ext adw_id iteration (idx + i))
           failed_tests /\
    resolved' = (resolved + length (List.filter success (responses t)))%nat /\
    (resolved' + unresolved')%nat
    = (resolved + unresolved + length failed_tests)%nat /\
    length (comments t) = (2 * length failed_tests)%nat /\
    (failed_tests = [] -> t = []).
Proof.
  induction failed_tests as [|test rest IH];
    intros idx total resolved unresolved w.
  - exists []. cbn. rewrite app_nil_r. repeat split; lia.
  - cbn [resolve_e2e_loop]. run_flow.
    set (r := execute_template ext _ _).
    destruct (success r) eqn:Hr; cbv beta iota;
      match goal with
      | |- context [resolve_e2e_loop ?e ?l ?i ?n ?a ?s ?it ?x ?y ?w0] =>
          specialize (IH i n x y w0);
          destruct (resolve_e2e_loop e l i n a s it x y w0)
            as [[res' unres'] w']
      end;
      destruct IH as (t & -> & Hreq & Hres & Hsum & Hcom & _);
      eexists; (split; [rewrite <- !app_assoc; reflexivity|]);
      cbn [app];
      cbn [requests responses comments omap list_omap];
      fold (requests t); fold (responses t); fold (comments t);
      cbn [List.filter length]; rewrite ?Hr; cbn [length];
      (split; [rewrite Hreq, imap_cons, Nat.add_0_r;
               unfold e2e_resolve_request at 1; f_equal;
               apply imap_ext; intros i x _; cbn;
               rewrite Nat.add_succ_r; reflexivity|]);
      repeat split; try lia; discriminate.
Qed.

End E2ERemediation.

Lemma imap_Forall {A B : Type} (P : B -> Prop) (f : nat -> A -> B)
    (l : list A) :
  (forall i x, P (f i x)) -> Forall P (imap f l).
Proof.
  revert f. induction l as [|x l IH]; intros f Hf; [constructor|].
  rewrite imap_cons. constructor; [apply Hf|].
  apply IH. intros i y. apply Hf.
Qed.

(** X27: [resolve_failed_e2e_tests] makes one call of the end-to-end
    remediator for each outcome it is given, in the order given: the call
    for the outcome at position [idx] (from 0) is made as agent
    [e2e_test_resolver_iter<iteration>_<idx>] with the JSON of that
    outcome as its only argument, and never calls a verifier.  It posts
    two comments per outcome; the resolved count is the number of calls
    that reported success, and resolved and unresolved counts add up to
    the number of outcomes given. *)
Theorem X27_one_request_per_failed_e2e_test (ext : Ext)
    (failed_tests : list E2ETestResult) (adw_id issue_number : string)
    (iteration : nat) (w : World) :
  let '((resolved, unresolved), w') :=
    resolve_failed_e2e_tests ext failed_tests adw_id issue_number
      iteration w in
  requests (new_events w w')
  = imap (e2e_resolve_request ext adw_id iteration) failed_tests /\
  e2e_verifier_calls (new_events w w') = 0%nat /\
  verifier_calls (new_events w w') = 0%nat /\
  resolved = length (List.filter success (responses (new_events w w'))) /\
  (resolved + unresolved)%nat = length failed_tests /\
  length (comments (new_events w w')) = (2 * length failed_tests)%nat.
Proof.
  unfold resolve_failed_e2e_tests.
  pose proof (resolve_e2e_loop_requests ext adw_id issue_number iteration
                failed_tests 0 (length failed_tests) 0 0 w) as Hloop.
  destruct (resolve_e2e_loop ext failed_tests 0 (length failed_tests) adw_id
              issue_number iteration 0 0 w) as [[resolved unresolved] w'].
  destruct Hloop as (t & -> & Hreq & Hres & Hsum & Hcom & _).
  rewrite new_events_app.
  split; [exact Hreq|].
  assert (Hcalls : forall cmd,
            cmd <> "/resolve_failed_e2e_test" -> calls cmd t = 0%nat).
  { intros cmd Hcmd. unfold calls.
    assert (Hall : Forall (fun req => slash_command req
                                      = "/resolve_failed_e2e_test")
                     (requests t)).
    { rewrite Hreq. apply imap_Forall. intros i x. reflexivity. }
    clear -Hall Hcmd. induction t as [|e t IH]; [reflexivity|].
    destruct e; cbn [requests omap list_omap] in Hall;
      fold (requests t) in Hall;
      cbn [List.filter is_call command_of]; try (apply IH; exact Hall).
    apply Forall_cons in Hall as [Hreq Hall]. rewrite Hreq.
    destruct (String.eqb_spec "/resolve_failed_e2e_test" cmd) as [<-|_];
      [congruence | apply IH; exact Hall]. }
  split; [apply Hcalls; discriminate|].
  split; [apply Hcalls; discriminate|].
  split; [exact Hres|]. split; [lia | exact Hcom].
Qed.

(* ------------------------------------------------------------------- *)
(* The comment with the results                                        *)
(* ------------------------------------------------------------------- *)

Lemma concat_cons2 (sep x y : string) (l : list string) :
  String.concat sep (x :: y :: l)
  = x +:+ sep +:+ String.concat sep (y :: l).
Proof. reflexivity. Qed.

Lemma concat_snoc (sep x : string) (l : list string) :
  l <> [] ->
  String.concat sep (l ++ [x]) = String.concat sep l +:+ sep +:+ x.
Proof.
  induction l as [|y l IH]; [congruence|]. intros _.
  destruct l as [|z l].
  - reflexivity.
  - change ((y :: z :: l) ++ [x]) with (y :: (z :: l ++ [x])).
    rewrite !concat_cons2.
    change (z :: l ++ [x]) with ((z :: l) ++ [x]).
    rewrite IH by discriminate.
    rewrite !string_app_assoc. reflexivity.
Qed.

Section Comment.

Context (ext : Ext).

(** The blocks of a non-empty list of tests end with a closing fence and
    an empty line. *)
Lemma test_blocks_end (tests : list TestResult) :
  tests <> [] ->
  exists front,
    concat (map (test_block ext) tests) = front ++ ["```"; ""].
Proof.
  induction tests as [|t tests IH]; [congruence|]. intros _.
  destruct tests as [|t' tests].
  - eexists [_; _; _; _]. reflexivity.
  - destruct IH as [front Hfront]; [discriminate|].
    cbn [map concat] in *. rewrite Hfront.
    exists (test_block ext t ++ front). rewrite <- app_assoc. reflexivity.
Qed.

Lemma pop_trailing_empty_snoc (l : list string) :
  pop_trailing_empty (l ++ [""]) = l.
Proof.
  unfold pop_trailing_empty. rewrite last_snoc.
  apply removelast_last.
Qed.

(** A comment whose parts are [h :: rest], a closing fence and an empty
    line: the empty line is dropped and the rest joined. *)
Lemma comment_join (h : string) (rest : list string) :
  String.concat nl (pop_trailing_empty (h :: rest ++ ["```"; ""]))
  = String.concat nl (h :: rest) +:+ nl +:+ "```".
Proof.
  change (h :: rest ++ ["```"; ""]) with ((h :: rest) ++ ["```"; ""]).
  change ["```"; ""] with (["```"] ++ [""]).
  rewrite app_assoc, pop_trailing_empty_snoc.
  apply concat_snoc. discriminate.
Qed.

Lemma existsb_filter {A : Type} (f : A -> bool) (l : list A) :
  existsb f l = match List.filter f l with [] => false | _ => true end.
Proof.
  induction l as [|x l IH]; [reflexivity|]. cbn [existsb List.filter].
  destruct (f x); [reflexivity | exact IH].
Qed.

End Comment.

(** X28: the shape of the results comment.  For no outcome at all
    [format_test_results_comment] returns "No test results found".  For a
    non-empty list the comment ends with the closing fence of the last
    JSON block, without a trailing newline; it starts with an empty line
    and the heading "## Failed Tests" when some test failed, and with the
    heading "## Passed Tests" when none did, so that failed tests always
    come first; and the two counts it is given do not change it. *)
Theorem X28_results_comment_shape (ext : Ext) (results : list TestResult)
    (passed_count failed_count : nat) :
  (results = [] ->
   format_test_results_comment ext results passed_count failed_count
   = "No test results found")
  /\ (results <> [] ->
      exists body,
        format_test_results_comment ext results passed_count failed_count
        = (if existsb (fun t => negb (passed t)) results
           then nl +:+ "## Failed Tests" else "## Passed Tests")
          +:+ nl +:+ body +:+ nl +:+ "```")
  /\ format_test_results_comment ext results passed_count failed_count
     = format_test_results_comment ext results 0 0.
Proof.
  split; [intros ->; reflexivity|]. split; [|reflexivity].
  intros Hne. destruct results as [|t0 rs]; [congruence|].
  unfold format_test_results_comment.
  rewrite existsb_filter.
  pose proof (filter_failed_length (t0 :: rs)) as Hlen.
  set (failed_tests := List.filter (fun t => negb (passed t)) (t0 :: rs))
    in *.
  set (passed_tests := List.filter passed (t0 :: rs)) in *.
  destruct failed_tests as [|ft fts] eqn:Hfailed.
  - destruct passed_tests as [|pt pts] eqn:Hpassed; [discriminate Hlen|].
    destruct (test_blocks_end ext (pt :: pts)) as [front Hfront];
      [discriminate|].
    rewrite Hfront. cbn [app].
    pose proof (comment_join "## Passed Tests" ("" :: front)) as Hjoin.
    cbn [app] in Hjoin. rewrite Hjoin.
    rewrite concat_cons2. exists (String.concat nl ("" :: front)).
    rewrite !string_app_assoc. reflexivity.
  - destruct (test_blocks_end ext (ft :: fts)) as [front Hfront];
      [discriminate|].
    destruct passed_tests as [|pt pts] eqn:Hpassed.
    + rewrite Hfront, app_nil_r. cbn [app].
      pose proof (comment_join "" ("## Failed Tests" :: "" :: front))
        as Hjoin.
      cbn [app] in Hjoin. rewrite Hjoin.
      rewrite !concat_cons2. exists (String.concat nl ("" :: front)).
      rewrite !string_app_assoc. reflexivity.
    + destruct (test_blocks_end ext (pt :: pts)) as [front2 Hfront2];
        [discriminate|].
      rewrite Hfront, Hfront2.
      pose proof (comment_join ""
                    ("## Failed Tests" :: ""
                     :: front ++ ["```"; ""; "## Passed Tests"; ""]
                        ++ front2)) as Hjoin.
      cbn [app] in Hjoin. rewrite <- !app_assoc in Hjoin.
      cbn [app] in Hjoin. cbn [app]. rewrite <- !app_assoc. cbn [app].
      rewrite Hjoin.
      rewrite !concat_cons2.
      exists (String.concat nl
                ("" :: front ++ ["```"; ""; "## Passed Tests"; ""]
                       ++ front2)).
      rewrite !string_app_assoc. reflexivity.
Qed.

End AdwTestProofs.

(* ===================================================================== *)
(* Properties of the model selection                                     *)
(* ===================================================================== *)

Module ModelSelectionProofs.

Import ModelSelection.

Lemma heavy_fast_disjoint : HEAVY_COMMANDS ∩ FAST_COMMANDS = ∅.
Proof. apply (bool_decide_unpack _). vm_compute. exact I. Qed.

Lemma fast_not_heavy (command : string) :
  command ∈ FAST_COMMANDS -> command ∉ HEAVY_COMMANDS.
Proof.
  intros Hfast Hheavy.
  assert (Hboth : command ∈ HEAVY_COMMANDS ∩ FAST_COMMANDS)
    by (apply elem_of_intersection; split; assumption).
  rewrite heavy_fast_disjoint in Hboth. exact (not_elem_of_empty _ Hboth).
Qed.

(** X1: with neither override, [get_model] answers by the command alone:
    "opus" for a command of [HEAVY_COMMANDS], "sonnet" for one of
    [FAST_COMMANDS] and for a command of neither set; no command is in both
    sets, so the order of the two tests does not matter; and the answer is
    the default model of the set [get_model_set_for_command] recommends. *)
Theorem X1_auto_selection_by_command (command : string) :
  (command ∈ HEAVY_COMMANDS -> get_model command None None = "opus")
  /\ (command ∈ FAST_COMMANDS -> get_model command None None = "sonnet")
  /\ (command ∉ HEAVY_COMMANDS -> get_model command None None = "sonnet")
  /\ ~ (command ∈ HEAVY_COMMANDS /\ command ∈ FAST_COMMANDS)
  /\ get_model command None None
     = MODEL_SET_DEFAULTS (get_model_set_for_command command).
Proof.
  unfold get_model, get_model_set_for_command.
  split; [|split; [|split; [|split]]].
  - intros Hheavy. rewrite (bool_decide_eq_true_2 _ Hheavy). reflexivity.
  - intros Hfast. apply fast_not_heavy in Hfast.
    rewrite (bool_decide_eq_false_2 _ Hfast).
    destruct (bool_decide (command ∈ FAST_COMMANDS)); reflexivity.
  - intros Hlight. rewrite (bool_decide_eq_false_2 _ Hlight).
    destruct (bool_decide (command ∈ FAST_COMMANDS)); reflexivity.
  - intros [Hheavy Hfast]. exact (fast_not_heavy _ Hfast Hheavy).
  - destruct (bool_decide (command ∈ HEAVY_COMMANDS)); [reflexivity|].
    destruct (bool_decide (command ∈ FAST_COMMANDS)); reflexivity.
Qed.

(** X2: a model other than "sonnet" and "opus" (such as "haiku") is
    returned only when it was forced: whatever the command and the model
    set, [get_model] returns such a name only as the [force_model] it was
    given; an empty [force_model] counts as none. *)
Theorem X2_other_models_only_when_forced (command : string)
    (model_set : option ModelSet) (force_model : option string)
    (m : string) :
  get_model command model_set force_model = m ->
  m <> "sonnet" -> m <> "opus" ->
  force_model = Some m /\ m <> ""
  /\ get_model command model_set (Some "")
     = get_model command model_set None.
Proof.
  intros Hm Hs Ho. unfold get_model in *.
  destruct force_model as [[|c f]|].
  - exfalso. destruct model_set as [[]|]; cbn [MODEL_SET_DEFAULTS] in Hm;
      [congruence | congruence |].
    destruct (bool_decide (command ∈ HEAVY_COMMANDS)); [congruence|].
    destruct (bool_decide (command ∈ FAST_COMMANDS)); congruence.
  - subst m. split; [reflexivity|]. split; [discriminate | reflexivity].
  - exfalso. destruct model_set as [[]|]; cbn [MODEL_SET_DEFAULTS] in Hm;
      [congruence | congruence |].
    destruct (bool_decide (command ∈ HEAVY_COMMANDS)); [congruence|].
    destruct (bool_decide (command ∈ FAST_COMMANDS)); congruence.
Qed.

Lemma X2_other_models_only_when_forced_witness :
  get_model "/commit" (Some HEAVY) (Some "haiku") = "haiku"
  /\ Some "haiku" = Some "haiku".
Proof.
  split; [reflexivity|].
  exact (proj1 (X2_other_models_only_when_forced "/commit" (Some HEAVY)
                  (Some "haiku") "haiku" eq_refl
                  ltac:(discriminate) ltac:(discriminate))).
Defined.

(** X3: a model set that is given decides alone: for every command,
    [get_model] with a model set and no forced model returns the default
    of that set, so the three convenience functions return "sonnet" for
    [BASE] and "opus" for [HEAVY] whatever command they name; in
    particular the planning model for [BASE] is "sonnet" although its
    command "/chore" alone would select "opus". *)
Theorem X3_model_set_overrides_command (command : string)
    (model_set : ModelSet) :
  get_model command (Some model_set) None = MODEL_SET_DEFAULTS model_set
  /\ get_planning_model model_set = MODEL_SET_DEFAULTS model_set
  /\ get_implementation_model model_set = MODEL_SET_DEFAULTS model_set
  /\ get_test_model model_set = MODEL_SET_DEFAULTS model_set
  /\ get_planning_model BASE = "sonnet"
  /\ get_model "/chore" None None = "opus".
Proof.
  split; [reflexivity|]. split; [reflexivity|]. split; [reflexivity|].
  split; [reflexivity|]. split; [reflexivity|].
  assert (Hchore : "/chore" ∈ HEAVY_COMMANDS)
    by (apply (bool_decide_unpack _); vm_compute; exact I).
  unfold get_model. rewrite (bool_decide_eq_true_2 _ Hchore). reflexivity.
Qed.

Lemma factors_lookup_other (model : string) :
  model <> "haiku" -> model <> "sonnet" -> model <> "opus" ->
  factors !! model = None.
Proof.
  intros Hh Hs Ho. unfold factors.
  rewrite !lookup_insert_ne by congruence.
  apply lookup_singleton_ne. congruence.
Qed.

(** X4: the cost factor of the model selected for a command alone is 15
    for a heavy task and 1 otherwise; and a model name that is not a key
    of the table ("haiku", "sonnet", "opus") gets the factor 1 of the
    baseline. *)
Theorem X4_cost_of_selected_model (command model : string) :
  estimate_cost_factor (get_model command None None)
  = (if is_heavy_task command then 15%float else 1%float)
  /\ (model <> "haiku" -> model <> "sonnet" -> model <> "opus" ->
      estimate_cost_factor model = 1%float).
Proof.
  split.
  - unfold get_model, is_heavy_task.
    destruct (bool_decide (command ∈ HEAVY_COMMANDS)); [reflexivity|].
    destruct (bool_decide (command ∈ FAST_COMMANDS)); reflexivity.
  - intros Hh Hs Ho. unfold estimate_cost_factor.
    rewrite (factors_lookup_other model Hh Hs Ho). reflexivity.
Qed.

End ModelSelectionProofs.
